(** * The slang compilation driver: option validation, command files,
      preprocessing with identifier obfuscation.

    A shallow embedding of [Driver.cpp] (namespace [slang::driver]).  The
    driver object, the process-global state it touches (standard streams,
    working directory) and the collaborators it owns are records; every
    member function is a state-passing function on them.  Collaborators whose
    code lives elsewhere in the tree (command-line tokenizer, preprocessor,
    diagnostic engine internals, random numbers, the file system) enter as
    section variables. *)

From Stdlib Require Import ZArith Lia Ascii DecimalString.
From stdpp Require Import gmap strings list fin_maps finite.

Open Scope string_scope.
Open Scope list_scope.

(** ** Strings and paths *)

(** The line feed printed after every message. *)
Definition nl : string := String (Ascii.ascii_of_nat 10) EmptyString.

(** [std::string_view::find_last_of(char)]: index of the last occurrence,
    [None] for [npos]. *)
Fixpoint find_last_of (c : ascii) (s : string) : option nat :=
  match s with
  | EmptyString => None
  | String a r =>
      match find_last_of c r with
      | Some i => Some (S i)
      | None => if Ascii.eqb a c then Some 0 else None
      end
  end.

(** [std::string_view::substr(pos)]: the suffix starting at [pos]. *)
Fixpoint substr (pos : nat) (s : string) : string :=
  match pos, s with
  | 0, _ => s
  | S k, String _ r => substr k r
  | S _, EmptyString => EmptyString
  end.

(** [std::filesystem::path]; the empty path is the empty string. *)
Abbreviation Path := string (only parsing).

Definition path_empty (p : Path) : bool :=
  match p with EmptyString => true | _ => false end.

(** [fmt::format] of a pattern with one [{}] hole between two fixed parts. *)
Definition format1 (before : string) (arg : string) (after : string) : string :=
  before +:+ arg +:+ after.

(** ** Machine integers *)

(** [uint32_t] arithmetic wraps modulo [2^32]. *)
Definition wrap32 (z : Z) : Z := (z mod 2 ^ 32)%Z.

(** The cast [(int)] applied to a [uint32_t]. *)
Definition to_int (z : Z) : Z :=
  let w := wrap32 z in if (w <? 2 ^ 31)%Z then w else (w - 2 ^ 32)%Z.

(** [std::optional<T>::value_or]. *)
Definition value_or {A} (o : option A) (d : A) : A :=
  match o with Some a => a | None => d end.

(** [opt == true] on a [std::optional<bool>]. *)
Definition is_true (o : option bool) : bool :=
  match o with Some true => true | _ => false end.

(** [opt == "literal"] on a [std::optional<std::string>]. *)
Definition opt_is (o : option string) (lit : string) : bool :=
  match o with Some s => String.eqb s lit | None => false end.

(** [opt != "literal"] on a [std::optional<std::string>]. *)
Definition opt_isnt (o : option string) (lit : string) : bool :=
  negb (opt_is o lit).

Definition has_value {A} (o : option A) : bool :=
  match o with Some _ => true | None => false end.

(** ** The process: standard streams and working directory *)

Inductive Color := errorColor | warningColor | highlightColor.

(** One call of [OS::print] / [OS::printE]: the text and its style. *)
Record Chunk := { style : option Color; text : string }.

Definition plain (s : string) : Chunk := {| style := None; text := s |}.
Definition fg (c : Color) (s : string) : Chunk := {| style := Some c; text := s |}.

Inductive Stream := stdout | stderr.

(** Modelled from the spec: the [OS] primitives are declared outside the
    given sources.  [print] writes to the output stream, [printE] to the
    error stream; the two colour switches and the working directory are
    process-wide. *)
Module OS.
Record t := {
  out : list Chunk;
  err : list Chunk;
  stdoutColorsEnabled : bool;
  stderrColorsEnabled : bool;
  current_path : Path
}.

Definition print (c : Chunk) (o : t) : t :=
  {| out := out o ++ [c]; err := err o;
     stdoutColorsEnabled := stdoutColorsEnabled o;
     stderrColorsEnabled := stderrColorsEnabled o;
     current_path := current_path o |}.

Definition printE (c : Chunk) (o : t) : t :=
  {| out := out o; err := err o ++ [c];
     stdoutColorsEnabled := stdoutColorsEnabled o;
     stderrColorsEnabled := stderrColorsEnabled o;
     current_path := current_path o |}.

Definition setStderrColorsEnabled (b : bool) (o : t) : t :=
  {| out := out o; err := err o;
     stdoutColorsEnabled := stdoutColorsEnabled o;
     stderrColorsEnabled := b;
     current_path := current_path o |}.

Definition setStdoutColorsEnabled (b : bool) (o : t) : t :=
  {| out := out o; err := err o;
     stdoutColorsEnabled := b;
     stderrColorsEnabled := stderrColorsEnabled o;
     current_path := current_path o |}.

Definition set_current_path_raw (p : Path) (o : t) : t :=
  {| out := out o; err := err o;
     stdoutColorsEnabled := stdoutColorsEnabled o;
     stderrColorsEnabled := stderrColorsEnabled o;
     current_path := p |}.
End OS.

(** ** Driver::Options *)

Module Options.
Record t := {
  includeDirs : list string;
  includeSystemDirs : list string;
  libDirs : list string;
  libExts : list string;
  excludeExts : gset string;
  defines : list string;
  undefines : list string;
  maxIncludeDepth : option Z;
  librariesInheritMacros : option bool;
  ignoreDirectives : list string;
  maxParseDepth : option Z;
  maxLexerErrors : option Z;
  numThreads : option Z;
  maxInstanceDepth : option Z;
  maxGenerateSteps : option Z;
  maxConstexprDepth : option Z;
  maxConstexprSteps : option Z;
  maxConstexprBacktrace : option Z;
  maxInstanceArray : option Z;
  compat : option string;
  minTypMax : option string;
  timeScale : option string;
  allowUseBeforeDeclare : option bool;
  ignoreUnknownModules : option bool;
  relaxEnumConversions : option bool;
  allowHierarchicalConst : option bool;
  allowDupInitialDrivers : option bool;
  strictDriverChecking : option bool;
  onlyLint : option bool;
  topModules : list string;
  paramOverrides : list string;
  warningOptions : list string;
  colorDiags : option bool;
  diagColumn : option bool;
  diagLocation : option bool;
  diagSourceLine : option bool;
  diagOptionName : option bool;
  diagIncludeStack : option bool;
  diagMacroExpansion : option bool;
  diagHierarchy : option bool;
  errorLimit : option Z;
  suppressWarningsPaths : list string;
  suppressMacroWarningsPaths : list string;
  singleUnit : option bool;
  libraryFiles : list string
}.

(** The fields the driver itself assigns after parsing; every other field
    is copied. *)
Definition assign (ex : gset string) (aubd ium rec ahc : option bool) (o : t) : t :=
  {| includeDirs := includeDirs o;
     includeSystemDirs := includeSystemDirs o;
     libDirs := libDirs o;
     libExts := libExts o;
     excludeExts := ex;
     defines := defines o;
     undefines := undefines o;
     maxIncludeDepth := maxIncludeDepth o;
     librariesInheritMacros := librariesInheritMacros o;
     ignoreDirectives := ignoreDirectives o;
     maxParseDepth := maxParseDepth o;
     maxLexerErrors := maxLexerErrors o;
     numThreads := numThreads o;
     maxInstanceDepth := maxInstanceDepth o;
     maxGenerateSteps := maxGenerateSteps o;
     maxConstexprDepth := maxConstexprDepth o;
     maxConstexprSteps := maxConstexprSteps o;
     maxConstexprBacktrace := maxConstexprBacktrace o;
     maxInstanceArray := maxInstanceArray o;
     compat := compat o;
     minTypMax := minTypMax o;
     timeScale := timeScale o;
     allowUseBeforeDeclare := aubd;
     ignoreUnknownModules := ium;
     relaxEnumConversions := rec;
     allowHierarchicalConst := ahc;
     allowDupInitialDrivers := allowDupInitialDrivers o;
     strictDriverChecking := strictDriverChecking o;
     onlyLint := onlyLint o;
     topModules := topModules o;
     paramOverrides := paramOverrides o;
     warningOptions := warningOptions o;
     colorDiags := colorDiags o;
     diagColumn := diagColumn o;
     diagLocation := diagLocation o;
     diagSourceLine := diagSourceLine o;
     diagOptionName := diagOptionName o;
     diagIncludeStack := diagIncludeStack o;
     diagMacroExpansion := diagMacroExpansion o;
     diagHierarchy := diagHierarchy o;
     errorLimit := errorLimit o;
     suppressWarningsPaths := suppressWarningsPaths o;
     suppressMacroWarningsPaths := suppressMacroWarningsPaths o;
     singleUnit := singleUnit o;
     libraryFiles := libraryFiles o |}.

Definition set_excludeExts (ex : gset string) (o : t) : t :=
  assign ex (allowUseBeforeDeclare o) (ignoreUnknownModules o)
         (relaxEnumConversions o) (allowHierarchicalConst o) o.

Definition set_allowUseBeforeDeclare (v : option bool) (o : t) : t :=
  assign (excludeExts o) v (ignoreUnknownModules o)
         (relaxEnumConversions o) (allowHierarchicalConst o) o.

Definition set_ignoreUnknownModules (v : option bool) (o : t) : t :=
  assign (excludeExts o) (allowUseBeforeDeclare o) v
         (relaxEnumConversions o) (allowHierarchicalConst o) o.

Definition set_relaxEnumConversions (v : option bool) (o : t) : t :=
  assign (excludeExts o) (allowUseBeforeDeclare o) (ignoreUnknownModules o)
         v (allowHierarchicalConst o) o.

Definition set_allowHierarchicalConst (v : option bool) (o : t) : t :=
  assign (excludeExts o) (allowUseBeforeDeclare o) (ignoreUnknownModules o)
         (relaxEnumConversions o) v o.

(** A default-constructed [Options]: nothing given on the command line. *)
Definition empty : t :=
  {| includeDirs := []; includeSystemDirs := []; libDirs := []; libExts := [];
     excludeExts := ∅; defines := []; undefines := [];
     maxIncludeDepth := None; librariesInheritMacros := None;
     ignoreDirectives := []; maxParseDepth := None; maxLexerErrors := None;
     numThreads := None; maxInstanceDepth := None; maxGenerateSteps := None;
     maxConstexprDepth := None; maxConstexprSteps := None;
     maxConstexprBacktrace := None; maxInstanceArray := None;
     compat := None; minTypMax := None; timeScale := None;
     allowUseBeforeDeclare := None; ignoreUnknownModules := None;
     relaxEnumConversions := None; allowHierarchicalConst := None;
     allowDupInitialDrivers := None; strictDriverChecking := None;
     onlyLint := None; topModules := []; paramOverrides := [];
     warningOptions := []; colorDiags := None; diagColumn := None;
     diagLocation := None; diagSourceLine := None; diagOptionName := None;
     diagIncludeStack := None; diagMacroExpansion := None;
     diagHierarchy := None; errorLimit := None;
     suppressWarningsPaths := []; suppressMacroWarningsPaths := [];
     singleUnit := None; libraryFiles := [] |}.
End Options.

(** ** The option bag handed to the preprocessor, parser and compilation *)

Inductive MinTypMaxSel := Min | Typ | Max.

Module SourceOptions.
Record t := {
  numThreads : option Z;
  singleUnit : bool;
  onlyLint : bool;
  librariesInheritMacros : bool
}.
End SourceOptions.

Module PreprocessorOptions.
Record t := {
  predefines : list string;
  undefines : list string;
  predefineSource : string;
  maxIncludeDepth : Z;
  ignoreDirectives : gset string
}.
End PreprocessorOptions.

Module LexerOptions.
Record t := { maxErrors : Z }.
End LexerOptions.

Module ParserOptions.
Record t := { maxRecursionDepth : Z }.
End ParserOptions.

Module CompilationOptions.
Record t {TimeScale : Type} := {
  maxInstanceDepth : Z;
  maxGenerateSteps : Z;
  maxConstexprDepth : Z;
  maxConstexprSteps : Z;
  maxConstexprBacktrace : Z;
  maxInstanceArray : Z;
  errorLimit : Z;
  suppressUnused : bool;
  scriptMode : bool;
  lintMode : bool;
  allowHierarchicalConst : bool;
  allowDupInitialDrivers : bool;
  relaxEnumConversions : bool;
  strictDriverChecking : bool;
  ignoreUnknownModules : bool;
  allowUseBeforeDeclare : bool;
  topModules : gset string;
  paramOverrides : list string;
  minTypMax : MinTypMaxSel;
  defaultTimeScale : option TimeScale
}.
Arguments t : clear implicits.
End CompilationOptions.

Record Bag {TimeScale : Type} := {
  bag_source : SourceOptions.t;
  bag_preprocessor : PreprocessorOptions.t;
  bag_lexer : LexerOptions.t;
  bag_parser : ParserOptions.t;
  bag_compilation : CompilationOptions.t TimeScale
}.
Arguments Bag : clear implicits.

(** ** Diagnostics *)

(** The diagnostic codes the driver names, and all the others. *)
Module diag.
Inductive DiagCode :=
| DuplicateDefinition | BadProceduralForce
| StaticInitializerMustBeExplicit | ImplicitConvert | BadFinishNum
| NonstandardSysFunc | NonstandardForeach | NonstandardDist
| IndexOOB | RangeOOB | RangeWidthOOB | ImplicitNamedPortTypeMismatch
| SplitDistWeightOp
| Other (n : nat).

Definition to_nat (c : DiagCode) : nat :=
  match c with
  | DuplicateDefinition => 0 | BadProceduralForce => 1
  | StaticInitializerMustBeExplicit => 2 | ImplicitConvert => 3
  | BadFinishNum => 4 | NonstandardSysFunc => 5 | NonstandardForeach => 6
  | NonstandardDist => 7 | IndexOOB => 8 | RangeOOB => 9
  | RangeWidthOOB => 10 | ImplicitNamedPortTypeMismatch => 11
  | SplitDistWeightOp => 12
  | Other n => 13 + n
  end.

Definition of_nat (n : nat) : DiagCode :=
  match n with
  | 0 => DuplicateDefinition | 1 => BadProceduralForce
  | 2 => StaticInitializerMustBeExplicit | 3 => ImplicitConvert
  | 4 => BadFinishNum | 5 => NonstandardSysFunc | 6 => NonstandardForeach
  | 7 => NonstandardDist | 8 => IndexOOB | 9 => RangeOOB
  | 10 => RangeWidthOOB | 11 => ImplicitNamedPortTypeMismatch
  | 12 => SplitDistWeightOp
  | S (S (S (S (S (S (S (S (S (S (S (S (S k)))))))))))) => Other k
  end.

Definition of_to_nat (c : DiagCode) : of_nat (to_nat c) = c :=
  match c with
  | Other n => eq_refl
  | _ => eq_refl
  end.
End diag.
Export diag.

#[global] Instance DiagCode_eq_dec : EqDecision DiagCode.
Proof. solve_decision. Defined.

#[global] Instance DiagCode_countable : Countable DiagCode :=
  inj_countable' diag.to_nat diag.of_nat diag.of_to_nat.

Inductive DiagnosticSeverity := Ignored | Note | Warning | Error | Fatal.

Record Diagnostic := { code : DiagCode; isError : bool }.

Abbreviation Diagnostics := (list Diagnostic) (only parsing).
Abbreviation SeverityTable := (gmap DiagCode DiagnosticSeverity) (only parsing).

(** Modelled from the spec: DiagnosticEngine is declared outside the given
    sources.  It holds the severity table, a mapping from diagnostic code to
    severity that [setSeverity] overrides entry by entry, the error limit,
    the paths registered for suppression, and the diagnostics issued to
    it. *)
Module DiagnosticEngine.
Record t := {
  errorLimit : Z;
  severityTable : gmap DiagCode DiagnosticSeverity;
  ignorePaths : list string;
  ignoreMacroPaths : list string;
  issued : list Diagnostic
}.

Definition with_table (tbl : gmap DiagCode DiagnosticSeverity) (e : t) : t :=
  {| errorLimit := errorLimit e; severityTable := tbl;
     ignorePaths := ignorePaths e; ignoreMacroPaths := ignoreMacroPaths e;
     issued := issued e |}.

Definition setErrorLimit (limit : Z) (e : t) : t :=
  {| errorLimit := limit; severityTable := severityTable e;
     ignorePaths := ignorePaths e; ignoreMacroPaths := ignoreMacroPaths e;
     issued := issued e |}.

(** [setSeverity(code, severity)] overrides one entry of the table. *)
Definition setSeverity (c : DiagCode) (s : DiagnosticSeverity) (e : t) : t :=
  with_table (<[c := s]> (severityTable e)) e.

Definition addIgnorePath (p : string) (e : t) : t :=
  {| errorLimit := errorLimit e; severityTable := severityTable e;
     ignorePaths := ignorePaths e ++ [p];
     ignoreMacroPaths := ignoreMacroPaths e;
     issued := issued e |}.

Definition addIgnoreMacroPath (p : string) (e : t) : t :=
  {| errorLimit := errorLimit e; severityTable := severityTable e;
     ignorePaths := ignorePaths e;
     ignoreMacroPaths := ignoreMacroPaths e ++ [p];
     issued := issued e |}.

Definition issue (d : Diagnostic) (e : t) : t :=
  {| errorLimit := errorLimit e; severityTable := severityTable e;
     ignorePaths := ignorePaths e; ignoreMacroPaths := ignoreMacroPaths e;
     issued := issued e ++ [d] |}.
End DiagnosticEngine.

(** The display flags of the text client, all true by default. *)
Module TextDiagnosticClient.
Record t := {
  showColors : bool;
  showColumn : bool;
  showLocation : bool;
  showSourceLine : bool;
  showOptionName : bool;
  showIncludeStack : bool;
  showMacroExpansion : bool;
  showHierarchyInstance : bool
}.
End TextDiagnosticClient.

(** ** Source manager and source loader *)

(** Modelled from the spec: SourceManager is declared outside the given
    sources; the driver only registers include directories with it. *)
Module SourceManager.
Record t := {
  userDirectories : list string;
  systemDirectories : list string
}.
End SourceManager.

(** The files and patterns recorded with the source loader, library files
    among them, and its search directories and extensions. *)
Module SourceLoader.
Record FileEntry := {
  pattern : string;
  isLibraryFile : bool;
  libraryName : string
}.

Record t := {
  fileEntries : list FileEntry;
  searchDirectories : list string;
  searchExtensions : list string
}.

(** Modelled from the spec: SourceLoader::addFiles is declared outside the
    given sources; it records a pattern or explicit path, expanded at load
    time. *)
Definition addFiles (pat : string) (l : t) : t :=
  {| fileEntries := fileEntries l ++
       [{| pattern := pat; isLibraryFile := false; libraryName := EmptyString |}];
     searchDirectories := searchDirectories l;
     searchExtensions := searchExtensions l |}.

(** Modelled from the spec: SourceLoader::addLibraryFiles registers files
    as belonging to a named library. *)
Definition addLibraryFiles (libName : string) (pat : string) (l : t) : t :=
  {| fileEntries := fileEntries l ++
       [{| pattern := pat; isLibraryFile := true; libraryName := libName |}];
     searchDirectories := searchDirectories l;
     searchExtensions := searchExtensions l |}.

(** Modelled from the spec: SourceLoader::addSearchDirectories and
    addSearchExtensions extend the lists used to locate missing modules. *)
Definition addSearchDirectories (dirs : list string) (l : t) : t :=
  {| fileEntries := fileEntries l;
     searchDirectories := searchDirectories l ++ dirs;
     searchExtensions := searchExtensions l |}.

Definition addSearchExtensions (exts : list string) (l : t) : t :=
  {| fileEntries := fileEntries l;
     searchDirectories := searchDirectories l;
     searchExtensions := searchExtensions l ++ exts |}.

(** Modelled from the spec: SourceLoader::hasFiles tells whether any file
    or pattern has been recorded. *)
Definition hasFiles (l : t) : bool :=
  match fileEntries l with [] => false | _ :: _ => true end.

Definition empty : t :=
  {| fileEntries := []; searchDirectories := []; searchExtensions := [] |}.
End SourceLoader.

(** ** The driver object together with the process state it acts on *)

Record Driver := {
  options : Options.t;
  cmdLineErrors : list string;
  diagEngine : DiagnosticEngine.t;
  diagClient : TextDiagnosticClient.t;
  sourceManager : SourceManager.t;
  sourceLoader : SourceLoader.t;
  anyFailedLoads : bool;
  os : OS.t
}.

Definition with_options (o : Options.t) (d : Driver) : Driver :=
  {| options := o; cmdLineErrors := cmdLineErrors d;
     diagEngine := diagEngine d; diagClient := diagClient d;
     sourceManager := sourceManager d; sourceLoader := sourceLoader d;
     anyFailedLoads := anyFailedLoads d; os := os d |}.

Definition with_cmdLineErrors (e : list string) (d : Driver) : Driver :=
  {| options := options d; cmdLineErrors := e;
     diagEngine := diagEngine d; diagClient := diagClient d;
     sourceManager := sourceManager d; sourceLoader := sourceLoader d;
     anyFailedLoads := anyFailedLoads d; os := os d |}.

Definition with_diagEngine (e : DiagnosticEngine.t) (d : Driver) : Driver :=
  {| options := options d; cmdLineErrors := cmdLineErrors d;
     diagEngine := e; diagClient := diagClient d;
     sourceManager := sourceManager d; sourceLoader := sourceLoader d;
     anyFailedLoads := anyFailedLoads d; os := os d |}.

Definition with_diagClient (c : TextDiagnosticClient.t) (d : Driver) : Driver :=
  {| options := options d; cmdLineErrors := cmdLineErrors d;
     diagEngine := diagEngine d; diagClient := c;
     sourceManager := sourceManager d; sourceLoader := sourceLoader d;
     anyFailedLoads := anyFailedLoads d; os := os d |}.

Definition with_sourceManager (m : SourceManager.t) (d : Driver) : Driver :=
  {| options := options d; cmdLineErrors := cmdLineErrors d;
     diagEngine := diagEngine d; diagClient := diagClient d;
     sourceManager := m; sourceLoader := sourceLoader d;
     anyFailedLoads := anyFailedLoads d; os := os d |}.

Definition with_sourceLoader (l : SourceLoader.t) (d : Driver) : Driver :=
  {| options := options d; cmdLineErrors := cmdLineErrors d;
     diagEngine := diagEngine d; diagClient := diagClient d;
     sourceManager := sourceManager d; sourceLoader := l;
     anyFailedLoads := anyFailedLoads d; os := os d |}.

Definition with_anyFailedLoads (b : bool) (d : Driver) : Driver :=
  {| options := options d; cmdLineErrors := cmdLineErrors d;
     diagEngine := diagEngine d; diagClient := diagClient d;
     sourceManager := sourceManager d; sourceLoader := sourceLoader d;
     anyFailedLoads := b; os := os d |}.

Definition with_os (o : OS.t) (d : Driver) : Driver :=
  {| options := options d; cmdLineErrors := cmdLineErrors d;
     diagEngine := diagEngine d; diagClient := diagClient d;
     sourceManager := sourceManager d; sourceLoader := sourceLoader d;
     anyFailedLoads := anyFailedLoads d; os := o |}.

(** [Driver::printError]: three writes to the error stream. *)
Definition printError (message : string) (d : Driver) : Driver :=
  with_os (OS.printE (plain nl)
            (OS.printE (plain message)
              (OS.printE (fg errorColor "error: ") (os d)))) d.

(** [Driver::printWarning]. *)
Definition printWarning (message : string) (d : Driver) : Driver :=
  with_os (OS.printE (plain nl)
            (OS.printE (plain message)
              (OS.printE (fg warningColor "warning: ") (os d)))) d.

(** [Driver::onLoadError]: the callback the source loader invokes. *)
Definition onLoadError (message : string) (d : Driver) : Driver :=
  with_anyFailedLoads true (printError message d).

(** The chunks [printError] leaves on the error stream. *)
Definition errorChunks (message : string) : list Chunk :=
  [fg errorColor "error: "; plain message; plain nl].

(** ** Early return *)

(** A member function either falls through to its next statement or returns
    a result at once. *)
Inductive Flow :=
| Continue (d : Driver)
| Return (result : bool) (d : Driver).

Notation "'step' d <- e ; k" :=
  (match e with
   | Continue d => k
   | Return b d' => (b, d')
   end)
  (at level 10, d name, e at level 100, k at level 200, only parsing).

(** ** Option validation and the option bag *)

Section OptionValidation.

(** [OS::fileSupportsColors]: what the terminal says about a stream. *)
Variable fileSupportsColors : Stream -> bool.

(** The file system: which paths are directories, and [fs::canonical]
    resolved from a working directory ([None] when it sets the error
    code). *)
Variable isDirectory : Path -> bool.
Variable canonical : Path -> string -> option Path.

(** [TimeScale] and [TimeScale::fromString]. *)
Variable TimeScale : Type.
Variable TimeScale_fromString : string -> option TimeScale.

(** [DiagnosticEngine::setDefaultWarnings] and
    [DiagnosticEngine::setWarningOptions], as they act on the severity
    table; the second also returns the diagnostics about the options
    themselves. *)
Variable defaultWarnings : SeverityTable -> SeverityTable.
Variable warningOptionsTable :
  list string -> SeverityTable -> Diagnostics * SeverityTable.

(** The default-constructed option structs. *)
Variable default_ppoptions : PreprocessorOptions.t.
Variable default_loptions : LexerOptions.t.
Variable default_poptions : ParserOptions.t.
Variable default_coptions : CompilationOptions.t TimeScale.

Definition setDefaultWarnings (e : DiagnosticEngine.t) : DiagnosticEngine.t :=
  DiagnosticEngine.with_table (defaultWarnings (DiagnosticEngine.severityTable e)) e.

Definition setWarningOptions (opts : list string) (e : DiagnosticEngine.t)
  : Diagnostics * DiagnosticEngine.t :=
  let '(diags, tbl) := warningOptionsTable opts (DiagnosticEngine.severityTable e) in
  (diags, DiagnosticEngine.with_table tbl e).

(** Modelled from the spec: SourceManager::addUserDirectory and
    addSystemDirectory are declared outside the given sources; both return
    false, and register nothing, if the directory does not exist. *)
Definition addUserDirectory (dir : string) (m : SourceManager.t)
  : bool * SourceManager.t :=
  if isDirectory dir then
    (true, {| SourceManager.userDirectories := SourceManager.userDirectories m ++ [dir];
              SourceManager.systemDirectories := SourceManager.systemDirectories m |})
  else (false, m).

Definition addSystemDirectory (dir : string) (m : SourceManager.t)
  : bool * SourceManager.t :=
  if isDirectory dir then
    (true, {| SourceManager.userDirectories := SourceManager.userDirectories m;
              SourceManager.systemDirectories := SourceManager.systemDirectories m ++ [dir] |})
  else (false, m).

(** The severity overrides of [processOptions], in source order. *)
Definition setSeverities (l : list DiagCode) (s : DiagnosticSeverity) (d : Driver) : Driver :=
  foldl (fun d c => with_diagEngine (DiagnosticEngine.setSeverity c s (diagEngine d)) d) d l.

Definition vcsIgnores : list DiagCode :=
  [StaticInitializerMustBeExplicit; ImplicitConvert; BadFinishNum;
   NonstandardSysFunc; NonstandardForeach; NonstandardDist].

Definition defaultPromotions : list DiagCode :=
  [IndexOOB; RangeOOB; RangeWidthOOB; ImplicitNamedPortTypeMismatch;
   SplitDistWeightOp].

(** [Driver::processOptions]. *)
Definition processOptions (d : Driver) : bool * Driver :=
  let showColors :=
    match Options.colorDiags (options d) with
    | Some b => b
    | None => fileSupportsColors stderr
    end in
  let d :=
    if showColors then
      let d := with_os (OS.setStderrColorsEnabled true (os d)) d in
      if fileSupportsColors stdout
      then with_os (OS.setStdoutColorsEnabled true (os d)) d
      else d
    else d in
  step d <-
    match Options.compat (options d) with
    | Some v =>
        if String.eqb v "vcs" then
          let o := options d in
          let o := if negb (has_value (Options.allowHierarchicalConst o))
                   then Options.set_allowHierarchicalConst (Some true) o else o in
          let o := if negb (has_value (Options.allowUseBeforeDeclare o))
                   then Options.set_allowUseBeforeDeclare (Some true) o else o in
          let o := if negb (has_value (Options.relaxEnumConversions o))
                   then Options.set_relaxEnumConversions (Some true) o else o in
          Continue (with_options o d)
        else
          Return false
            (printError (format1 "invalid value for compat option: '" v "'") d)
    | None => Continue d
    end;
  step d <-
    match Options.minTypMax (options d) with
    | Some v =>
        if negb (String.eqb v "min") && negb (String.eqb v "typ")
           && negb (String.eqb v "max")
        then Return false
               (printError (format1 "invalid value for timing option: '" v "'") d)
        else Continue d
    | None => Continue d
    end;
  step d <-
    if is_true (Options.librariesInheritMacros (options d))
       && negb (value_or (Options.singleUnit (options d)) false)
    then Return false
           (printError
              "--single-unit must be set when --libraries-inherit-macros is used" d)
    else Continue d;
  step d <-
    match Options.timeScale (options d) with
    | Some v =>
        match TimeScale_fromString v with
        | None =>
            Return false
              (printError (format1 "invalid value for time scale option: '" v "'") d)
        | Some _ => Continue d
        end
    | None => Continue d
    end;
  let d :=
    if is_true (Options.onlyLint (options d))
       && negb (has_value (Options.ignoreUnknownModules (options d)))
    then with_options (Options.set_ignoreUnknownModules (Some true) (options d)) d
    else d in
  let d :=
    foldl (fun d dir =>
             let '(ok, m) := addUserDirectory dir (sourceManager d) in
             let d := with_sourceManager m d in
             if negb ok
             then printWarning (format1 "include directory '" dir "' does not exist") d
             else d)
          d (Options.includeDirs (options d)) in
  let d :=
    foldl (fun d dir =>
             let '(ok, m) := addSystemDirectory dir (sourceManager d) in
             let d := with_sourceManager m d in
             if negb ok
             then printWarning (format1 "include directory '" dir "' does not exist") d
             else d)
          d (Options.includeSystemDirs (options d)) in
  let d :=
    foldl (fun d str =>
             with_sourceLoader
               (SourceLoader.addLibraryFiles EmptyString str (sourceLoader d)) d)
          d (Options.libraryFiles (options d)) in
  let d := with_sourceLoader
             (SourceLoader.addSearchDirectories (Options.libDirs (options d))
                (sourceLoader d)) d in
  let d := with_sourceLoader
             (SourceLoader.addSearchExtensions (Options.libExts (options d))
                (sourceLoader d)) d in
  step d <- if anyFailedLoads d then Return false d else Continue d;
  step d <-
    if negb (SourceLoader.hasFiles (sourceLoader d))
    then Return false (printError "no input files" d)
    else Continue d;
  let o := options d in
  let d := with_diagClient
             {| TextDiagnosticClient.showColors := showColors;
                TextDiagnosticClient.showColumn := value_or (Options.diagColumn o) true;
                TextDiagnosticClient.showLocation := value_or (Options.diagLocation o) true;
                TextDiagnosticClient.showSourceLine := value_or (Options.diagSourceLine o) true;
                TextDiagnosticClient.showOptionName := value_or (Options.diagOptionName o) true;
                TextDiagnosticClient.showIncludeStack := value_or (Options.diagIncludeStack o) true;
                TextDiagnosticClient.showMacroExpansion := value_or (Options.diagMacroExpansion o) true;
                TextDiagnosticClient.showHierarchyInstance := value_or (Options.diagHierarchy o) true |}
             d in
  let d := with_diagEngine
             (DiagnosticEngine.setErrorLimit
                (to_int (value_or (Options.errorLimit o) 20%Z)) (diagEngine d)) d in
  let d := with_diagEngine (setDefaultWarnings (diagEngine d)) d in
  let d := setSeverities [DuplicateDefinition; BadProceduralForce] Error d in
  let d :=
    if opt_is (Options.compat o) "vcs"
    then setSeverities vcsIgnores Ignored d
    else setSeverities defaultPromotions Error d in
  let d :=
    foldl (fun d pathStr =>
             match canonical (OS.current_path (os d)) pathStr with
             | Some path =>
                 if negb (path_empty path)
                 then with_diagEngine
                        (DiagnosticEngine.addIgnorePath path (diagEngine d)) d
                 else d
             | None => d
             end)
          d (Options.suppressWarningsPaths o) in
  let d :=
    foldl (fun d pathStr =>
             match canonical (OS.current_path (os d)) pathStr with
             | Some path =>
                 if negb (path_empty path)
                 then with_diagEngine
                        (DiagnosticEngine.addIgnoreMacroPath path (diagEngine d)) d
                 else d
             | None => d
             end)
          d (Options.suppressMacroWarningsPaths o) in
  let '(optionDiags, e) := setWarningOptions (Options.warningOptions o) (diagEngine d) in
  let d := with_diagEngine e d in
  let d := foldl (fun d dg =>
                    with_diagEngine (DiagnosticEngine.issue dg (diagEngine d)) d)
                 d optionDiags in
  (true, d).

(** *** The statements of [processOptions], block by block

    The same statements, cut where the function can return: the colour
    set-up, the four validations, the registration of search paths, the two
    checks on the inputs, and the configuration of the diagnostics. *)

Definition afterColors (d : Driver) : Driver :=
  let showColors :=
    match Options.colorDiags (options d) with
    | Some b => b
    | None => fileSupportsColors stderr
    end in
  if showColors then
    let d := with_os (OS.setStderrColorsEnabled true (os d)) d in
    if fileSupportsColors stdout
    then with_os (OS.setStdoutColorsEnabled true (os d)) d
    else d
  else d.

Definition applyCompat (d : Driver) : Flow :=
  match Options.compat (options d) with
  | Some v =>
      if String.eqb v "vcs" then
        let o := options d in
        let o := if negb (has_value (Options.allowHierarchicalConst o))
                 then Options.set_allowHierarchicalConst (Some true) o else o in
        let o := if negb (has_value (Options.allowUseBeforeDeclare o))
                 then Options.set_allowUseBeforeDeclare (Some true) o else o in
        let o := if negb (has_value (Options.relaxEnumConversions o))
                 then Options.set_relaxEnumConversions (Some true) o else o in
        Continue (with_options o d)
      else
        Return false
          (printError (format1 "invalid value for compat option: '" v "'") d)
  | None => Continue d
  end.

Definition checkTiming (d : Driver) : Flow :=
  match Options.minTypMax (options d) with
  | Some v =>
      if negb (String.eqb v "min") && negb (String.eqb v "typ")
         && negb (String.eqb v "max")
      then Return false
             (printError (format1 "invalid value for timing option: '" v "'") d)
      else Continue d
  | None => Continue d
  end.

Definition checkSingleUnit (d : Driver) : Flow :=
  if is_true (Options.librariesInheritMacros (options d))
     && negb (value_or (Options.singleUnit (options d)) false)
  then Return false
         (printError
            "--single-unit must be set when --libraries-inherit-macros is used" d)
  else Continue d.

Definition checkTimeScale (d : Driver) : Flow :=
  match Options.timeScale (options d) with
  | Some v =>
      match TimeScale_fromString v with
      | None =>
          Return false
            (printError (format1 "invalid value for time scale option: '" v "'") d)
      | Some _ => Continue d
      end
  | None => Continue d
  end.

Definition registerPaths (d : Driver) : Driver :=
  let d :=
    if is_true (Options.onlyLint (options d))
       && negb (has_value (Options.ignoreUnknownModules (options d)))
    then with_options (Options.set_ignoreUnknownModules (Some true) (options d)) d
    else d in
  let d :=
    foldl (fun d dir =>
             let '(ok, m) := addUserDirectory dir (sourceManager d) in
             let d := with_sourceManager m d in
             if negb ok
             then printWarning (format1 "include directory '" dir "' does not exist") d
             else d)
          d (Options.includeDirs (options d)) in
  let d :=
    foldl (fun d dir =>
             let '(ok, m) := addSystemDirectory dir (sourceManager d) in
             let d := with_sourceManager m d in
             if negb ok
             then printWarning (format1 "include directory '" dir "' does not exist") d
             else d)
          d (Options.includeSystemDirs (options d)) in
  let d :=
    foldl (fun d str =>
             with_sourceLoader
               (SourceLoader.addLibraryFiles EmptyString str (sourceLoader d)) d)
          d (Options.libraryFiles (options d)) in
  let d := with_sourceLoader
             (SourceLoader.addSearchDirectories (Options.libDirs (options d))
                (sourceLoader d)) d in
  with_sourceLoader
    (SourceLoader.addSearchExtensions (Options.libExts (options d))
       (sourceLoader d)) d.

Definition checkInputs (d : Driver) : Flow :=
  if anyFailedLoads d then Return false d
  else if negb (SourceLoader.hasFiles (sourceLoader d))
       then Return false (printError "no input files" d)
       else Continue d.

Definition beforeWarningOptions (showColors : bool) (d : Driver) : Driver :=
  let o := options d in
  let d := with_diagClient
             {| TextDiagnosticClient.showColors := showColors;
                TextDiagnosticClient.showColumn := value_or (Options.diagColumn o) true;
                TextDiagnosticClient.showLocation := value_or (Options.diagLocation o) true;
                TextDiagnosticClient.showSourceLine := value_or (Options.diagSourceLine o) true;
                TextDiagnosticClient.showOptionName := value_or (Options.diagOptionName o) true;
                TextDiagnosticClient.showIncludeStack := value_or (Options.diagIncludeStack o) true;
                TextDiagnosticClient.showMacroExpansion := value_or (Options.diagMacroExpansion o) true;
                TextDiagnosticClient.showHierarchyInstance := value_or (Options.diagHierarchy o) true |}
             d in
  let d := with_diagEngine
             (DiagnosticEngine.setErrorLimit
                (to_int (value_or (Options.errorLimit o) 20%Z)) (diagEngine d)) d in
  let d := with_diagEngine (setDefaultWarnings (diagEngine d)) d in
  let d := setSeverities [DuplicateDefinition; BadProceduralForce] Error d in
  let d :=
    if opt_is (Options.compat o) "vcs"
    then setSeverities vcsIgnores Ignored d
    else setSeverities defaultPromotions Error d in
  let d :=
    foldl (fun d pathStr =>
             match canonical (OS.current_path (os d)) pathStr with
             | Some path =>
                 if negb (path_empty path)
                 then with_diagEngine
                        (DiagnosticEngine.addIgnorePath path (diagEngine d)) d
                 else d
             | None => d
             end)
          d (Options.suppressWarningsPaths o) in
  foldl (fun d pathStr =>
           match canonical (OS.current_path (os d)) pathStr with
           | Some path =>
               if negb (path_empty path)
               then with_diagEngine
                      (DiagnosticEngine.addIgnoreMacroPath path (diagEngine d)) d
               else d
           | None => d
           end)
        d (Options.suppressMacroWarningsPaths o).

Definition configureDiagnostics (showColors : bool) (d : Driver) : Driver :=
  let d0 := beforeWarningOptions showColors d in
  let '(optionDiags, e) :=
    setWarningOptions (Options.warningOptions (options d)) (diagEngine d0) in
  foldl (fun d dg =>
           with_diagEngine (DiagnosticEngine.issue dg (diagEngine d)) d)
        (with_diagEngine e d0) optionDiags.

(** The options after the [vcs] profile has filled in what was not given. *)
Definition vcsDefaults (o : Options.t) : Options.t :=
  Options.assign (Options.excludeExts o)
    (Some (value_or (Options.allowUseBeforeDeclare o) true))
    (Options.ignoreUnknownModules o)
    (Some (value_or (Options.relaxEnumConversions o) true))
    (Some (value_or (Options.allowHierarchicalConst o) true)) o.

(** [showColors] as [processOptions] computes it. *)
Definition showColorsOf (d : Driver) : bool :=
  match Options.colorDiags (options d) with
  | Some b => b
  | None => fileSupportsColors stderr
  end.

Definition processOptions_blocks (d : Driver) : bool * Driver :=
  step d1 <- applyCompat (afterColors d);
  step d2 <- checkTiming d1;
  step d3 <- checkSingleUnit d2;
  step d4 <- checkTimeScale d3;
  step d5 <- checkInputs (registerPaths d4);
  (true, configureDiagnostics (showColorsOf d) d5).

(** *** The severity table as the specification composes it

    [setDefaultWarnings], then the two mandatory overrides, then the
    overrides of the compatibility profile or the default promotions, then
    the user's [-W] options. *)

Definition overrideAll (l : list DiagCode) (s : DiagnosticSeverity)
    (tbl : SeverityTable) : SeverityTable :=
  foldl (fun t c => <[c := s]> t) tbl l.

Definition severityOverrides (vcs : bool) (tbl : SeverityTable) : SeverityTable :=
  let tbl := overrideAll [DuplicateDefinition; BadProceduralForce] Error tbl in
  if vcs then overrideAll vcsIgnores Ignored tbl
  else overrideAll defaultPromotions Error tbl.

Definition expectedSeverities (vcs : bool) (W : list string) (M : SeverityTable)
  : SeverityTable :=
  snd (warningOptionsTable W (severityOverrides vcs (defaultWarnings M))).

(** [Driver::createOptionBag]. *)
Definition createOptionBag (d : Driver) : Bag TimeScale :=
  let o := options d in
  let soptions :=
    {| SourceOptions.numThreads := Options.numThreads o;
       SourceOptions.singleUnit := is_true (Options.singleUnit o);
       SourceOptions.onlyLint := is_true (Options.onlyLint o);
       SourceOptions.librariesInheritMacros :=
         is_true (Options.librariesInheritMacros o) |} in
  let ppoptions :=
    {| PreprocessorOptions.predefines := Options.defines o;
       PreprocessorOptions.undefines := Options.undefines o;
       PreprocessorOptions.predefineSource := "<command-line>";
       PreprocessorOptions.maxIncludeDepth :=
         value_or (Options.maxIncludeDepth o)
                  (PreprocessorOptions.maxIncludeDepth default_ppoptions);
       PreprocessorOptions.ignoreDirectives :=
         foldl (fun s x => {[x]} ∪ s)
               (PreprocessorOptions.ignoreDirectives default_ppoptions)
               (Options.ignoreDirectives o) |} in
  let loptions :=
    {| LexerOptions.maxErrors :=
         value_or (Options.maxLexerErrors o)
                  (LexerOptions.maxErrors default_loptions) |} in
  let poptions :=
    {| ParserOptions.maxRecursionDepth :=
         value_or (Options.maxParseDepth o)
                  (ParserOptions.maxRecursionDepth default_poptions) |} in
  let c0 := default_coptions in
  let coptions :=
    {| CompilationOptions.maxInstanceDepth :=
         value_or (Options.maxInstanceDepth o) (CompilationOptions.maxInstanceDepth c0);
       CompilationOptions.maxGenerateSteps :=
         value_or (Options.maxGenerateSteps o) (CompilationOptions.maxGenerateSteps c0);
       CompilationOptions.maxConstexprDepth :=
         value_or (Options.maxConstexprDepth o) (CompilationOptions.maxConstexprDepth c0);
       CompilationOptions.maxConstexprSteps :=
         value_or (Options.maxConstexprSteps o) (CompilationOptions.maxConstexprSteps c0);
       CompilationOptions.maxConstexprBacktrace :=
         value_or (Options.maxConstexprBacktrace o)
                  (CompilationOptions.maxConstexprBacktrace c0);
       CompilationOptions.maxInstanceArray :=
         value_or (Options.maxInstanceArray o) (CompilationOptions.maxInstanceArray c0);
       CompilationOptions.errorLimit :=
         match Options.errorLimit o with
         | Some n => wrap32 (n * 2)
         | None => CompilationOptions.errorLimit c0
         end;
       CompilationOptions.suppressUnused := is_true (Options.onlyLint o);
       CompilationOptions.scriptMode := false;
       CompilationOptions.lintMode :=
         if is_true (Options.onlyLint o) then true
         else CompilationOptions.lintMode c0;
       CompilationOptions.allowHierarchicalConst :=
         if is_true (Options.allowHierarchicalConst o) then true
         else CompilationOptions.allowHierarchicalConst c0;
       CompilationOptions.allowDupInitialDrivers :=
         if is_true (Options.allowDupInitialDrivers o) then true
         else CompilationOptions.allowDupInitialDrivers c0;
       CompilationOptions.relaxEnumConversions :=
         if is_true (Options.relaxEnumConversions o) then true
         else CompilationOptions.relaxEnumConversions c0;
       CompilationOptions.strictDriverChecking :=
         if is_true (Options.strictDriverChecking o) then true
         else CompilationOptions.strictDriverChecking c0;
       CompilationOptions.ignoreUnknownModules :=
         if is_true (Options.ignoreUnknownModules o) then true
         else CompilationOptions.ignoreUnknownModules c0;
       CompilationOptions.allowUseBeforeDeclare :=
         if is_true (Options.allowUseBeforeDeclare o) then true
         else CompilationOptions.allowUseBeforeDeclare c0;
       CompilationOptions.topModules :=
         foldl (fun s x => {[x]} ∪ s) (CompilationOptions.topModules c0)
               (Options.topModules o);
       CompilationOptions.paramOverrides :=
         CompilationOptions.paramOverrides c0 ++ Options.paramOverrides o;
       CompilationOptions.minTypMax :=
         match Options.minTypMax o with
         | Some v =>
             if String.eqb v "min" then Min
             else if String.eqb v "typ" then Typ
             else if String.eqb v "max" then Max
             else CompilationOptions.minTypMax c0
         | None => CompilationOptions.minTypMax c0
         end;
       CompilationOptions.defaultTimeScale :=
         match Options.timeScale o with
         | Some v => TimeScale_fromString v
         | None => CompilationOptions.defaultTimeScale c0
         end |} in
  {| bag_source := soptions;
     bag_preprocessor := ppoptions;
     bag_lexer := loptions;
     bag_parser := poptions;
     bag_compilation := coptions |}.

(** *** Vocabulary for the properties of [processOptions] *)

(** A chunk that is not the message about missing input files. *)
Definition notNoInput (c : Chunk) : Prop := c <> plain "no input files".

(** The entry [addLibraryFiles] records for a [-v] file. *)
Definition libraryEntry (f : string) : SourceLoader.FileEntry :=
  {| SourceLoader.pattern := f; SourceLoader.isLibraryFile := true;
     SourceLoader.libraryName := EmptyString |}.

(** The options after [--lint-only] has filled in [ignore-unknown-modules]. *)
Definition lintDefault (o : Options.t) : Options.t :=
  if is_true (Options.onlyLint o) && negb (has_value (Options.ignoreUnknownModules o))
  then Options.set_ignoreUnknownModules (Some true) o
  else o.

(** What the registration of the search paths leaves alone: [d'] differs
    from [d] in the source manager and the source loader, and in warnings
    added to the error stream. *)
Record registered (d d' : Driver) : Prop := {
  reg_options : options d' = options d;
  reg_engine : diagEngine d' = diagEngine d;
  reg_failed : anyFailedLoads d' = anyFailedLoads d;
  reg_errors : cmdLineErrors d' = cmdLineErrors d;
  reg_out : OS.out (os d') = OS.out (os d);
  reg_cwd : OS.current_path (os d') = OS.current_path (os d);
  reg_err : exists pre, OS.err (os d') = OS.err (os d) ++ pre /\ Forall notNoInput pre
}.

(** The four validations of [processOptions], passed. *)
Definition compatOk (o : Options.t) : Prop :=
  Options.compat o = None \/ Options.compat o = Some "vcs".

Definition timingOk (o : Options.t) : Prop :=
  Options.minTypMax o = None \/ Options.minTypMax o = Some "min" \/
  Options.minTypMax o = Some "typ" \/ Options.minTypMax o = Some "max".

Definition singleUnitOk (o : Options.t) : Prop :=
  is_true (Options.librariesInheritMacros o) = false \/
  value_or (Options.singleUnit o) false = true.

Definition timeScaleOk (o : Options.t) : Prop :=
  Options.timeScale o = None \/
  exists v, Options.timeScale o = Some v /\ TimeScale_fromString v <> None.

(** [d1] is [d] after the colour set-up and the compatibility profile. *)
Definition profiled (d d1 : Driver) : Prop :=
  (Options.compat (options d) = None /\ d1 = afterColors d) \/
  (Options.compat (options d) = Some "vcs" /\
   d1 = with_options (vcsDefaults (options d)) (afterColors d)).

(** The seven ways [processOptions] can end on [d], one for each [return]
    of the function, each with the conditions under which it is taken. *)
Inductive outcome (d : Driver) : bool * Driver -> Prop :=
| ends_compat (v : string) :
    Options.compat (options d) = Some v -> v <> "vcs" ->
    outcome d (false,
               printError (format1 "invalid value for compat option: '" v "'")
                          (afterColors d))
| ends_timing (d1 : Driver) (v : string) :
    profiled d d1 ->
    Options.minTypMax (options d) = Some v ->
    v <> "min" -> v <> "typ" -> v <> "max" ->
    outcome d (false,
               printError (format1 "invalid value for timing option: '" v "'") d1)
| ends_singleUnit (d1 : Driver) :
    profiled d d1 -> timingOk (options d) ->
    is_true (Options.librariesInheritMacros (options d)) = true ->
    value_or (Options.singleUnit (options d)) false = false ->
    outcome d (false,
               printError
                 "--single-unit must be set when --libraries-inherit-macros is used" d1)
| ends_timeScale (d1 : Driver) (v : string) :
    profiled d d1 -> timingOk (options d) -> singleUnitOk (options d) ->
    Options.timeScale (options d) = Some v -> TimeScale_fromString v = None ->
    outcome d (false,
               printError (format1 "invalid value for time scale option: '" v "'") d1)
| ends_failedLoads (d1 : Driver) :
    profiled d d1 -> timingOk (options d) -> singleUnitOk (options d) ->
    timeScaleOk (options d) ->
    anyFailedLoads d = true ->
    outcome d (false, registerPaths d1)
| ends_noInput (d1 : Driver) :
    profiled d d1 -> timingOk (options d) -> singleUnitOk (options d) ->
    timeScaleOk (options d) ->
    anyFailedLoads d = false ->
    SourceLoader.hasFiles (sourceLoader (registerPaths d1)) = false ->
    outcome d (false, printError "no input files" (registerPaths d1))
| ends_ok (d1 : Driver) :
    profiled d d1 -> timingOk (options d) -> singleUnitOk (options d) ->
    timeScaleOk (options d) ->
    anyFailedLoads d = false ->
    SourceLoader.hasFiles (sourceLoader (registerPaths d1)) = true ->
    outcome d (true,
               configureDiagnostics
                 (showColorsOf d) (registerPaths d1)).

(** [d'] differs from [d] in the diagnostic engine and client only. *)
Record diagnosticsOnly (d d' : Driver) : Prop := {
  diag_options : options d' = options d;
  diag_loader : sourceLoader d' = sourceLoader d;
  diag_manager : sourceManager d' = sourceManager d;
  diag_os : os d' = os d;
  diag_failed : anyFailedLoads d' = anyFailedLoads d;
  diag_errors : cmdLineErrors d' = cmdLineErrors d
}.

End OptionValidation.

Arguments afterColors : simpl never.
Arguments registerPaths : simpl never.
Arguments beforeWarningOptions : simpl never.
Arguments configureDiagnostics : simpl never.

(** ** Command line and command files *)

Module CommandLine.
Record ParseOptions := {
  expandEnvVars : bool;
  ignoreProgramName : bool;
  supportComments : bool;
  ignoreDuplicates : bool
}.

(** What the parser does with one argument, in the order it meets them:
    it stores a value through the reference an option was registered with,
    calls the callback of [--exclude-ext], of the positional arguments, of
    [-f] and [-F], or records an error of its own. *)
Inductive Event :=
| Bound (store : Options.t -> Options.t)
| ExcludeExt (value : string)
| Positional (filePattern : string)
| CommandFile (fileName : string) (makeRelative : bool)
| ParseError (message : string).
End CommandLine.

Section CommandFiles.

(** The file system. [readFile] yields the bytes of the file followed by
    the terminating sentinel. *)
Variable canonical : Path -> string -> option Path.
Variable readFile : Path -> option string.
Variable parent_path : Path -> Path.
Variable isDirectory : Path -> bool.

(** The tokenizer and option lookup of [CommandLine::parse]. *)
Variable tokenize : CommandLine.ParseOptions -> string -> list CommandLine.Event.
Variable default_parseOpts : CommandLine.ParseOptions.

(** [fs::current_path(p, ec)]: on failure only the error code is set. *)
Definition set_current_path (p : Path) (o : OS.t) : OS.t :=
  if isDirectory p then OS.set_current_path_raw p o else o.

(** [std::vector<char>::pop_back]. *)
Fixpoint pop_back (s : string) : string :=
  match s with
  | EmptyString => EmptyString
  | String a EmptyString => EmptyString
  | String a r => String a (pop_back r)
  end.

(** The callback of [--exclude-ext]. *)
Definition onExcludeExt (value : string) (d : Driver) : Driver :=
  with_options
    (Options.set_excludeExts ({[value]} ∪ Options.excludeExts (options d)) (options d)) d.

(** The callback of the positional arguments. *)
Definition onPositional (filePattern : string) (d : Driver) : Driver :=
  let excluded :=
    if negb (bool_decide (Options.excludeExts (options d) = ∅)) then
      match find_last_of "." filePattern with
      | Some extIndex =>
          bool_decide (substr (extIndex + 1) filePattern ∈ Options.excludeExts (options d))
      | None => false
      end
    else false in
  if excluded then d
  else with_sourceLoader (SourceLoader.addFiles filePattern (sourceLoader d)) d.

(** The callbacks of [-f] and [-F], given [processCommandFile]. *)
Definition onCommandFile
    (pcf : string -> bool -> Driver -> option (bool * Driver))
    (fileName : string) (makeRelative : bool) (d : Driver) : option Driver :=
  match pcf fileName makeRelative d with
  | None => None
  | Some (ok, d) => Some (if negb ok then with_anyFailedLoads true d else d)
  end.

Fixpoint runEvents
    (pcf : string -> bool -> Driver -> option (bool * Driver))
    (evs : list CommandLine.Event) (d : Driver) : option Driver :=
  match evs with
  | [] => Some d
  | ev :: evs =>
      match
        match ev with
        | CommandLine.Bound store => Some (with_options (store (options d)) d)
        | CommandLine.ExcludeExt value => Some (onExcludeExt value d)
        | CommandLine.Positional filePattern => Some (onPositional filePattern d)
        | CommandLine.CommandFile fileName makeRelative =>
            onCommandFile pcf fileName makeRelative d
        | CommandLine.ParseError message =>
            Some (with_cmdLineErrors (cmdLineErrors d ++ [message]) d)
        end
      with
      | None => None
      | Some d => runEvents pcf evs d
      end
  end.

(** Modelled from the spec: CommandLine::parse is declared outside the
    given sources; it handles the arguments in order, accumulates errors in
    its error list and succeeds when that list is empty. *)
Definition cmdLine_parse
    (pcf : string -> bool -> Driver -> option (bool * Driver))
    (argStr : string) (parseOpts : CommandLine.ParseOptions) (d : Driver)
  : option (bool * Driver) :=
  match runEvents pcf (tokenize parseOpts argStr) d with
  | None => None
  | Some d => Some (match cmdLineErrors d with [] => true | _ => false end, d)
  end.

(** The loop printing [cmdLine.getErrors()]. *)
Definition printCmdLineErrors (d : Driver) : Driver :=
  foldl (fun d err => with_os (OS.printE (plain (err +:+ nl)) (os d)) d)
        d (cmdLineErrors d).

(** [Driver::processCommandFile].  A command file may name further command
    files, so the recursion is bounded by [fuel]; [None] means the call did
    not return within that depth, or stopped on the assertion. *)
Fixpoint processCommandFile (fuel : nat) (fileName : string) (makeRelative : bool)
    (d : Driver) : option (bool * Driver) :=
  match fuel with
  | 0 => None
  | S fuel =>
      match
        match canonical (OS.current_path (os d)) fileName with
        | Some path =>
            match readFile path with
            | Some buffer => Some (path, buffer)
            | None => None
            end
        | None => None
        end
      with
      | None =>
          Some (false,
                printError (format1 "unable to find or open file: '" fileName "'") d)
      | Some (path, buffer) =>
          let currPath :=
            if makeRelative then OS.current_path (os d) else EmptyString in
          let d :=
            if makeRelative
            then with_os (set_current_path (parent_path path) (os d)) d
            else d in
          let parseOpts :=
            {| CommandLine.expandEnvVars := true;
               CommandLine.ignoreProgramName := true;
               CommandLine.supportComments := true;
               CommandLine.ignoreDuplicates := true |} in
          match buffer with
          | EmptyString => None
          | _ =>
              let argStr := pop_back buffer in
              match cmdLine_parse (processCommandFile fuel) argStr parseOpts d with
              | None => None
              | Some (result, d) =>
                  let d :=
                    if makeRelative
                    then with_os (set_current_path currPath (os d)) d
                    else d in
                  if negb result
                  then Some (false, printCmdLineErrors d)
                  else Some (true, d)
              end
          end
      end
  end.

(** [Driver::parseCommandLine]. *)
Definition parseCommandLine (fuel : nat) (argList : string) (d : Driver)
  : option (bool * Driver) :=
  match cmdLine_parse (processCommandFile fuel) argList default_parseOpts d with
  | None => None
  | Some (ok, d) =>
      if negb ok then Some (false, printCmdLineErrors d)
      else Some (negb (anyFailedLoads d), d)
  end.

End CommandFiles.

(** ** Tokens and the syntax printer *)

Module TokenKind.
(** The token kinds the driver and the vector-digit test tell apart, and
    all the others. *)
Inductive t :=
| Identifier | IntegerBase | IntegerLiteral | RealLiteral | Question
| EndOfFile
| Other (n : nat).
End TokenKind.

#[global] Instance TokenKind_eq_dec : EqDecision TokenKind.t.
Proof. solve_decision. Defined.

Record Token := {
  kind : TokenKind.t;
  trivia : string;
  rawText : string
}.

(** [Token::withRawText]: the same token with another spelling. *)
Definition withRawText (t : Token) (newText : string) : Token :=
  {| kind := kind t; trivia := trivia t; rawText := newText |}.

(** The end-of-file sentinel the preprocessor keeps returning once its
    sources are used up. *)
Definition eofToken : Token :=
  {| kind := TokenKind.EndOfFile; trivia := EmptyString; rawText := EmptyString |}.

(** Modelled from the spec: SyntaxPrinter is declared outside the given
    sources; it accumulates the tokens printed to it and [str] renders
    them. *)
Module SyntaxPrinter.
Record t := {
  includeComments : bool;
  includeDirectives : bool;
  printed : list Token
}.

Definition print (tok : Token) (p : t) : t :=
  {| includeComments := includeComments p;
     includeDirectives := includeDirectives p;
     printed := printed p ++ [tok] |}.
End SyntaxPrinter.

(** ** Preprocess-only mode *)

(** The glyphs of [generateRandomAlphanumericString]. *)
Definition chars : string :=
  "0123456789ABCDEFGHIJKLMNOPQRSTUVWXYZabcdefghijklmnopqrstuvwxyz".

Definition isGlyph (c : ascii) : bool :=
  existsb (Ascii.eqb c) (String.list_ascii_of_string chars).

(** A string of exactly sixteen glyphs. *)
Definition alphanumeric16 (s : string) : bool :=
  Nat.eqb (String.length s) 16 && forallb isGlyph (String.list_ascii_of_string s).

(** [SyntaxPrinter::print] for several tokens in a row. *)
Definition printAll (l : list Token) (p : SyntaxPrinter.t) : SyntaxPrinter.t :=
  {| SyntaxPrinter.includeComments := SyntaxPrinter.includeComments p;
     SyntaxPrinter.includeDirectives := SyntaxPrinter.includeDirectives p;
     SyntaxPrinter.printed := SyntaxPrinter.printed p ++ l |}.

Section RandomStrings.

(** A random number generator and [getUniformIntDist(gen, lo, hi)]. *)
Variable TGenerator : Type.
Variable getUniformIntDist : TGenerator -> nat -> nat -> nat * TGenerator.

(** [std::ranges::generate_n] with the glyph-drawing lambda. *)
Fixpoint generate_n (n : nat) (gen : TGenerator) : string * TGenerator :=
  match n with
  | 0 => (EmptyString, gen)
  | S n =>
      let '(i, gen) := getUniformIntDist gen 0 (String.length chars - 1) in
      let c := match String.get i chars with Some c => c | None => Ascii.zero end in
      let '(rest, gen) := generate_n n gen in
      (String c rest, gen)
  end.

(** [generateRandomAlphanumericString]. *)
Definition generateRandomAlphanumericString (gen : TGenerator) (len : nat)
  : string * TGenerator :=
  generate_n len gen.

End RandomStrings.

Section Preprocessing.

Variable TimeScale : Type.
Variable TimeScale_fromString : string -> option TimeScale.
Variable default_ppoptions : PreprocessorOptions.t.
Variable default_loptions : LexerOptions.t.
Variable default_poptions : ParserOptions.t.
Variable default_coptions : CompilationOptions.t TimeScale.
Variable SourceBuffer : Type.

(** [SourceLoader::loadSources]: the buffers, and the messages of the load
    errors it reports through the callback. *)
Variable loadSources : SourceLoader.t -> list SourceBuffer * list string.

(** The preprocessor over a stack of pushed sources (last pushed first):
    the tokens [next()] returns in turn, and the diagnostics it adds to its
    sink while doing so. *)
Variable preprocess :
  Bag TimeScale -> SourceManager.t -> list SourceBuffer -> list Token * Diagnostics.

(** [Token::valueText], [SyntaxFacts::isPossibleVectorDigit],
    [SyntaxPrinter::str] and [DiagnosticEngine::reportAll]. *)
Variable valueText : Token -> string.
Variable isPossibleVectorDigit : TokenKind.t -> bool.
Variable str : SyntaxPrinter.t -> string.
Variable reportAll : SourceManager.t -> Diagnostics -> string.

(** [std::mt19937], its default-constructed state, and
    [getUniformIntDist]. *)
Variable mt19937 : Type.
Variable mt19937_default : mt19937.
Variable getUniformIntDist : mt19937 -> nat -> nat -> nat * mt19937.

(** [Preprocessor::pushSource]. *)
Definition pushSource (b : SourceBuffer) (stack : list SourceBuffer) : list SourceBuffer :=
  b :: stack.

(** [Preprocessor::next] on the tokens still to come. *)
Definition next (ts : list Token) : Token * list Token :=
  match ts with
  | [] => (eofToken, [])
  | t :: r => (t, r)
  end.

(** The [do ... while] loop printing an integer base and the digits that
    follow it; it hands back the first token that is not a digit. *)
Fixpoint vectorDigits (fuel : nat) (token : Token) (ts : list Token)
    (output : SyntaxPrinter.t) : option (Token * list Token * SyntaxPrinter.t) :=
  match fuel with
  | 0 => None
  | S fuel =>
      let output := SyntaxPrinter.print token output in
      let '(token, ts) := next ts in
      if isPossibleVectorDigit (kind token)
      then vectorDigits fuel token ts output
      else Some (token, ts, output)
  end.

(** The body of [if (obfuscateIds && token.kind == TokenKind::Identifier)];
    dereferencing an empty [rng] does not return. *)
Definition obfuscate (token : Token) (rng : option mt19937)
    (obfuscationMap : gmap string string)
  : option (Token * option mt19937 * gmap string string) :=
  let name := valueText token in
  match obfuscationMap !! name with
  | Some translation => Some (withRawText token translation, rng, obfuscationMap)
  | None =>
      match rng with
      | None => None
      | Some gen =>
          let '(newName, gen) :=
            generateRandomAlphanumericString mt19937 getUniformIntDist gen 16 in
          Some (withRawText token newName, Some gen, <[name := newName]> obfuscationMap)
      end
  end.

(** The [while (true)] loop of [runPreprocessor]; [fuel] bounds the number
    of iterations. *)
Fixpoint tokenLoop (fuel : nat) (obfuscateIds : bool) (ts : list Token)
    (output : SyntaxPrinter.t) (rng : option mt19937)
    (obfuscationMap : gmap string string)
  : option (SyntaxPrinter.t * option mt19937 * gmap string string) :=
  match fuel with
  | 0 => None
  | S fuel =>
      let '(token, ts) := next ts in
      match
        if bool_decide (kind token = TokenKind.IntegerBase)
        then vectorDigits fuel token ts output
        else Some (token, ts, output)
      with
      | None => None
      | Some (token, ts, output) =>
          match
            if obfuscateIds && bool_decide (kind token = TokenKind.Identifier)
            then obfuscate token rng obfuscationMap
            else Some (token, rng, obfuscationMap)
          with
          | None => None
          | Some (token, rng, obfuscationMap) =>
              let output := SyntaxPrinter.print token output in
              if bool_decide (kind token = TokenKind.EndOfFile)
              then Some (output, rng, obfuscationMap)
              else tokenLoop fuel obfuscateIds ts output rng obfuscationMap
          end
      end
  end.

(** *** The printed stream, token by token

    Outside a digit run an identifier is printed with the spelling the
    obfuscation table [M] holds for it, and an integer base opens a digit
    run; inside a digit run possible vector digits are printed as they are,
    and the first other token closes the run and is handled as outside one,
    except that it opens no run.  Printing stops with the first end of
    file. *)

Definition rewriteToken (obfuscateIds : bool) (M : gmap string string) (t : Token)
  : option Token :=
  if obfuscateIds && bool_decide (kind t = TokenKind.Identifier)
  then withRawText t <$> M !! valueText t
  else Some t.

Fixpoint rewritten (obfuscateIds : bool) (M : gmap string string) (inRun : bool)
    (ts : list Token) : option (list Token) :=
  match ts with
  | [] => Some [eofToken]
  | t :: r =>
      if (inRun && isPossibleVectorDigit (kind t))
         || (negb inRun && bool_decide (kind t = TokenKind.IntegerBase))
      then cons t <$> rewritten obfuscateIds M true r
      else
        match rewriteToken obfuscateIds M t with
        | None => None
        | Some t' =>
            if bool_decide (kind t = TokenKind.EndOfFile) then Some [t']
            else cons t' <$> rewritten obfuscateIds M false r
        end
  end.

(** The longest prefix of possible vector digits, and what follows it. *)
Fixpoint digitRun (ts : list Token) : list Token * list Token :=
  match ts with
  | [] => ([], [])
  | t :: r =>
      if isPossibleVectorDigit (kind t)
      then let '(ds, rest) := digitRun r in (t :: ds, rest)
      else ([], ts)
  end.

(** The generator after [k] names have been drawn from it, and the [k]-th
    name. *)
Fixpoint nthGenerator (gen : mt19937) (k : nat) : mt19937 :=
  match k with
  | 0 => gen
  | S k =>
      snd (generateRandomAlphanumericString mt19937 getUniformIntDist
             (nthGenerator gen k) 16)
  end.

Definition nthName (gen : mt19937) (k : nat) : string :=
  fst (generateRandomAlphanumericString mt19937 getUniformIntDist
         (nthGenerator gen k) 16).

(** [Driver::runPreprocessor].  [entropy] is the generator that
    [createRandomGenerator] seeds from the system; [fuel] bounds the
    iterations of the token loop. *)
Definition runPreprocessor (fuel : nat) (entropy : mt19937)
    (includeComments includeDirectives obfuscateIds useFixedObfuscationSeed : bool)
    (d : Driver) : option (bool * Driver) :=
  let bag :=
    createOptionBag TimeScale TimeScale_fromString default_ppoptions
                    default_loptions default_poptions default_coptions d in
  let '(buffers, loadErrors) := loadSources (sourceLoader d) in
  let d := foldl (fun d message => onLoadError message d) d loadErrors in
  let stack := foldl (fun stack b => pushSource b stack) [] (rev buffers) in
  let '(tokens, diagnostics) := preprocess bag (sourceManager d) stack in
  let output :=
    {| SyntaxPrinter.includeComments := includeComments;
       SyntaxPrinter.includeDirectives := includeDirectives;
       SyntaxPrinter.printed := [] |} in
  let rng :=
    if obfuscateIds then
      if useFixedObfuscationSeed then Some mt19937_default else Some entropy
    else None in
  match tokenLoop fuel obfuscateIds tokens output rng ∅ with
  | None => None
  | Some (output, _, _) =>
      if existsb isError diagnostics
      then Some (false,
                 with_os (OS.printE (plain (reportAll (sourceManager d) diagnostics))
                                    (os d)) d)
      else Some (true,
                 with_os (OS.print (plain (str output +:+ nl)) (os d)) d)
  end.

(** *** Vocabulary for the properties of the token loop *)

(** One iteration of the token loop from the obfuscation test on, given the
    loop for the iterations that follow. *)
Definition iterationTail
    (loop : list Token -> SyntaxPrinter.t -> option mt19937 -> gmap string string ->
            option (SyntaxPrinter.t * option mt19937 * gmap string string))
    (obfuscateIds : bool) (token : Token) (ts : list Token)
    (output : SyntaxPrinter.t) (rng : option mt19937)
    (obfuscationMap : gmap string string) :=
  match
    if obfuscateIds && bool_decide (kind token = TokenKind.Identifier)
    then obfuscate token rng obfuscationMap
    else Some (token, rng, obfuscationMap)
  with
  | None => None
  | Some (token, rng, obfuscationMap) =>
      let output := SyntaxPrinter.print token output in
      if bool_decide (kind token = TokenKind.EndOfFile)
      then Some (output, rng, obfuscationMap)
      else loop ts output rng obfuscationMap
  end.

(** What is printed for a token handled outside a digit run and for the
    tokens after it. *)
Definition finished (obfuscateIds : bool) (M : gmap string string) (t : Token)
    (ts : list Token) : option (list Token) :=
  match rewriteToken obfuscateIds M t with
  | None => None
  | Some t' =>
      if bool_decide (kind t = TokenKind.EndOfFile) then Some [t']
      else cons t' <$> rewritten obfuscateIds M false ts
  end.

(** The result of running the loop, or one iteration of it, from the table
    [m]: the tokens [l] it prints, with the final table [M] extending [m],
    [spec M] describing [l], and the invariant [I] carried along. *)
Definition loopResult (I : gmap string string -> option mt19937 -> Prop)
    (obfuscateIds : bool) (spec : gmap string string -> option (list Token))
    (output : SyntaxPrinter.t) (m : gmap string string)
    (res : option (SyntaxPrinter.t * option mt19937 * gmap string string)) : Prop :=
  exists l rng' M,
    res = Some (printAll l output, rng', M) /\ m ⊆ M /\ spec M = Some l /\
    I M rng' /\ (obfuscateIds = true -> is_Some rng').

End Preprocessing.

(** ** A concrete tool run

    A small file system, command line, generator and token stream on which
    the functions above can be run. *)

Module Scenario.

Definition fileSupportsColors (s : Stream) : bool := false.

Definition sentinel : string := String Ascii.zero EmptyString.

(** Two command files under [/work/rtl]; the second holds an unknown
    option. *)
Definition files : list (string * string) :=
  [("/work/rtl/files.f", "top.v -F sub.f" +:+ sentinel);
   ("/work/rtl/sub.f", "--bogus" +:+ sentinel)].

Definition isDirectory (p : Path) : bool :=
  existsb (String.eqb p) ["/work"; "/work/rtl"].

Definition canonical (cwd : Path) (name : string) : option Path :=
  let p := cwd +:+ "/" +:+ name in
  if existsb (fun f => String.eqb p (fst f)) files then Some p else None.

Definition readFile (p : Path) : option string :=
  match List.find (fun f => String.eqb p (fst f)) files with
  | Some f => Some (snd f)
  | None => None
  end.

Definition parent_path (p : Path) : Path :=
  match find_last_of "/" p with
  | Some i => String.substring 0 i p
  | None => EmptyString
  end.

Definition tokenize (opts : CommandLine.ParseOptions) (s : string)
  : list CommandLine.Event :=
  if String.eqb s "top.v -F sub.f"
  then [CommandLine.Positional "top.v"; CommandLine.CommandFile "sub.f" true]
  else if String.eqb s "--bogus"
       then [CommandLine.ParseError "unknown command line argument '--bogus'"]
       else [].

Definition TimeScale : Type := string.

Definition TimeScale_fromString (s : string) : option TimeScale :=
  if String.eqb s "1ns/1ps" then Some s else None.

Definition defaultWarnings (tbl : SeverityTable) : SeverityTable := ∅.

(** [-Wno-duplicate-definition] turns that diagnostic off; nothing else is
    recognised here. *)
Definition warningOptionsTable (W : list string) (tbl : SeverityTable)
  : Diagnostics * SeverityTable :=
  ([], foldl (fun t w =>
                if String.eqb w "no-duplicate-definition"
                then <[DuplicateDefinition := Ignored]> t
                else t) tbl W).

(** The default-constructed option structs, with the values slang declares
    for them. *)
Definition default_ppoptions : PreprocessorOptions.t :=
  {| PreprocessorOptions.predefines := [];
     PreprocessorOptions.undefines := [];
     PreprocessorOptions.predefineSource := EmptyString;
     PreprocessorOptions.maxIncludeDepth := 1024;
     PreprocessorOptions.ignoreDirectives := ∅ |}.

Definition default_loptions : LexerOptions.t := {| LexerOptions.maxErrors := 16 |}.

Definition default_poptions : ParserOptions.t :=
  {| ParserOptions.maxRecursionDepth := 1024 |}.

Definition default_coptions : CompilationOptions.t TimeScale :=
  {| CompilationOptions.maxInstanceDepth := 128;
     CompilationOptions.maxGenerateSteps := 131072;
     CompilationOptions.maxConstexprDepth := 128;
     CompilationOptions.maxConstexprSteps := 100000;
     CompilationOptions.maxConstexprBacktrace := 10;
     CompilationOptions.maxInstanceArray := 65535;
     CompilationOptions.errorLimit := 64;
     CompilationOptions.suppressUnused := false;
     CompilationOptions.scriptMode := false;
     CompilationOptions.lintMode := false;
     CompilationOptions.allowHierarchicalConst := false;
     CompilationOptions.allowDupInitialDrivers := false;
     CompilationOptions.relaxEnumConversions := false;
     CompilationOptions.strictDriverChecking := false;
     CompilationOptions.ignoreUnknownModules := false;
     CompilationOptions.allowUseBeforeDeclare := false;
     CompilationOptions.topModules := ∅;
     CompilationOptions.paramOverrides := [];
     CompilationOptions.minTypMax := Typ;
     CompilationOptions.defaultTimeScale := None |}.

(** The options of an invocation that gives only these. *)
Definition given (compat minTypMax : option string)
    (librariesInheritMacros singleUnit : option bool) (errorLimit : option Z)
    (warningOptions libraryFiles : list string) (excludeExts : gset string)
  : Options.t :=
  {| Options.includeDirs := []; Options.includeSystemDirs := [];
     Options.libDirs := []; Options.libExts := [];
     Options.excludeExts := excludeExts;
     Options.defines := []; Options.undefines := [];
     Options.maxIncludeDepth := None;
     Options.librariesInheritMacros := librariesInheritMacros;
     Options.ignoreDirectives := []; Options.maxParseDepth := None;
     Options.maxLexerErrors := None; Options.numThreads := None;
     Options.maxInstanceDepth := None; Options.maxGenerateSteps := None;
     Options.maxConstexprDepth := None; Options.maxConstexprSteps := None;
     Options.maxConstexprBacktrace := None; Options.maxInstanceArray := None;
     Options.compat := compat; Options.minTypMax := minTypMax;
     Options.timeScale := None;
     Options.allowUseBeforeDeclare := None; Options.ignoreUnknownModules := None;
     Options.relaxEnumConversions := None; Options.allowHierarchicalConst := None;
     Options.allowDupInitialDrivers := None; Options.strictDriverChecking := None;
     Options.onlyLint := None; Options.topModules := [];
     Options.paramOverrides := [];
     Options.warningOptions := warningOptions;
     Options.colorDiags := None; Options.diagColumn := None;
     Options.diagLocation := None; Options.diagSourceLine := None;
     Options.diagOptionName := None; Options.diagIncludeStack := None;
     Options.diagMacroExpansion := None; Options.diagHierarchy := None;
     Options.errorLimit := errorLimit;
     Options.suppressWarningsPaths := []; Options.suppressMacroWarningsPaths := [];
     Options.singleUnit := singleUnit;
     Options.libraryFiles := libraryFiles |}.

(** A freshly constructed driver in [/work], after a command line that gave
    the options [o] and the positional files [patterns]. *)
Definition driver (o : Options.t) (patterns : list string) : Driver :=
  {| options := o;
     cmdLineErrors := [];
     diagEngine :=
       {| DiagnosticEngine.errorLimit := 0;
          DiagnosticEngine.severityTable := ∅;
          DiagnosticEngine.ignorePaths := [];
          DiagnosticEngine.ignoreMacroPaths := [];
          DiagnosticEngine.issued := [] |};
     diagClient :=
       {| TextDiagnosticClient.showColors := false;
          TextDiagnosticClient.showColumn := true;
          TextDiagnosticClient.showLocation := true;
          TextDiagnosticClient.showSourceLine := true;
          TextDiagnosticClient.showOptionName := true;
          TextDiagnosticClient.showIncludeStack := true;
          TextDiagnosticClient.showMacroExpansion := true;
          TextDiagnosticClient.showHierarchyInstance := true |};
     sourceManager :=
       {| SourceManager.userDirectories := [];
          SourceManager.systemDirectories := [] |};
     sourceLoader :=
       foldl (fun l pat => SourceLoader.addFiles pat l) SourceLoader.empty patterns;
     anyFailedLoads := false;
     os := {| OS.out := []; OS.err := [];
              OS.stdoutColorsEnabled := false; OS.stderrColorsEnabled := false;
              OS.current_path := "/work" |} |}.

Abbreviation run_processOptions :=
  (processOptions fileSupportsColors isDirectory canonical TimeScale
     TimeScale_fromString defaultWarnings warningOptionsTable).

Abbreviation run_processCommandFile :=
  (processCommandFile canonical readFile parent_path isDirectory tokenize).

(** [--compat vcs -Wno-duplicate-definition top.v]. *)
Definition vcs_run : Driver :=
  driver (given (Some "vcs") None None None None ["no-duplicate-definition"] [] ∅)
         ["top.v"].

(** [--compat foo --libraries-inherit-macros], no file. *)
Definition foo_run : Driver :=
  driver (given (Some "foo") None (Some true) None None [] [] ∅) [].

(** [--libraries-inherit-macros top.v]. *)
Definition inherit_run : Driver :=
  driver (given None None (Some true) None None [] [] ∅) ["top.v"].

(** No argument at all. *)
Definition bare_run : Driver :=
  driver (given None None None None None [] [] ∅) [].

(** [--error-limit 5 top.v] and [--error-limit 2147483648 top.v]. *)
Definition limit5_run : Driver :=
  driver (given None None None None (Some 5%Z) [] [] ∅) ["top.v"].

Definition limit_big_run : Driver :=
  driver (given None None None None (Some 2147483648%Z) [] [] ∅) ["top.v"].

(** [top.v], nothing else. *)
Definition plain_run : Driver :=
  driver (given None None None None None [] [] ∅) ["top.v"].

(** [--exclude-ext vh -v cells.vh]. *)
Definition exclude_run : Driver :=
  driver (given None None None None None [] ["cells.vh"] {["vh"]}) [].

(** Tokens and the preprocessor. *)
Definition isPossibleVectorDigit (k : TokenKind.t) : bool :=
  match k with
  | TokenKind.IntegerLiteral | TokenKind.Question | TokenKind.RealLiteral
  | TokenKind.Identifier => true
  | _ => false
  end.

Definition valueText (t : Token) : string := rawText t.

Definition tok (k : TokenKind.t) (spelling : string) : Token :=
  {| kind := k; trivia := " "; rawText := spelling |}.

(** [module m; wire x = 8'hFF; endmodule] and [assign y = s == 'b1 ? 'hFF : 'h00;]. *)
Definition module_m : list Token :=
  [tok (TokenKind.Other 0) "module"; tok TokenKind.Identifier "m";
   tok (TokenKind.Other 1) ";"; tok (TokenKind.Other 2) "wire";
   tok TokenKind.Identifier "x"; tok (TokenKind.Other 3) "=";
   tok TokenKind.IntegerLiteral "8"; tok TokenKind.IntegerBase "'h";
   tok TokenKind.Identifier "FF"; tok (TokenKind.Other 1) ";";
   tok (TokenKind.Other 4) "endmodule"].

Definition base_b : Token := tok TokenKind.IntegerBase "'b".
Definition base_h : Token := tok TokenKind.IntegerBase "'h".
Definition digit_1 : Token := tok TokenKind.IntegerLiteral "1".
Definition question : Token := tok TokenKind.Question "?".
Definition digits_FF : Token := tok TokenKind.Identifier "FF".

Definition SourceBuffer : Type := (list Token * Diagnostics)%type.

Definition loadSources (l : SourceLoader.t) : list SourceBuffer * list string :=
  (flat_map (fun e =>
               if String.eqb (SourceLoader.pattern e) "top.v"
               then [(module_m, [])]
               else if String.eqb (SourceLoader.pattern e) "bad.v"
                    then [([tok TokenKind.Identifier "m"],
                           [{| code := diag.Other 7; isError := true |}])]
                    else [])
            (SourceLoader.fileEntries l),
   flat_map (fun e =>
               if String.eqb (SourceLoader.pattern e) "top.v"
                  || String.eqb (SourceLoader.pattern e) "bad.v"
               then []
               else ["'" +:+ SourceLoader.pattern e +:+ "': no such file or directory"])
            (SourceLoader.fileEntries l)).

Definition preprocess (bag : Bag TimeScale) (m : SourceManager.t)
    (stack : list SourceBuffer) : list Token * Diagnostics :=
  (concat (map fst stack) ++ [eofToken], concat (map snd stack)).

Definition str (p : SyntaxPrinter.t) : string :=
  foldr (fun t acc => trivia t +:+ rawText t +:+ acc) EmptyString
        (SyntaxPrinter.printed p).

Definition reportAll (m : SourceManager.t) (ds : Diagnostics) : string :=
  "error: diagnostics".

(** A small linear congruential generator in place of [std::mt19937]. *)
Definition mt19937 : Type := N.

Definition mt19937_default : mt19937 := 5489%N.

Definition getUniformIntDist (gen : mt19937) (lo hi : nat) : nat * mt19937 :=
  (lo + N.to_nat (gen mod N.of_nat (hi - lo + 1)),
   ((gen * 1103515245 + 12345) mod 2147483648)%N).

Abbreviation run_tokenLoop :=
  (tokenLoop valueText isPossibleVectorDigit mt19937 getUniformIntDist).

Abbreviation run_runPreprocessor :=
  (runPreprocessor TimeScale TimeScale_fromString default_ppoptions default_loptions
     default_poptions default_coptions SourceBuffer loadSources preprocess valueText
     isPossibleVectorDigit str reportAll mt19937 mt19937_default getUniformIntDist).

Definition emptyPrinter : SyntaxPrinter.t :=
  {| SyntaxPrinter.includeComments := false;
     SyntaxPrinter.includeDirectives := false;
     SyntaxPrinter.printed := [] |}.

(** [bad.v], a file whose preprocessing reports an error. *)
Definition bad_run : Driver :=
  driver (given None None None None None [] [] ∅) ["bad.v"].

End Scenario.

(** ** Vocabulary for what option validation registers and configures *)

(** The chunks [printWarning] leaves on the error stream. *)
Definition warningChunks (message : string) : list Chunk :=
  [fg warningColor "warning: "; plain message; plain nl].

(** The error stream with some more chunks written to it. *)
Definition writtenE (cs : list Chunk) (o : OS.t) : OS.t :=
  {| OS.out := OS.out o; OS.err := OS.err o ++ cs;
     OS.stdoutColorsEnabled := OS.stdoutColorsEnabled o;
     OS.stderrColorsEnabled := OS.stderrColorsEnabled o;
     OS.current_path := OS.current_path o |}.

(** The output stream with some more chunks written to it. *)
Definition written (cs : list Chunk) (o : OS.t) : OS.t :=
  {| OS.out := OS.out o ++ cs; OS.err := OS.err o;
     OS.stdoutColorsEnabled := OS.stdoutColorsEnabled o;
     OS.stderrColorsEnabled := OS.stderrColorsEnabled o;
     OS.current_path := OS.current_path o |}.

(** The options once the compatibility profile and [--lint-only] have
    filled in what the command line left unset. *)
Definition profileDefaults (o : Options.t) : Options.t :=
  lintDefault (if opt_is (Options.compat o) "vcs" then vcsDefaults o else o).

Section Registration.

Variable isDirectory : Path -> bool.
Variable canonical : Path -> string -> option Path.

(** The directories of [dirs] that exist, and the warnings for those that
    do not. *)
Definition existingDirs (dirs : list string) : list string :=
  List.filter isDirectory dirs.

Definition missingDirWarnings (dirs : list string) : list Chunk :=
  concat (map (fun dir =>
                 warningChunks (format1 "include directory '" dir "' does not exist"))
              (List.filter (fun dir => negb (isDirectory dir)) dirs)).

(** The source loader once the library files, search directories and search
    extensions of the options [o] have been handed to it. *)
Definition registeredLoader (o : Options.t) (l : SourceLoader.t) : SourceLoader.t :=
  SourceLoader.addSearchExtensions (Options.libExts o)
    (SourceLoader.addSearchDirectories (Options.libDirs o)
       (foldl (fun l str => SourceLoader.addLibraryFiles EmptyString str l) l
              (Options.libraryFiles o))).

(** The source manager once the include directories of [o] have been
    offered to it. *)
Definition registeredManager (o : Options.t) (m : SourceManager.t) : SourceManager.t :=
  {| SourceManager.userDirectories :=
       SourceManager.userDirectories m ++ existingDirs (Options.includeDirs o);
     SourceManager.systemDirectories :=
       SourceManager.systemDirectories m ++ existingDirs (Options.includeSystemDirs o) |}.

(** The paths among [paths] that [fs::canonical] resolves from [cwd] to a
    path that is not empty. *)
Definition resolvedPaths (cwd : Path) (paths : list string) : list Path :=
  omap (fun pathStr =>
          match canonical cwd pathStr with
          | Some path => if negb (path_empty path) then Some path else None
          | None => None
          end) paths.

End Registration.

(** The display flags the options ask of the text client. *)
Definition clientFlags (showColors : bool) (o : Options.t) : TextDiagnosticClient.t :=
  {| TextDiagnosticClient.showColors := showColors;
     TextDiagnosticClient.showColumn := value_or (Options.diagColumn o) true;
     TextDiagnosticClient.showLocation := value_or (Options.diagLocation o) true;
     TextDiagnosticClient.showSourceLine := value_or (Options.diagSourceLine o) true;
     TextDiagnosticClient.showOptionName := value_or (Options.diagOptionName o) true;
     TextDiagnosticClient.showIncludeStack := value_or (Options.diagIncludeStack o) true;
     TextDiagnosticClient.showMacroExpansion :=
       value_or (Options.diagMacroExpansion o) true;
     TextDiagnosticClient.showHierarchyInstance :=
       value_or (Options.diagHierarchy o) true |}.

(** ** Vocabulary for the command line *)

(** An argument that is not [-f] or [-F]. *)
Definition notCommandFile (ev : CommandLine.Event) : bool :=
  match ev with
  | CommandLine.CommandFile _ _ => false
  | _ => true
  end.

(** The string holds the character. *)
Definition contains (c : ascii) (s : string) : bool :=
  existsb (Ascii.eqb c) (String.list_ascii_of_string s).

(** The lines the loop over [cmdLine.getErrors()] prints. *)
Definition errorLines (errors : list string) : list Chunk :=
  map (fun err => plain (err +:+ nl)) errors.

(** ** Vocabulary for the printed token stream *)

(** The tokens up to and including the first end of file; the preprocessor
    supplies the end of file itself when its tokens run out before. *)
Fixpoint upToEOF (ts : list Token) : list Token :=
  match ts with
  | [] => [eofToken]
  | t :: r =>
      if bool_decide (kind t = TokenKind.EndOfFile) then [t] else t :: upToEOF r
  end.

(** A token printed in the place of [t]: the same kind and trivia, and the
    very same token unless [t] is an identifier. *)
Definition sameLayout (t t' : Token) : Prop :=
  kind t' = kind t /\ trivia t' = trivia t /\
  (kind t <> TokenKind.Identifier -> t' = t).

(** ** Parsing, compiling and reporting *)

(** [fmt::format] of an [int]. *)
Definition format_int (n : Z) : string := NilZero.string_of_int (Z.to_int n).

(** Modelled from the spec: Compilation is declared outside the given
    sources; the driver binds the parsed syntax trees into it, in order,
    together with the option bag. *)
Module Compilation.
Record t {TimeScale SyntaxTree : Type} := {
  bag : Bag TimeScale;
  syntaxTrees : list SyntaxTree
}.
Arguments t : clear implicits.

Definition addSyntaxTree {TimeScale SyntaxTree : Type} (tree : SyntaxTree)
    (c : t TimeScale SyntaxTree) : t TimeScale SyntaxTree :=
  {| bag := bag c; syntaxTrees := syntaxTrees c ++ [tree] |}.
End Compilation.

Section Compiling.

Variable TimeScale : Type.
Variable TimeScale_fromString : string -> option TimeScale.
Variable default_ppoptions : PreprocessorOptions.t.
Variable default_loptions : LexerOptions.t.
Variable default_poptions : ParserOptions.t.
Variable default_coptions : CompilationOptions.t TimeScale.
Variable SyntaxTree : Type.

(** [SourceLoader::loadAndParseSources]: the syntax trees, and the messages
    of the load errors it reports through the callback. *)
Variable loadAndParseSources :
  SourceLoader.t -> Bag TimeScale -> list SyntaxTree * list string.

(** [DiagnosticEngine::setMappingsFromPragmas], as it acts on the severity
    table; it also returns the diagnostics about the pragmas themselves. *)
Variable mappingsFromPragmas :
  SourceManager.t -> SeverityTable -> Diagnostics * SeverityTable.

(** [Compilation::getParseDiagnostics], [Compilation::getAllDiagnostics] and
    the names of [getRoot().topInstances]. *)
Variable getParseDiagnostics : Compilation.t TimeScale SyntaxTree -> Diagnostics.
Variable getAllDiagnostics : Compilation.t TimeScale SyntaxTree -> Diagnostics.
Variable topInstances : Compilation.t TimeScale SyntaxTree -> list string.

(** [DiagnosticEngine::getNumErrors] and [getNumWarnings], and the text the
    client has rendered for the diagnostics issued so far
    ([TextDiagnosticClient::getString]). *)
Variable getNumErrors : DiagnosticEngine.t -> Z.
Variable getNumWarnings : DiagnosticEngine.t -> Z.
Variable getString : TextDiagnosticClient.t -> DiagnosticEngine.t -> string.

Definition setMappingsFromPragmas (m : SourceManager.t) (e : DiagnosticEngine.t)
  : Diagnostics * DiagnosticEngine.t :=
  let '(diags, tbl) := mappingsFromPragmas m (DiagnosticEngine.severityTable e) in
  (diags, DiagnosticEngine.with_table tbl e).

(** The loop [for (auto& diag : diags) diagEngine.issue(diag)]. *)
Definition issueAll (diags : Diagnostics) (d : Driver) : Driver :=
  foldl (fun d dg => with_diagEngine (DiagnosticEngine.issue dg (diagEngine d)) d)
        d diags.

(** [Driver::parseAllSources].  The member [syntaxTrees], which no function
    above reads, is passed next to the driver: the result holds its new
    value. *)
Definition parseAllSources (d : Driver) : bool * Driver * list SyntaxTree :=
  let '(syntaxTrees, loadErrors) :=
    loadAndParseSources (sourceLoader d)
      (createOptionBag TimeScale TimeScale_fromString default_ppoptions
         default_loptions default_poptions default_coptions d) in
  let d := foldl (fun d message => onLoadError message d) d loadErrors in
  if anyFailedLoads d then (false, d, syntaxTrees)
  else
    let '(pragmaDiags, e) := setMappingsFromPragmas (sourceManager d) (diagEngine d) in
    let d := with_diagEngine e d in
    let d := issueAll pragmaDiags d in
    (true, d, syntaxTrees).

(** [Driver::createCompilation]. *)
Definition createCompilation (d : Driver) (syntaxTrees : list SyntaxTree)
  : Compilation.t TimeScale SyntaxTree :=
  foldl (fun compilation tree => Compilation.addSyntaxTree tree compilation)
        {| Compilation.bag :=
             createOptionBag TimeScale TimeScale_fromString default_ppoptions
               default_loptions default_poptions default_coptions d;
           Compilation.syntaxTrees := [] |}
        syntaxTrees.

(** [Driver::reportParseDiags]. *)
Definition reportParseDiags (d : Driver) (syntaxTrees : list SyntaxTree)
  : bool * Driver :=
  let compilation := createCompilation d syntaxTrees in
  let d := issueAll (getParseDiagnostics compilation) d in
  let d := with_os (OS.printE (plain (getString (diagClient d) (diagEngine d)))
                              (os d)) d in
  ((getNumErrors (diagEngine d) =? 0)%Z, d).

(** [Driver::reportCompilation]. *)
Definition reportCompilation (compilation : Compilation.t TimeScale SyntaxTree)
    (quiet : bool) (d : Driver) : bool * Driver :=
  let d :=
    if negb quiet then
      let instances := topInstances compilation in
      match instances with
      | _ :: _ =>
          let d := with_os (OS.print (fg warningColor ("Top level design units:" +:+ nl))
                                     (os d)) d in
          let d := foldl (fun d inst =>
                            with_os (OS.print (plain (format1 "    " inst nl)) (os d)) d)
                         d instances in
          with_os (OS.print (plain nl) (os d)) d
      | [] => d
      end
    else d in
  let d := issueAll (getAllDiagnostics compilation) d in
  let succeeded := (getNumErrors (diagEngine d) =? 0)%Z in
  let diagStr := getString (diagClient d) (diagEngine d) in
  let d := with_os (OS.printE (plain diagStr) (os d)) d in
  let d :=
    if negb quiet then
      let d := if Nat.ltb 1 (String.length diagStr)
               then with_os (OS.print (plain nl) (os d)) d
               else d in
      let d := if succeeded
               then with_os (OS.print (fg highlightColor "Build succeeded: ") (os d)) d
               else with_os (OS.print (fg errorColor "Build failed: ") (os d)) d in
      with_os
        (OS.print
           (plain (format_int (getNumErrors (diagEngine d)) +:+ " error"
                   +:+ (if (getNumErrors (diagEngine d) =? 1)%Z then EmptyString else "s")
                   +:+ ", "
                   +:+ format_int (getNumWarnings (diagEngine d)) +:+ " warning"
                   +:+ (if (getNumWarnings (diagEngine d) =? 1)%Z then EmptyString else "s")
                   +:+ nl))
           (os d)) d
    else d in
  (succeeded, d).

(** *** Vocabulary for the report *)

(** The list of top-level design units as it is printed. *)
Definition instanceLines (instances : list string) : list Chunk :=
  match instances with
  | [] => []
  | _ :: _ =>
      fg warningColor ("Top level design units:" +:+ nl)
        :: map (fun inst => plain ("    " +:+ inst +:+ nl)) instances
        ++ [plain nl]
  end.

(** The verdict and the counts that end the report. *)
Definition verdict (errors : Z) : Chunk :=
  if (errors =? 0)%Z then fg highlightColor "Build succeeded: "
  else fg errorColor "Build failed: ".

Definition counted (n : Z) (what : string) : string :=
  format_int n +:+ " " +:+ what +:+ (if (n =? 1)%Z then EmptyString else "s").

Definition summary (errors warnings : Z) : Chunk :=
  plain (counted errors "error" +:+ ", " +:+ counted warnings "warning" +:+ nl).

End Compiling.

(** ** Reporting the macros *)

(** A macro definition as [reportMacros] reads it: the name, the formal
    arguments if the macro has any, and the tokens of the body. *)
Module DefineDirective.
Record t {MacroFormalArgumentList : Type} := {
  name : Token;
  formalArguments : option MacroFormalArgumentList;
  body : list Token
}.
Arguments t : clear implicits.
End DefineDirective.

(** Modelled from the spec: SyntaxPrinter is declared outside the given
    sources.  For [reportMacros] it prints tokens, a syntax node and literal
    text, and the trivia of what it prints is included or left out as
    [setIncludeTrivia] says at that moment; it holds what has been asked of
    it, piece by piece. *)
Module MacroPrinter.
Inductive Piece {Node : Type} :=
| OfToken (withTrivia : bool) (tok : Token)
| OfNode (withTrivia : bool) (node : Node)
| Literal (s : string).
Arguments Piece : clear implicits.

Record t {Node : Type} := {
  includeComments : bool;
  includeTrivia : bool;
  pieces : list (Piece Node)
}.
Arguments t : clear implicits.

(** A default-constructed printer. *)
Definition empty {Node : Type} : t Node :=
  {| includeComments := true; includeTrivia := true; pieces := [] |}.

Definition setIncludeComments {Node : Type} (b : bool) (p : t Node) : t Node :=
  {| includeComments := b; includeTrivia := includeTrivia p; pieces := pieces p |}.

Definition setIncludeTrivia {Node : Type} (b : bool) (p : t Node) : t Node :=
  {| includeComments := includeComments p; includeTrivia := b; pieces := pieces p |}.

Definition print {Node : Type} (tok : Token) (p : t Node) : t Node :=
  {| includeComments := includeComments p; includeTrivia := includeTrivia p;
     pieces := pieces p ++ [OfToken (includeTrivia p) tok] |}.

Definition printNode {Node : Type} (node : Node) (p : t Node) : t Node :=
  {| includeComments := includeComments p; includeTrivia := includeTrivia p;
     pieces := pieces p ++ [OfNode (includeTrivia p) node] |}.

Definition printTokens {Node : Type} (toks : list Token) (p : t Node) : t Node :=
  foldl (fun p tok => print tok p) p toks.

Definition append {Node : Type} (s : string) (p : t Node) : t Node :=
  {| includeComments := includeComments p; includeTrivia := includeTrivia p;
     pieces := pieces p ++ [Literal s] |}.
End MacroPrinter.

Section MacroReport.

Variable TimeScale : Type.
Variable TimeScale_fromString : string -> option TimeScale.
Variable default_ppoptions : PreprocessorOptions.t.
Variable default_loptions : LexerOptions.t.
Variable default_poptions : ParserOptions.t.
Variable default_coptions : CompilationOptions.t TimeScale.
Variable SourceBuffer : Type.
Variable loadSources : SourceLoader.t -> list SourceBuffer * list string.
Variable preprocess :
  Bag TimeScale -> SourceManager.t -> list SourceBuffer -> list Token * Diagnostics.

(** [Preprocessor::getDefinedMacros] once the tokens have been read through
    the end of file. *)
Variable MacroFormalArgumentList : Type.
Variable getDefinedMacros :
  Bag TimeScale -> SourceManager.t -> list SourceBuffer ->
  list (DefineDirective.t MacroFormalArgumentList).

(** [SyntaxPrinter::str]. *)
Variable printed_str : MacroPrinter.t MacroFormalArgumentList -> string.

(** The loop reading the tokens up to the end of file; [fuel] bounds the
    number of iterations. *)
Fixpoint drain (fuel : nat) (ts : list Token) : option (list Token) :=
  match fuel with
  | 0 => None
  | S fuel =>
      let '(token, ts) := next ts in
      if bool_decide (kind token = TokenKind.EndOfFile)
      then Some ts
      else drain fuel ts
  end.

(** The body of the loop over the defined macros, up to the call of
    [OS::print]. *)
Definition printMacro (macro : DefineDirective.t MacroFormalArgumentList)
  : MacroPrinter.t MacroFormalArgumentList :=
  let printer := MacroPrinter.empty in
  let printer := MacroPrinter.setIncludeComments false printer in
  let printer := MacroPrinter.setIncludeTrivia false printer in
  let printer := MacroPrinter.print (DefineDirective.name macro) printer in
  let printer := MacroPrinter.setIncludeTrivia true printer in
  let printer :=
    match DefineDirective.formalArguments macro with
    | Some args => MacroPrinter.printNode args printer
    | None => printer
    end in
  let printer :=
    match DefineDirective.body macro with
    | first :: _ =>
        if String.eqb (trivia first) EmptyString
        then MacroPrinter.append " " printer
        else printer
    | [] => printer
    end in
  MacroPrinter.printTokens (DefineDirective.body macro) printer.

(** [Driver::reportMacros]. *)
Definition reportMacros (fuel : nat) (d : Driver) : option Driver :=
  let bag :=
    createOptionBag TimeScale TimeScale_fromString default_ppoptions
                    default_loptions default_poptions default_coptions d in
  let '(buffers, loadErrors) := loadSources (sourceLoader d) in
  let d := foldl (fun d message => onLoadError message d) d loadErrors in
  let stack := foldl (fun stack b => pushSource SourceBuffer b stack) [] (rev buffers) in
  let '(tokens, diagnostics) := preprocess bag (sourceManager d) stack in
  match drain fuel tokens with
  | None => None
  | Some _ =>
      Some (foldl (fun d macro =>
                     with_os (OS.print (plain (printed_str (printMacro macro) +:+ nl))
                                       (os d)) d)
                  d (getDefinedMacros bag (sourceManager d) stack))
  end.

(** What the line of a macro is made of: the name without its trivia, the
    formal arguments, a blank if the body starts with a token that has no
    trivia of its own, and the body. *)
Definition macroPieces (macro : DefineDirective.t MacroFormalArgumentList)
  : list (MacroPrinter.Piece MacroFormalArgumentList) :=
  [MacroPrinter.OfToken false (DefineDirective.name macro)]
  ++ match DefineDirective.formalArguments macro with
     | Some args => [MacroPrinter.OfNode true args]
     | None => []
     end
  ++ match DefineDirective.body macro with
     | first :: _ =>
         if String.eqb (trivia first) EmptyString
         then [MacroPrinter.Literal " "] else []
     | [] => []
     end
  ++ map (MacroPrinter.OfToken true) (DefineDirective.body macro).

End MacroReport.

(** ** The diagnostic engine as option validation leaves it *)

Section Configuration.

Variable canonical : Path -> string -> option Path.
Variable defaultWarnings : SeverityTable -> SeverityTable.
Variable warningOptionsTable :
  list string -> SeverityTable -> Diagnostics * SeverityTable.

(** The engine [e] configured from the options [o] in the working directory
    [cwd]: the error limit, the severity table, the paths in which warnings
    are suppressed, and the diagnostics about the [-W] options issued. *)
Definition configuredEngine (cwd : Path) (o : Options.t) (e : DiagnosticEngine.t)
  : DiagnosticEngine.t :=
  let tbl := severityOverrides (opt_is (Options.compat o) "vcs")
               (defaultWarnings (DiagnosticEngine.severityTable e)) in
  {| DiagnosticEngine.errorLimit := to_int (value_or (Options.errorLimit o) 20%Z);
     DiagnosticEngine.severityTable :=
       snd (warningOptionsTable (Options.warningOptions o) tbl);
     DiagnosticEngine.ignorePaths :=
       DiagnosticEngine.ignorePaths e
         ++ resolvedPaths canonical cwd (Options.suppressWarningsPaths o);
     DiagnosticEngine.ignoreMacroPaths :=
       DiagnosticEngine.ignoreMacroPaths e
         ++ resolvedPaths canonical cwd (Options.suppressMacroWarningsPaths o);
     DiagnosticEngine.issued :=
       DiagnosticEngine.issued e
         ++ fst (warningOptionsTable (Options.warningOptions o) tbl) |}.

End Configuration.

(** ** The driver as a successful option validation leaves it *)

Section Validation.

Variable fileSupportsColors : Stream -> bool.
Variable isDirectory : Path -> bool.
Variable canonical : Path -> string -> option Path.
Variable defaultWarnings : SeverityTable -> SeverityTable.
Variable warningOptionsTable :
  list string -> SeverityTable -> Diagnostics * SeverityTable.

(** The process after the colour set-up and the warnings about the include
    directories that do not exist: colours are switched on for the error
    stream when diagnostics are to be shown in colour, and for the output
    stream when moreover it is a terminal that supports them. *)
Definition validatedOS (d : Driver) : OS.t :=
  let showColors := showColorsOf fileSupportsColors d in
  {| OS.out := OS.out (os d);
     OS.err := OS.err (os d)
                 ++ missingDirWarnings isDirectory (Options.includeDirs (options d))
                 ++ missingDirWarnings isDirectory (Options.includeSystemDirs (options d));
     OS.stdoutColorsEnabled :=
       (showColors && fileSupportsColors stdout) || OS.stdoutColorsEnabled (os d);
     OS.stderrColorsEnabled := showColors || OS.stderrColorsEnabled (os d);
     OS.current_path := OS.current_path (os d) |}.

Definition validated (d : Driver) : Driver :=
  {| options := profileDefaults (options d);
     cmdLineErrors := cmdLineErrors d;
     diagEngine :=
       configuredEngine canonical defaultWarnings warningOptionsTable
         (OS.current_path (os d)) (options d) (diagEngine d);
     diagClient := clientFlags (showColorsOf fileSupportsColors d) (options d);
     sourceManager := registeredManager isDirectory (options d) (sourceManager d);
     sourceLoader := registeredLoader (options d) (sourceLoader d);
     anyFailedLoads := anyFailedLoads d;
     os := validatedOS d |}.

End Validation.

(** ** What the parsing of a command line can do to the driver *)

(** [d'] is [d] with more recorded, nothing taken away: files and patterns
    are added after those of [d], text is added to the error stream and
    errors to the parser's list, the failed-loads flag may be raised; the
    output stream, the search paths of the source loader, the source manager
    and the diagnostics are those of [d].  (The options and the working
    directory are not constrained.) *)
Record extended (d d' : Driver) : Prop := {
  ext_files : SourceLoader.fileEntries (sourceLoader d)
                `prefix_of` SourceLoader.fileEntries (sourceLoader d');
  ext_dirs : SourceLoader.searchDirectories (sourceLoader d') =
               SourceLoader.searchDirectories (sourceLoader d);
  ext_exts : SourceLoader.searchExtensions (sourceLoader d') =
               SourceLoader.searchExtensions (sourceLoader d);
  ext_err : OS.err (os d) `prefix_of` OS.err (os d');
  ext_out : OS.out (os d') = OS.out (os d);
  ext_errors : cmdLineErrors d `prefix_of` cmdLineErrors d';
  ext_failed : anyFailedLoads d = true -> anyFailedLoads d' = true;
  ext_manager : sourceManager d' = sourceManager d;
  ext_engine : diagEngine d' = diagEngine d;
  ext_client : diagClient d' = diagClient d
}.

(** ** File paths ([Path.cpp])

    The member functions of [Path] that ask the file system, in the branch
    compiled on POSIX systems and in the one compiled for Windows.  A call
    that throws [std::runtime_error] yields [Throw] with the message. *)

Inductive Fallible (A : Type) :=
| Ok (a : A)
| Throw (what : string).
Arguments Ok {A} a.
Arguments Throw {A} what.

(** The character [34], which the messages quote file names with. *)
Definition quote : string := String (Ascii.ascii_of_nat 34) EmptyString.

(** [(size_t)] applied to a 64-bit signed value. *)
Definition to_size_t (z : Z) : Z := (z mod 2 ^ 64)%Z.

Module Posix.

(** The fields of [struct stat] that are read, the file-type bits of
    [st_mode] and the type of a directory entry, with the values of
    [<sys/stat.h>] and [<dirent.h>]. *)
Record stat_t := { st_mode : Z; st_size : Z }.

Definition S_IFMT : Z := 61440.   (* 0170000 *)
Definition S_IFDIR : Z := 16384.  (* 0040000 *)
Definition S_IFREG : Z := 32768.  (* 0100000 *)

Definition S_ISDIR (m : Z) : bool := (Z.land m S_IFMT =? S_IFDIR)%Z.
Definition S_ISREG (m : Z) : bool := (Z.land m S_IFMT =? S_IFREG)%Z.

Record dirent := { d_type : Z; d_name : string }.

Definition DT_REG : Z := 8.

Section FileSystem.

(** A path, its text ([Path::str]) and the path made from a text. *)
Variable PathT : Type.
Variable str : PathT -> string.
Variable ofString : string -> PathT.

(** [stat]: the record it fills in, [None] when it returns non-zero;
    [realpath], [getcwd] and [strerror(errno)] after they fail; and
    [opendir] followed by [readdir] up to the end of the directory. *)
Variable stat : string -> option stat_t.
Variable realpath : string -> string + string.
Variable getcwd : string + string.
Variable readdir : string -> option (list dirent).

(** [Path::exists]. *)
Definition exists_ (p : PathT) : bool :=
  match stat (str p) with
  | Some _ => true
  | None => false
  end.

(** [Path::fileSize]. *)
Definition fileSize (p : PathT) : Fallible Z :=
  match stat (str p) with
  | None =>
      Throw ("path::file_size(): cannot stat file " +:+ quote +:+ str p
             +:+ quote +:+ "!")
  | Some sb => Ok (to_size_t (st_size sb))
  end.

(** [Path::isDirectory]. *)
Definition isDirectory (p : PathT) : bool :=
  match stat (str p) with
  | None => false
  | Some sb => S_ISDIR (st_mode sb)
  end.

(** [Path::isFile]. *)
Definition isFile (p : PathT) : bool :=
  match stat (str p) with
  | None => false
  | Some sb => S_ISREG (st_mode sb)
  end.

(** [Path::makeAbsolute]. *)
Definition makeAbsolute (path : PathT) : Fallible PathT :=
  match realpath (str path) with
  | inr error => Throw ("Internal error in realpath(): " +:+ error)
  | inl temp => Ok (ofString temp)
  end.

(** [Path::getCurrentDirectory]. *)
Definition getCurrentDirectory : Fallible PathT :=
  match getcwd with
  | inr error => Throw ("Internal error in getcwd(): " +:+ error)
  | inl temp => Ok (ofString temp)
  end.

(** [getFilesInDirectory]. *)
Definition getFilesInDirectory (path : PathT) : list PathT :=
  let result := [] in
  let base := str path +:+ "/" in
  match readdir base with
  | Some entries =>
      foldl (fun result dir =>
               if (d_type dir =? DT_REG)%Z
               then result ++ [ofString (base +:+ d_name dir)]
               else result)
            result entries
  | None => result
  end.

End FileSystem.
End Posix.

Module Win32.

(** [DWORD] values: 32 bits, unsigned. *)
Definition INVALID_FILE_ATTRIBUTES : Z := (-1) mod 2 ^ 32.
Definition FILE_ATTRIBUTE_DIRECTORY : Z := 16.  (* 0x00000010 *)

Section FileSystem.

(** A path and its wide-character text ([Path::wstr]). *)
Variable PathT : Type.
Variable wstring : Type.
Variable wstr : PathT -> wstring.

(** [GetFileAttributesW]. *)
Variable GetFileAttributesW : wstring -> Z.

(** [Path::exists]. *)
Definition exists_ (p : PathT) : bool :=
  negb (GetFileAttributesW (wstr p) =? INVALID_FILE_ATTRIBUTES)%Z.

(** [Path::isDirectory]. *)
Definition isDirectory (p : PathT) : bool :=
  let result := GetFileAttributesW (wstr p) in
  if (result =? INVALID_FILE_ATTRIBUTES)%Z then false
  else negb (Z.land result FILE_ATTRIBUTE_DIRECTORY =? 0)%Z.

(** [Path::isFile]. *)
Definition isFile (p : PathT) : bool :=
  let attr := GetFileAttributesW (wstr p) in
  negb (attr =? INVALID_FILE_ATTRIBUTES)%Z
  && (Z.land attr FILE_ATTRIBUTE_DIRECTORY =? 0)%Z.

End FileSystem.
End Win32.


(** ** A concrete session

    More invocations on the file system of [Scenario], with a parser, a
    compilation and a macro table to run the modes of the driver on. *)

Module Session.

(** The options [o] with a time scale, [--lint-only], include directories
    and paths in which to suppress warnings given besides. *)
Definition also (timeScale : option string) (onlyLint : option bool)
    (includeDirs includeSystemDirs suppressWarningsPaths : list string)
    (o : Options.t) : Options.t :=
  {| Options.includeDirs := includeDirs;
     Options.includeSystemDirs := includeSystemDirs;
     Options.libDirs := Options.libDirs o;
     Options.libExts := Options.libExts o;
     Options.excludeExts := Options.excludeExts o;
     Options.defines := Options.defines o;
     Options.undefines := Options.undefines o;
     Options.maxIncludeDepth := Options.maxIncludeDepth o;
     Options.librariesInheritMacros := Options.librariesInheritMacros o;
     Options.ignoreDirectives := Options.ignoreDirectives o;
     Options.maxParseDepth := Options.maxParseDepth o;
     Options.maxLexerErrors := Options.maxLexerErrors o;
     Options.numThreads := Options.numThreads o;
     Options.maxInstanceDepth := Options.maxInstanceDepth o;
     Options.maxGenerateSteps := Options.maxGenerateSteps o;
     Options.maxConstexprDepth := Options.maxConstexprDepth o;
     Options.maxConstexprSteps := Options.maxConstexprSteps o;
     Options.maxConstexprBacktrace := Options.maxConstexprBacktrace o;
     Options.maxInstanceArray := Options.maxInstanceArray o;
     Options.compat := Options.compat o;
     Options.minTypMax := Options.minTypMax o;
     Options.timeScale := timeScale;
     Options.allowUseBeforeDeclare := Options.allowUseBeforeDeclare o;
     Options.ignoreUnknownModules := Options.ignoreUnknownModules o;
     Options.relaxEnumConversions := Options.relaxEnumConversions o;
     Options.allowHierarchicalConst := Options.allowHierarchicalConst o;
     Options.allowDupInitialDrivers := Options.allowDupInitialDrivers o;
     Options.strictDriverChecking := Options.strictDriverChecking o;
     Options.onlyLint := onlyLint;
     Options.topModules := Options.topModules o;
     Options.paramOverrides := Options.paramOverrides o;
     Options.warningOptions := Options.warningOptions o;
     Options.colorDiags := Options.colorDiags o;
     Options.diagColumn := Options.diagColumn o;
     Options.diagLocation := Options.diagLocation o;
     Options.diagSourceLine := Options.diagSourceLine o;
     Options.diagOptionName := Options.diagOptionName o;
     Options.diagIncludeStack := Options.diagIncludeStack o;
     Options.diagMacroExpansion := Options.diagMacroExpansion o;
     Options.diagHierarchy := Options.diagHierarchy o;
     Options.errorLimit := Options.errorLimit o;
     Options.suppressWarningsPaths := suppressWarningsPaths;
     Options.suppressMacroWarningsPaths := Options.suppressMacroWarningsPaths o;
     Options.singleUnit := Options.singleUnit o;
     Options.libraryFiles := Options.libraryFiles o |}.

(** [--timing fast top.v]. *)
Definition fast_run : Driver :=
  Scenario.driver (Scenario.given None (Some "fast") None None None [] [] ∅) ["top.v"].

(** [--timing max --timescale 1ns/1ps top.v] and [--timescale 1ns top.v]. *)
Definition timed_run : Driver :=
  Scenario.driver
    (also (Some "1ns/1ps") None [] [] []
          (Scenario.given None (Some "max") None None None [] [] ∅))
    ["top.v"].

Definition bad_scale_run : Driver :=
  Scenario.driver
    (also (Some "1ns") None [] [] []
          (Scenario.given None None None None None [] [] ∅))
    ["top.v"].

(** [-I rtl -I nowhere --isystem sys --suppress-warnings rtl/files.f
    --suppress-warnings gone.v top.v], from [/work]. *)
Definition include_run : Driver :=
  Scenario.driver
    (also None None ["/work/rtl"; "/nowhere"] ["/sys"] ["rtl/files.f"; "gone.v"]
          (Scenario.given None None None None None [] [] ∅))
    ["top.v"].

(** [--lint-only top.v]. *)
Definition lint_run : Driver :=
  Scenario.driver
    (also None (Some true) [] [] []
          (Scenario.given None None None None None [] [] ∅))
    ["top.v"].

(** [--libraries-inherit-macros --single-unit top.v]. *)
Definition single_unit_run : Driver :=
  Scenario.driver (Scenario.given None None (Some true) (Some true) None [] [] ∅)
                  ["top.v"].

(** [top.v missing.v]: the second file does not exist. *)
Definition missing_run : Driver :=
  Scenario.driver (Scenario.given None None None None None [] [] ∅)
                  ["top.v"; "missing.v"].

Definition default_parseOpts : CommandLine.ParseOptions :=
  {| CommandLine.expandEnvVars := false;
     CommandLine.ignoreProgramName := false;
     CommandLine.supportComments := false;
     CommandLine.ignoreDuplicates := false |}.

Abbreviation run_parseCommandLine :=
  (parseCommandLine Scenario.canonical Scenario.readFile Scenario.parent_path
     Scenario.isDirectory Scenario.tokenize default_parseOpts).

(** The parser: a syntax tree is the name of the file it was parsed from. *)
Definition SyntaxTree : Type := string.

Definition loadAndParseSources (l : SourceLoader.t) (bag : Bag Scenario.TimeScale)
  : list SyntaxTree * list string :=
  (flat_map (fun e =>
               if String.eqb (SourceLoader.pattern e) "top.v"
                  || String.eqb (SourceLoader.pattern e) "bad.v"
               then [SourceLoader.pattern e]
               else [])
            (SourceLoader.fileEntries l),
   snd (Scenario.loadSources l)).

Definition mappingsFromPragmas (m : SourceManager.t) (tbl : SeverityTable)
  : Diagnostics * SeverityTable :=
  ([{| code := diag.Other 3; isError := false |}],
   <[ImplicitConvert := Ignored]> tbl).

(** The compilation of [top.v] has one top-level design unit and no
    diagnostic; that of [bad.v] has none and an error. *)
Definition topInstances (c : Compilation.t Scenario.TimeScale SyntaxTree)
  : list string :=
  if bool_decide ("top.v" ∈ Compilation.syntaxTrees c) then ["m"] else [].

Definition getParseDiagnostics (c : Compilation.t Scenario.TimeScale SyntaxTree)
  : Diagnostics :=
  if bool_decide ("bad.v" ∈ Compilation.syntaxTrees c)
  then [{| code := diag.Other 7; isError := true |}]
  else [].

Definition getAllDiagnostics (c : Compilation.t Scenario.TimeScale SyntaxTree)
  : Diagnostics :=
  getParseDiagnostics c.

Definition getNumErrors (e : DiagnosticEngine.t) : Z :=
  Z.of_nat (length (List.filter isError (DiagnosticEngine.issued e))).

Definition getNumWarnings (e : DiagnosticEngine.t) : Z :=
  Z.of_nat (length (List.filter (fun dg => negb (isError dg))
                                (DiagnosticEngine.issued e))).

Definition getString (c : TextDiagnosticClient.t) (e : DiagnosticEngine.t) : string :=
  match DiagnosticEngine.issued e with
  | [] => EmptyString
  | _ :: _ => "bad.v:1:1: error: expected a declaration" +:+ nl
  end.

Abbreviation run_parseAllSources :=
  (parseAllSources Scenario.TimeScale Scenario.TimeScale_fromString
     Scenario.default_ppoptions Scenario.default_loptions Scenario.default_poptions
     Scenario.default_coptions SyntaxTree loadAndParseSources mappingsFromPragmas).

Abbreviation run_createCompilation :=
  (createCompilation Scenario.TimeScale Scenario.TimeScale_fromString
     Scenario.default_ppoptions Scenario.default_loptions Scenario.default_poptions
     Scenario.default_coptions SyntaxTree).

Abbreviation run_reportCompilation :=
  (reportCompilation Scenario.TimeScale SyntaxTree getAllDiagnostics topInstances
     getNumErrors getNumWarnings getString).

(** The macros [`define WIDTH 8] and [`define MAX(a,b) ((a)>(b)?(a):(b))]. *)
Definition MacroFormalArgumentList : Type := string.

Definition macro_WIDTH : DefineDirective.t MacroFormalArgumentList :=
  {| DefineDirective.name := Scenario.tok TokenKind.Identifier "WIDTH";
     DefineDirective.formalArguments := None;
     DefineDirective.body := [Scenario.tok TokenKind.IntegerLiteral "8"] |}.

Definition macro_MAX : DefineDirective.t MacroFormalArgumentList :=
  {| DefineDirective.name := Scenario.tok TokenKind.Identifier "MAX";
     DefineDirective.formalArguments := Some "(a,b)";
     DefineDirective.body :=
       [{| kind := TokenKind.Other 5; trivia := EmptyString; rawText := "(" |};
        Scenario.tok TokenKind.Identifier "a"] |}.

Definition getDefinedMacros (bag : Bag Scenario.TimeScale) (m : SourceManager.t)
    (stack : list Scenario.SourceBuffer)
  : list (DefineDirective.t MacroFormalArgumentList) :=
  match stack with
  | [] => []
  | _ :: _ => [macro_WIDTH; macro_MAX]
  end.

Definition printed_str (p : MacroPrinter.t MacroFormalArgumentList) : string :=
  foldr (fun piece acc =>
           match piece with
           | MacroPrinter.OfToken withTrivia t =>
               (if withTrivia then trivia t else EmptyString) +:+ rawText t +:+ acc
           | MacroPrinter.OfNode _ args => args +:+ acc
           | MacroPrinter.Literal s => s +:+ acc
           end)
        EmptyString (MacroPrinter.pieces p).

Abbreviation run_reportMacros :=
  (reportMacros Scenario.TimeScale Scenario.TimeScale_fromString
     Scenario.default_ppoptions Scenario.default_loptions Scenario.default_poptions
     Scenario.default_coptions Scenario.SourceBuffer Scenario.loadSources
     Scenario.preprocess MacroFormalArgumentList getDefinedMacros printed_str).

(** A POSIX file system with a directory, a regular file and a socket. *)
Definition stat (p : string) : option Posix.stat_t :=
  if String.eqb p "/work" then Some {| Posix.st_mode := 16877; Posix.st_size := 4096 |}
  else if String.eqb p "/work/top.v"
       then Some {| Posix.st_mode := 33188; Posix.st_size := 120 |}
       else if String.eqb p "/run/sock"
            then Some {| Posix.st_mode := 49645; Posix.st_size := 0 |}
            else None.

Definition readdir (p : string) : option (list Posix.dirent) :=
  if String.eqb p "/work/"
  then Some [{| Posix.d_type := 4; Posix.d_name := "rtl" |};
             {| Posix.d_type := 8; Posix.d_name := "top.v" |}]
  else None.

End Session.

(** ** The severity table as the specification composes it, code by code

    The overrides the specification names, written out one by one:
    [DuplicateDefinition] and [BadProceduralForce] become errors; under
    [--compat vcs] six diagnostics are ignored, otherwise five are promoted
    to errors; the user's [-W] options come last. *)

Definition spec_mandatoryOverrides (tbl : SeverityTable) : SeverityTable :=
  <[BadProceduralForce := Error]> (<[DuplicateDefinition := Error]> tbl).

Definition spec_compatOverrides (tbl : SeverityTable) : SeverityTable :=
  <[NonstandardDist := Ignored]>
    (<[NonstandardForeach := Ignored]>
       (<[NonstandardSysFunc := Ignored]>
          (<[BadFinishNum := Ignored]>
             (<[ImplicitConvert := Ignored]>
                (<[StaticInitializerMustBeExplicit := Ignored]> tbl))))).

Definition spec_defaultPromotions (tbl : SeverityTable) : SeverityTable :=
  <[SplitDistWeightOp := Error]>
    (<[ImplicitNamedPortTypeMismatch := Error]>
       (<[RangeWidthOOB := Error]>
          (<[RangeOOB := Error]>
             (<[IndexOOB := Error]> tbl)))).

(** The severity the overrides give a diagnostic, if they name it. *)
Definition spec_override (vcs : bool) (c : DiagCode) : option DiagnosticSeverity :=
  match c with
  | DuplicateDefinition | BadProceduralForce => Some Error
  | StaticInitializerMustBeExplicit | ImplicitConvert | BadFinishNum
  | NonstandardSysFunc | NonstandardForeach | NonstandardDist =>
      if vcs then Some Ignored else None
  | IndexOOB | RangeOOB | RangeWidthOOB | ImplicitNamedPortTypeMismatch
  | SplitDistWeightOp =>
      if vcs then None else Some Error
  | diag.Other _ => None
  end.

Section SeverityTableAsSpecified.

Variable defaultWarnings : SeverityTable -> SeverityTable.
Variable warningOptionsTable :
  list string -> SeverityTable -> Diagnostics * SeverityTable.

Definition spec_severityTable (vcs : bool) (W : list string) (M : SeverityTable)
  : SeverityTable :=
  let tbl := spec_mandatoryOverrides (defaultWarnings M) in
  let tbl := if vcs then spec_compatOverrides tbl else spec_defaultPromotions tbl in
  snd (warningOptionsTable W tbl).

End SeverityTableAsSpecified.

(** ** Obfuscation as the specification words it

    An integer base, wherever it is met, opens a digit run: the base and the
    possible vector digits after it are emitted as they are, up to the first
    token that is no digit.  Every other identifier is emitted under the
    replacement the table holds for its name, and the table gives each name,
    when it is first met, the next string the generator yields. *)

Section ObfuscationAsSpecified.

Variable valueText : Token -> string.
Variable isPossibleVectorDigit : TokenKind.t -> bool.
Variable mt19937 : Type.
Variable getUniformIntDist : mt19937 -> nat -> nat -> nat * mt19937.

(** The emitted stream, given the table. *)
Fixpoint spec_obfuscated (M : gmap string string) (inRun : bool) (ts : list Token)
  : option (list Token) :=
  match ts with
  | [] => Some [eofToken]
  | t :: r =>
      if inRun && isPossibleVectorDigit (kind t)
      then cons t <$> spec_obfuscated M true r
      else if bool_decide (kind t = TokenKind.IntegerBase)
      then cons t <$> spec_obfuscated M true r
      else
        match rewriteToken valueText true M t with
        | None => None
        | Some t' =>
            if bool_decide (kind t = TokenKind.EndOfFile) then Some [t']
            else cons t' <$> spec_obfuscated M false r
        end
  end.

(** The names of the identifiers to replace, in the order in which they are
    met up to the end of file. *)
Fixpoint spec_replacedNames (inRun : bool) (ts : list Token) : list string :=
  match ts with
  | [] => []
  | t :: r =>
      if inRun && isPossibleVectorDigit (kind t) then spec_replacedNames true r
      else if bool_decide (kind t = TokenKind.IntegerBase) then spec_replacedNames true r
      else if bool_decide (kind t = TokenKind.EndOfFile) then []
      else if bool_decide (kind t = TokenKind.Identifier)
      then valueText t :: spec_replacedNames false r
      else spec_replacedNames false r
  end.

(** The table after these names have been met in turn, starting from the
    table [m]: a name that has no entry yet takes the next string of the
    generator started at [gen0], the one after those the entries of the
    table took. *)
Fixpoint spec_table (gen0 : mt19937) (m : gmap string string) (names : list string)
  : gmap string string :=
  match names with
  | [] => m
  | name :: r =>
      match m !! name with
      | Some _ => spec_table gen0 m r
      | None =>
          spec_table gen0
            (<[name := nthName mt19937 getUniformIntDist gen0 (size m)]> m) r
      end
  end.

(** Somewhere before the end of file, the token that ends a digit run is an
    integer base itself. *)
Fixpoint spec_baseEndsRun (inRun : bool) (ts : list Token) : bool :=
  match ts with
  | [] => false
  | t :: r =>
      if inRun && isPossibleVectorDigit (kind t) then spec_baseEndsRun true r
      else if bool_decide (kind t = TokenKind.IntegerBase)
      then inRun || spec_baseEndsRun true r
      else if bool_decide (kind t = TokenKind.EndOfFile) then false
      else spec_baseEndsRun false r
  end.

End ObfuscationAsSpecified.

(** ** Many identifiers, and all the strings of one length *)

(** [a], [aa], [aaa], ...: a different name for every number. *)
Fixpoint tally (k : nat) : string :=
  match k with
  | 0 => "a"
  | S k => String "a" (tally k)
  end.

(** The identifier tokens [a aa aaa ...], [n] of them. *)
Definition identifiers (n : nat) : list Token :=
  map (fun k => {| kind := TokenKind.Identifier; trivia := " "; rawText := tally k |})
      (seq 0 n).

(** Every character, and every string of [n] characters. *)
Definition allAscii : list ascii := map ascii_of_nat (seq 0 256).

Fixpoint stringsOfLength (n : nat) : list string :=
  match n with
  | 0 => [EmptyString]
  | S n => flat_map (fun c => map (String c) (stringsOfLength n)) allAscii
  end.

(** ** A process whose working directory is gone

    The tool runs in [/gone], a directory that does not exist any more; the
    command file is named by its full path. *)

Module Orphaned.

Definition files : list (string * string) :=
  [("/work/rtl/ok.f", "top.v" +:+ Scenario.sentinel)].

Definition isDirectory (p : Path) : bool :=
  existsb (String.eqb p) ["/work"; "/work/rtl"].

(** A name that starts with [/] is resolved as it is, any other against the
    working directory. *)
Definition canonical (cwd : Path) (name : string) : option Path :=
  let p := if String.prefix "/" name then name else cwd +:+ "/" +:+ name in
  if existsb (fun f => String.eqb p (fst f)) files then Some p else None.

Definition readFile (p : Path) : option string :=
  match List.find (fun f => String.eqb p (fst f)) files with
  | Some f => Some (snd f)
  | None => None
  end.

Definition tokenize (opts : CommandLine.ParseOptions) (s : string)
  : list CommandLine.Event :=
  if String.eqb s "top.v" then [CommandLine.Positional "top.v"] else [].

(** A freshly constructed driver in [/gone]. *)
Definition start : Driver :=
  with_os (OS.set_current_path_raw "/gone" (os Scenario.bare_run)) Scenario.bare_run.

Abbreviation run_processCommandFile :=
  (processCommandFile canonical readFile Scenario.parent_path isDirectory tokenize).

End Orphaned.

(** * Properties *)

(** ** Loops over lists keep what each step keeps *)

Lemma foldl_invariant {A} (P : Driver -> Prop) (f : Driver -> A -> Driver)
    (l : list A) (d : Driver) :
  (forall d x, P d -> P (f d x)) -> P d -> P (foldl f d l).
Proof.
  intros Hstep. revert d.
  induction l as [|x l IH]; intros d Hd; simpl; [assumption|].
  apply IH, Hstep, Hd.
Qed.

Lemma err_printError (message : string) (d : Driver) :
  OS.err (os (printError message d)) = OS.err (os d) ++ errorChunks message.
Proof.
  unfold printError, errorChunks. simpl.
  rewrite <- !app_assoc. reflexivity.
Qed.

Lemma flow_ext (e : Flow) (k1 k2 : Driver -> bool * Driver) :
  (forall d, k1 d = k2 d) ->
  (step d <- e; k1 d) = (step d <- e; k2 d).
Proof. intros H. destruct e; [apply H|reflexivity]. Qed.

Lemma spec_overrides_lookup (vcs : bool) (tbl : SeverityTable) (c : DiagCode) :
  (if vcs then spec_compatOverrides (spec_mandatoryOverrides tbl)
   else spec_defaultPromotions (spec_mandatoryOverrides tbl)) !! c =
  match spec_override vcs c with
  | Some s => Some s
  | None => tbl !! c
  end.
Proof.
  unfold spec_compatOverrides, spec_defaultPromotions, spec_mandatoryOverrides.
  destruct vcs, c; cbn [spec_override];
    repeat first [ rewrite lookup_insert_eq; reflexivity
                 | rewrite lookup_insert_ne by discriminate ];
    reflexivity.
Qed.

Section OptionValidationFacts.

Variable fileSupportsColors : Stream -> bool.
Variable isDirectory : Path -> bool.
Variable canonical : Path -> string -> option Path.
Variable TimeScale : Type.
Variable TimeScale_fromString : string -> option TimeScale.
Variable defaultWarnings : SeverityTable -> SeverityTable.
Variable warningOptionsTable :
  list string -> SeverityTable -> Diagnostics * SeverityTable.

Abbreviation timeScaleOk' := (timeScaleOk TimeScale TimeScale_fromString).
Abbreviation profiled' := (profiled fileSupportsColors).
Abbreviation outcome' :=
  (outcome fileSupportsColors isDirectory canonical TimeScale TimeScale_fromString
     defaultWarnings warningOptionsTable).

Lemma processOptions_by_blocks (d : Driver) :
  processOptions fileSupportsColors isDirectory canonical TimeScale
                 TimeScale_fromString defaultWarnings warningOptionsTable d =
  processOptions_blocks fileSupportsColors isDirectory canonical TimeScale
                 TimeScale_fromString defaultWarnings warningOptionsTable d.
Proof.
  unfold processOptions, processOptions_blocks.
  apply (flow_ext (applyCompat (afterColors fileSupportsColors d))); intros d1.
  apply (flow_ext (checkTiming d1)); intros d2.
  apply (flow_ext (checkSingleUnit d2)); intros d3.
  apply (flow_ext (checkTimeScale TimeScale TimeScale_fromString d3)); intros d4.
  match goal with |- _ = ?rhs =>
  change (match (if anyFailedLoads (registerPaths isDirectory d4)
                 then Return false (registerPaths isDirectory d4)
                 else Continue (registerPaths isDirectory d4)) with
          | Continue d5 =>
              step d6 <- (if negb (SourceLoader.hasFiles (sourceLoader d5))
                          then Return false (printError "no input files" d5)
                          else Continue d5);
              (let '(optionDiags, e) :=
                 setWarningOptions warningOptionsTable
                   (Options.warningOptions (options d6))
                   (diagEngine (beforeWarningOptions canonical defaultWarnings
                                  (showColorsOf fileSupportsColors d) d6)) in
               (true,
                foldl (fun d dg =>
                         with_diagEngine (DiagnosticEngine.issue dg (diagEngine d)) d)
                      (with_diagEngine e
                         (beforeWarningOptions canonical defaultWarnings
                            (showColorsOf fileSupportsColors d) d6))
                      optionDiags))
          | Return b d' => (b, d')
          end = rhs)
  end.
  unfold checkInputs.
  generalize (registerPaths isDirectory d4); intros d5.
  destruct (anyFailedLoads d5); [reflexivity|].
  destruct (negb (SourceLoader.hasFiles (sourceLoader d5))); [reflexivity|].
  unfold configureDiagnostics.
  fold (beforeWarningOptions canonical defaultWarnings
          (showColorsOf fileSupportsColors d) d5).
  destruct (setWarningOptions warningOptionsTable (Options.warningOptions (options d5))
              (diagEngine (beforeWarningOptions canonical defaultWarnings
                             (showColorsOf fileSupportsColors d) d5)));
    reflexivity.
Qed.



Abbreviation PO := (processOptions fileSupportsColors isDirectory canonical TimeScale
                 TimeScale_fromString defaultWarnings warningOptionsTable).

Lemma afterColors_frame (d : Driver) :
  exists o', afterColors fileSupportsColors d = with_os o' d /\
    OS.err o' = OS.err (os d) /\ OS.out o' = OS.out (os d) /\
    OS.current_path o' = OS.current_path (os d).
Proof.
  unfold afterColors.
  destruct (Options.colorDiags (options d)) as [[]|];
    destruct (fileSupportsColors stderr); destruct (fileSupportsColors stdout);
    destruct d as [? ? ? ? ? ? ? []]; simpl; eexists; (split; [reflexivity|]); auto.
Qed.

Lemma applyCompat_cases (d : Driver) :
  (exists v, Options.compat (options d) = Some v /\ v <> "vcs" /\
     applyCompat d =
       Return false (printError (format1 "invalid value for compat option: '" v "'") d))
  \/ (Options.compat (options d) = None /\ applyCompat d = Continue d)
  \/ (Options.compat (options d) = Some "vcs" /\
      applyCompat d = Continue (with_options (vcsDefaults (options d)) d)).
Proof.
  unfold applyCompat.
  destruct (Options.compat (options d)) as [v|]; [|right; left; auto].
  destruct (String.eqb_spec v "vcs") as [->|Hne].
  - right; right. split; [reflexivity|]. do 2 f_equal.
    unfold vcsDefaults.
    destruct (options d) as []; cbn.
    repeat match goal with
           | |- context [value_or ?x true] => is_var x; destruct x; cbn
           end; reflexivity.
  - left. exists v. auto.
Qed.

Lemma checkTiming_cases (d : Driver) :
  (exists v, Options.minTypMax (options d) = Some v /\
     v <> "min" /\ v <> "typ" /\ v <> "max" /\
     checkTiming d =
       Return false (printError (format1 "invalid value for timing option: '" v "'") d))
  \/ ((Options.minTypMax (options d) = None \/
       Options.minTypMax (options d) = Some "min" \/
       Options.minTypMax (options d) = Some "typ" \/
       Options.minTypMax (options d) = Some "max") /\
      checkTiming d = Continue d).
Proof.
  unfold checkTiming.
  destruct (Options.minTypMax (options d)) as [v|]; [|right; auto].
  destruct (String.eqb_spec v "min") as [->|H1]; [right; auto|].
  destruct (String.eqb_spec v "typ") as [->|H2]; [right; auto 6|].
  destruct (String.eqb_spec v "max") as [->|H3]; [right; auto 6|].
  left. exists v. auto.
Qed.

Lemma checkSingleUnit_cases (d : Driver) :
  (is_true (Options.librariesInheritMacros (options d)) = true /\
   value_or (Options.singleUnit (options d)) false = false /\
   checkSingleUnit d =
     Return false
       (printError "--single-unit must be set when --libraries-inherit-macros is used" d))
  \/ ((is_true (Options.librariesInheritMacros (options d)) = false \/
       value_or (Options.singleUnit (options d)) false = true) /\
      checkSingleUnit d = Continue d).
Proof.
  unfold checkSingleUnit.
  destruct (is_true (Options.librariesInheritMacros (options d)));
    destruct (value_or (Options.singleUnit (options d)) false); simpl; auto.
Qed.

Lemma checkTimeScale_cases (d : Driver) :
  (exists v, Options.timeScale (options d) = Some v /\
     TimeScale_fromString v = None /\
     checkTimeScale TimeScale TimeScale_fromString d =
       Return false
         (printError (format1 "invalid value for time scale option: '" v "'") d))
  \/ ((Options.timeScale (options d) = None \/
       exists v, Options.timeScale (options d) = Some v /\
                 TimeScale_fromString v <> None) /\
      checkTimeScale TimeScale TimeScale_fromString d = Continue d).
Proof.
  unfold checkTimeScale.
  destruct (Options.timeScale (options d)) as [v|]; [|right; auto].
  destruct (TimeScale_fromString v) eqn:E.
  - right. split; [right; exists v; split; congruence|reflexivity].
  - left. exists v. auto.
Qed.

Lemma printWarning_includeDir (dir : string) (d : Driver) :
  exists pre,
    OS.err (os (printWarning (format1 "include directory '" dir "' does not exist") d))
      = OS.err (os d) ++ pre /\ Forall notNoInput pre.
Proof.
  eexists. split.
  - unfold printWarning. simpl. rewrite <- !app_assoc. reflexivity.
  - simpl.
    apply List.Forall_cons; [|apply List.Forall_cons; [|apply List.Forall_cons;
      [|apply List.Forall_nil]]];
      unfold notNoInput, plain, fg, format1, nl; simpl; intros H; discriminate H.
Qed.

Lemma registered_refl (d : Driver) : registered d d.
Proof.
  constructor; try reflexivity.
  exists []. rewrite app_nil_r. auto.
Qed.

Lemma registered_trans (d1 d2 d3 : Driver) :
  registered d1 d2 -> registered d2 d3 -> registered d1 d3.
Proof.
  intros [] []. constructor; try congruence.
  destruct reg_err0 as (p1 & E1 & F1), reg_err1 as (p2 & E2 & F2).
  exists (p1 ++ p2). rewrite E2, E1, app_assoc. split; [reflexivity|].
  apply Forall_app; auto.
Qed.

Lemma registerPaths_frame (d : Driver) :
  registered (with_options (lintDefault (options d)) d) (registerPaths isDirectory d) /\
  SourceLoader.fileEntries (sourceLoader (registerPaths isDirectory d)) =
    SourceLoader.fileEntries (sourceLoader d)
      ++ map libraryEntry (Options.libraryFiles (lintDefault (options d))).
Proof.
  unfold registerPaths. cbv zeta.
  fold (lintDefault (options d)).
  replace (if is_true (Options.onlyLint (options d))
              && negb (has_value (Options.ignoreUnknownModules (options d)))
           then with_options
                  (Options.set_ignoreUnknownModules (Some true) (options d)) d
           else d)
    with (with_options (lintDefault (options d)) d)
    by (unfold lintDefault;
        destruct (is_true _ && _); [reflexivity|destruct d; reflexivity]).
  set (d0 := with_options (lintDefault (options d)) d).
  match goal with
  | |- context [foldl ?f d0 (Options.includeDirs (options d0))] =>
      set (d1 := foldl f d0 (Options.includeDirs (options d0)));
      assert (H1 : registered d0 d1 /\ sourceLoader d1 = sourceLoader d0)
  end.
  { subst d1.
    apply (foldl_invariant (fun x => registered d0 x /\ sourceLoader x = sourceLoader d0));
      [|split; [apply registered_refl|reflexivity]].
    intros d' dir [Hr Hl]. unfold addUserDirectory.
    destruct (isDirectory dir); simpl.
    - split; [|exact Hl]. destruct Hr; constructor; assumption.
    - split; [|exact Hl].
      eapply registered_trans; [exact Hr|].
      constructor; try reflexivity.
      destruct (printWarning_includeDir dir d') as (pre & E & F).
      exists pre. split; [|exact F].
      rewrite <- E. destruct d'; reflexivity. }
  match goal with
  | |- context [foldl ?f d1 (Options.includeSystemDirs (options d1))] =>
      set (d2 := foldl f d1 (Options.includeSystemDirs (options d1)));
      assert (H2 : registered d1 d2 /\ sourceLoader d2 = sourceLoader d1)
  end.
  { subst d2.
    apply (foldl_invariant (fun x => registered d1 x /\ sourceLoader x = sourceLoader d1));
      [|split; [apply registered_refl|reflexivity]].
    intros d' dir [Hr Hl]. unfold addSystemDirectory.
    destruct (isDirectory dir); simpl.
    - split; [|exact Hl]. destruct Hr; constructor; assumption.
    - split; [|exact Hl].
      eapply registered_trans; [exact Hr|].
      constructor; try reflexivity.
      destruct (printWarning_includeDir dir d') as (pre & E & F).
      exists pre. split; [|exact F].
      rewrite <- E. destruct d'; reflexivity. }
  match goal with
  | |- context [foldl ?f d2 (Options.libraryFiles (options d2))] =>
      set (d3 := foldl f d2 (Options.libraryFiles (options d2)));
      assert (H3 : registered d2 d3 /\
                   SourceLoader.fileEntries (sourceLoader d3) =
                   SourceLoader.fileEntries (sourceLoader d2)
                     ++ map libraryEntry (Options.libraryFiles (options d2)))
  end.
  { subst d3. generalize (Options.libraryFiles (options d2)). intros l.
    generalize d2. clear. intros d2. revert d2.
    induction l as [|x l IH]; intros d2; simpl.
    - split; [apply registered_refl|]. rewrite app_nil_r. reflexivity.
    - match goal with |- context [foldl _ ?dd l] => destruct (IH dd) as [Hr He] end.
      split.
      + eapply registered_trans; [|exact Hr].
        constructor; try reflexivity. exists []. rewrite app_nil_r. auto.
      + rewrite He. simpl. rewrite <- app_assoc. reflexivity. }
  destruct H1 as [H1 L1], H2 as [H2 L2], H3 as [H3 L3].
  split.
  - eapply registered_trans; [exact H1|].
    eapply registered_trans; [exact H2|].
    eapply registered_trans; [exact H3|].
    constructor; try reflexivity. exists []. rewrite app_nil_r. auto.
  - simpl. rewrite L3, L2, L1.
    destruct H1 as [O1 _ _ _ _ _ _], H2 as [O2 _ _ _ _ _ _].
    rewrite O2, O1. reflexivity.
Qed.

(** *** Every way [processOptions] can end *)

Lemma profiled_frame (d d1 : Driver) :
  profiled' d d1 ->
  (options d1 = options d \/
   (Options.compat (options d) = Some "vcs" /\ options d1 = vcsDefaults (options d))) /\
  Options.compat (options d1) = Options.compat (options d) /\
  Options.minTypMax (options d1) = Options.minTypMax (options d) /\
  Options.librariesInheritMacros (options d1) =
    Options.librariesInheritMacros (options d) /\
  Options.singleUnit (options d1) = Options.singleUnit (options d) /\
  Options.timeScale (options d1) = Options.timeScale (options d) /\
  Options.libraryFiles (options d1) = Options.libraryFiles (options d) /\
  Options.warningOptions (options d1) = Options.warningOptions (options d) /\
  Options.errorLimit (options d1) = Options.errorLimit (options d) /\
  Options.excludeExts (options d1) = Options.excludeExts (options d) /\
  diagEngine d1 = diagEngine d /\
  sourceLoader d1 = sourceLoader d /\
  sourceManager d1 = sourceManager d /\
  anyFailedLoads d1 = anyFailedLoads d /\
  OS.err (os d1) = OS.err (os d) /\
  OS.out (os d1) = OS.out (os d) /\
  OS.current_path (os d1) = OS.current_path (os d).
Proof.
  destruct (afterColors_frame d) as (o' & E & He & Ho & Hc).
  intros [[_ ->]|[Hv ->]]; rewrite E; simpl; repeat split; auto.
Qed.

Lemma processOptions_outcome (d : Driver) : outcome' d (PO d).
Proof.
  rewrite processOptions_by_blocks. unfold processOptions_blocks.
  destruct (afterColors_frame d) as (o' & E & _).
  assert (Ho : options (afterColors fileSupportsColors d) = options d)
    by (rewrite E; reflexivity).
  destruct (applyCompat_cases (afterColors fileSupportsColors d))
    as [(v & Hc & Hv & ->)|[(Hc & ->)|(Hc & ->)]]; rewrite Ho in Hc.
  { apply ends_compat; assumption. }
  all: match goal with
       | |- context [checkTiming ?x] =>
           assert (Hp : profiled' d x) by (unfold profiled; rewrite ?Ho; auto);
           set (d1 := x) in *
       end.
  all: destruct (profiled_frame d d1 Hp)
         as (_ & _ & Tm & Lim & Su & Ts & _ & _ & _ & _ & _ & _ & _ & Fl & _).
  all: destruct (checkTiming_cases d1)
         as [(v & Hm & H1 & H2 & H3 & ->)|(Hm & ->)]; rewrite Tm in Hm;
         [eapply ends_timing; eassumption|].
  all: destruct (checkSingleUnit_cases d1) as [(Hl & Hs & ->)|(Hs & ->)];
         rewrite Lim, Su in *; [eapply ends_singleUnit; eassumption|].
  all: destruct (checkTimeScale_cases d1) as [(v & Ht & Hn & ->)|(Ht & ->)];
         rewrite Ts in Ht; [eapply ends_timeScale; eassumption|].
  all: unfold checkInputs.
  all: destruct (registerPaths_frame d1) as [[_ _ Rf _ _ _ _] _].
  all: unfold with_options in Rf; cbn [anyFailedLoads] in Rf;
         rewrite Fl in Rf; rewrite Rf.
  all: destruct (anyFailedLoads d) eqn:Ef; [apply ends_failedLoads; assumption|].
  all: destruct (SourceLoader.hasFiles (sourceLoader (registerPaths isDirectory d1)))
         eqn:Eh; simpl;
         [apply ends_ok; assumption|apply ends_noInput; assumption].
Qed.

(** *** The configuration of the diagnostics *)

Lemma diagnosticsOnly_refl (d : Driver) : diagnosticsOnly d d.
Proof. constructor; reflexivity. Qed.

Lemma diagnosticsOnly_trans (d1 d2 d3 : Driver) :
  diagnosticsOnly d1 d2 -> diagnosticsOnly d2 d3 -> diagnosticsOnly d1 d3.
Proof. intros [] []. constructor; congruence. Qed.

Lemma diagnosticsOnly_engine (e : DiagnosticEngine.t) (d : Driver) :
  diagnosticsOnly d (with_diagEngine e d).
Proof. constructor; reflexivity. Qed.

Lemma diagnosticsOnly_client (c : TextDiagnosticClient.t) (d : Driver) :
  diagnosticsOnly d (with_diagClient c d).
Proof. constructor; reflexivity. Qed.

Lemma setSeverities_spec (l : list DiagCode) (s : DiagnosticSeverity) (d : Driver) :
  diagnosticsOnly d (setSeverities l s d) /\
  DiagnosticEngine.errorLimit (diagEngine (setSeverities l s d)) =
    DiagnosticEngine.errorLimit (diagEngine d) /\
  DiagnosticEngine.severityTable (diagEngine (setSeverities l s d)) =
    overrideAll l s (DiagnosticEngine.severityTable (diagEngine d)).
Proof.
  unfold setSeverities, overrideAll. revert d.
  induction l as [|c l IH]; intros d; simpl.
  - split; [apply diagnosticsOnly_refl|auto].
  - match goal with |- context [foldl _ ?dd l] => destruct (IH dd) as (A & B & C) end.
    split; [|split].
    + eapply diagnosticsOnly_trans; [apply diagnosticsOnly_engine|exact A].
    + rewrite B. reflexivity.
    + rewrite C. reflexivity.
Qed.

Lemma beforeWarningOptions_spec (showColors : bool) (d : Driver) :
  let d' := beforeWarningOptions canonical defaultWarnings showColors d in
  diagnosticsOnly d d' /\
  DiagnosticEngine.errorLimit (diagEngine d') =
    to_int (value_or (Options.errorLimit (options d)) 20%Z) /\
  DiagnosticEngine.severityTable (diagEngine d') =
    severityOverrides (opt_is (Options.compat (options d)) "vcs")
      (defaultWarnings (DiagnosticEngine.severityTable (diagEngine d))).
Proof.
  unfold beforeWarningOptions. cbv zeta.
  match goal with
  | |- context [setSeverities [DuplicateDefinition; BadProceduralForce] Error ?x] =>
      set (d1 := x);
      destruct (setSeverities_spec [DuplicateDefinition; BadProceduralForce] Error d1)
        as (A1 & B1 & C1);
      set (d2 := setSeverities [DuplicateDefinition; BadProceduralForce] Error d1) in *
  end.
  assert (A0 : diagnosticsOnly d d1) by (constructor; reflexivity).
  set (d3 := if opt_is (Options.compat (options d)) "vcs"
             then setSeverities vcsIgnores Ignored d2
             else setSeverities defaultPromotions Error d2).
  assert (H3 : diagnosticsOnly d d3 /\
               DiagnosticEngine.errorLimit (diagEngine d3) =
                 to_int (value_or (Options.errorLimit (options d)) 20%Z) /\
               DiagnosticEngine.severityTable (diagEngine d3) =
                 severityOverrides (opt_is (Options.compat (options d)) "vcs")
                   (defaultWarnings (DiagnosticEngine.severityTable (diagEngine d)))).
  { unfold severityOverrides. subst d3.
    destruct (opt_is (Options.compat (options d)) "vcs").
    - destruct (setSeverities_spec vcsIgnores Ignored d2) as (A & B & C).
      split; [|split].
      + eapply diagnosticsOnly_trans; [exact A0|].
        eapply diagnosticsOnly_trans; [exact A1|exact A].
      + rewrite B, B1. reflexivity.
      + rewrite C, C1. reflexivity.
    - destruct (setSeverities_spec defaultPromotions Error d2) as (A & B & C).
      split; [|split].
      + eapply diagnosticsOnly_trans; [exact A0|].
        eapply diagnosticsOnly_trans; [exact A1|exact A].
      + rewrite B, B1. reflexivity.
      + rewrite C, C1. reflexivity. }
  clearbody d3. clear A0 A1 B1 C1. clear d1 d2.
  pose (P := fun x : Driver =>
               diagnosticsOnly d x /\
               DiagnosticEngine.errorLimit (diagEngine x) =
                 to_int (value_or (Options.errorLimit (options d)) 20%Z) /\
               DiagnosticEngine.severityTable (diagEngine x) =
                 severityOverrides (opt_is (Options.compat (options d)) "vcs")
                   (defaultWarnings (DiagnosticEngine.severityTable (diagEngine d)))).
  change (P (foldl
               (fun d pathStr =>
                  match canonical (OS.current_path (os d)) pathStr with
                  | Some path =>
                      if negb (path_empty path)
                      then with_diagEngine
                             (DiagnosticEngine.addIgnoreMacroPath path (diagEngine d)) d
                      else d
                  | None => d
                  end)
               (foldl
                  (fun d pathStr =>
                     match canonical (OS.current_path (os d)) pathStr with
                     | Some path =>
                         if negb (path_empty path)
                         then with_diagEngine
                                (DiagnosticEngine.addIgnorePath path (diagEngine d)) d
                         else d
                     | None => d
                     end)
                  d3 (Options.suppressWarningsPaths (options d)))
               (Options.suppressMacroWarningsPaths (options d)))).
  apply foldl_invariant; [|apply foldl_invariant; [|exact H3]].
  - intros x pathStr (A & B & C).
    destruct (canonical (OS.current_path (os x)) pathStr) as [path|];
      [|split; [exact A|split; assumption]].
    destruct (negb (path_empty path)); [|split; [exact A|split; assumption]].
    split; [|split; assumption].
    eapply diagnosticsOnly_trans; [exact A|apply diagnosticsOnly_engine].
  - intros x pathStr (A & B & C).
    destruct (canonical (OS.current_path (os x)) pathStr) as [path|];
      [|split; [exact A|split; assumption]].
    destruct (negb (path_empty path)); [|split; [exact A|split; assumption]].
    split; [|split; assumption].
    eapply diagnosticsOnly_trans; [exact A|apply diagnosticsOnly_engine].
Qed.

Lemma configureDiagnostics_spec (showColors : bool) (d : Driver) :
  let d' := configureDiagnostics canonical defaultWarnings warningOptionsTable
              showColors d in
  diagnosticsOnly d d' /\
  DiagnosticEngine.errorLimit (diagEngine d') =
    to_int (value_or (Options.errorLimit (options d)) 20%Z) /\
  DiagnosticEngine.severityTable (diagEngine d') =
    expectedSeverities defaultWarnings warningOptionsTable
      (opt_is (Options.compat (options d)) "vcs")
      (Options.warningOptions (options d))
      (DiagnosticEngine.severityTable (diagEngine d)).
Proof.
  unfold configureDiagnostics, expectedSeverities. cbv zeta.
  destruct (beforeWarningOptions_spec showColors d) as (A & B & C).
  set (d0 := beforeWarningOptions canonical defaultWarnings showColors d) in *.
  unfold setWarningOptions. rewrite C.
  destruct (warningOptionsTable (Options.warningOptions (options d))
              (severityOverrides (opt_is (Options.compat (options d)) "vcs")
                 (defaultWarnings (DiagnosticEngine.severityTable (diagEngine d)))))
    as [optionDiags tbl]. simpl.
  apply (foldl_invariant
           (fun x => diagnosticsOnly d x /\
                     DiagnosticEngine.errorLimit (diagEngine x) =
                       to_int (value_or (Options.errorLimit (options d)) 20%Z) /\
                     DiagnosticEngine.severityTable (diagEngine x) = tbl)).
  - intros x dg (A' & B' & C').
    split; [|split; assumption].
    eapply diagnosticsOnly_trans; [exact A'|apply diagnosticsOnly_engine].
  - split; [|split].
    + eapply diagnosticsOnly_trans; [exact A|apply diagnosticsOnly_engine].
    + exact B.
    + reflexivity.
Qed.

(** *** What survives the registration of the search paths *)

Lemma lintDefault_fields (o : Options.t) :
  Options.compat (lintDefault o) = Options.compat o /\
  Options.warningOptions (lintDefault o) = Options.warningOptions o /\
  Options.errorLimit (lintDefault o) = Options.errorLimit o /\
  Options.libraryFiles (lintDefault o) = Options.libraryFiles o /\
  Options.allowHierarchicalConst (lintDefault o) = Options.allowHierarchicalConst o /\
  Options.allowUseBeforeDeclare (lintDefault o) = Options.allowUseBeforeDeclare o /\
  Options.relaxEnumConversions (lintDefault o) = Options.relaxEnumConversions o.
Proof.
  unfold lintDefault. destruct (_ && _); repeat split; reflexivity.
Qed.

Lemma registerPaths_after_profile (d d1 : Driver) :
  profiled' d d1 ->
  let r := registerPaths isDirectory d1 in
  options r = lintDefault (options d1) /\
  Options.compat (options r) = Options.compat (options d) /\
  Options.warningOptions (options r) = Options.warningOptions (options d) /\
  Options.errorLimit (options r) = Options.errorLimit (options d) /\
  diagEngine r = diagEngine d /\
  SourceLoader.fileEntries (sourceLoader r) =
    SourceLoader.fileEntries (sourceLoader d)
      ++ map libraryEntry (Options.libraryFiles (options d)) /\
  OS.out (os r) = OS.out (os d) /\
  (exists pre, OS.err (os r) = OS.err (os d) ++ pre /\ Forall notNoInput pre).
Proof.
  intros Hp r. subst r.
  destruct (profiled_frame d d1 Hp)
    as (_ & Cm & _ & _ & _ & _ & Lf & Wo & El & _ & De & Sl & _ & _ & Er & Ou & _).
  destruct (registerPaths_frame d1) as [[Ro Re _ _ Rout _ Rerr] Rl].
  destruct (lintDefault_fields (options d1)) as (L1 & L2 & L3 & L4 & _).
  cbn [with_options options diagEngine os] in Ro, Re, Rout, Rerr.
  repeat split.
  - exact Ro.
  - rewrite Ro, L1. exact Cm.
  - rewrite Ro, L2. exact Wo.
  - rewrite Ro, L3. exact El.
  - rewrite Re. exact De.
  - rewrite Rl, L4, Lf, Sl. reflexivity.
  - rewrite Rout. exact Ou.
  - rewrite <- Er. exact Rerr.
Qed.

Lemma errorChunks_notNoInput (message : string) :
  message <> "no input files" -> Forall notNoInput (errorChunks message).
Proof.
  intros Hne. unfold errorChunks.
  apply List.Forall_cons; [|apply List.Forall_cons; [|apply List.Forall_cons;
    [|apply List.Forall_nil]]]; unfold notNoInput, plain, fg, nl.
  - intros H; discriminate H.
  - intros H. apply Hne. congruence.
  - simpl. intros H; discriminate H.
Qed.

(** ** The claims about [processOptions] *)

(** C1: after a successful [processOptions] the severity table of the
    diagnostic engine is the table obtained by applying, in this order,
    [setDefaultWarnings], the two mandatory overrides
    ([DuplicateDefinition] and [BadProceduralForce] to [Error]), the six
    [vcs] ignores when [--compat vcs] is given and the five default
    promotions otherwise, and finally the user's [-W] options.  Whatever
    severity the [-W] options give a diagnostic is therefore the one it has
    at the end; and a diagnostic they leave alone has the severity of the
    override that names it, or failing that its default. *)
Theorem severity_table_after_processOptions (d d' : Driver) :
  PO d = (true, d') ->
  let vcs := opt_is (Options.compat (options d)) "vcs" in
  let W := Options.warningOptions (options d) in
  let M := DiagnosticEngine.severityTable (diagEngine d) in
  let T := DiagnosticEngine.severityTable (diagEngine d') in
  T = spec_severityTable defaultWarnings warningOptionsTable vcs W M
  /\ (forall c s,
        (forall t, snd (warningOptionsTable W t) !! c = Some s) -> T !! c = Some s)
  /\ (forall c,
        (forall t, snd (warningOptionsTable W t) !! c = t !! c) ->
        T !! c = match spec_override vcs c with
                 | Some s => Some s
                 | None => defaultWarnings M !! c
                 end).
Proof.
  intros Hrun vcs W M T.
  assert (Htable : T = spec_severityTable defaultWarnings warningOptionsTable vcs W M).
  { pose proof (processOptions_outcome d) as Hout.
    rewrite Hrun in Hout. inversion Hout as [| | | | | |d1 Hp _ _ _ _ _ Hd']; subst.
    destruct (registerPaths_after_profile d d1 Hp) as (_ & Cm & Wo & _ & De & _).
    destruct (configureDiagnostics_spec (showColorsOf fileSupportsColors d)
                (registerPaths isDirectory d1)) as (_ & _ & Tb).
    subst T vcs W M. rewrite Tb, Cm, Wo, De.
    unfold expectedSeverities, spec_severityTable.
    destruct (opt_is (Options.compat (options d)) "vcs"); reflexivity. }
  split; [exact Htable|]. split.
  - intros c s Hw. rewrite Htable. unfold spec_severityTable. apply Hw.
  - intros c Hw. rewrite Htable. unfold spec_severityTable. cbv zeta.
    rewrite Hw. apply spec_overrides_lookup.
Qed.

(** C3, as amended: when [--libraries-inherit-macros] is true, [--single-unit]
    is not, and the [--compat] and [--timing] values pass their own checks,
    [processOptions] prints exactly the error
    [--single-unit must be set when --libraries-inherit-macros is used] and
    returns false; nothing reaches the source loader or the source manager. *)
Theorem single_unit_required (d : Driver) :
  compatOk (options d) -> timingOk (options d) ->
  is_true (Options.librariesInheritMacros (options d)) = true ->
  value_or (Options.singleUnit (options d)) false = false ->
  exists d',
    PO d = (false, d') /\
    OS.err (os d') = OS.err (os d) ++
      errorChunks "--single-unit must be set when --libraries-inherit-macros is used" /\
    OS.out (os d') = OS.out (os d) /\
    sourceLoader d' = sourceLoader d /\
    sourceManager d' = sourceManager d.
Proof.
  intros Hc Ht Hl Hs.
  pose proof (processOptions_outcome d) as Hout.
  destruct Hout as [v Hv Hne|d1 v Hp Hm H1 H2 H3|d1 Hp _ _ _
                    |d1 v Hp _ Hsu _ _|d1 Hp _ Hsu _ _|d1 Hp _ Hsu _ _ _
                    |d1 Hp _ Hsu _ _ _].
  - destruct Hc as [Hc|Hc]; congruence.
  - destruct Ht as [Ht|[Ht|[Ht|Ht]]]; congruence.
  - destruct (profiled_frame d d1 Hp)
      as (_ & _ & _ & _ & _ & _ & _ & _ & _ & _ & _ & Sl & Sm & _ & Er & Ou & _).
    eexists. split; [reflexivity|].
    rewrite err_printError, Er. repeat split; assumption.
  - destruct Hsu; congruence.
  - destruct Hsu; congruence.
  - destruct Hsu; congruence.
  - destruct Hsu; congruence.
Qed.

(** C7: [vcs] is the only value [--compat] accepts.  For any other value [v]
    [processOptions] prints the error [invalid value for compat option: 'v']
    and returns false; it returns true only when the option is absent or
    [vcs]; and with [vcs] each of [allow-hierarchical-const],
    [allow-use-before-declare] and [relax-enum-conversions] ends up true
    unless it was given explicitly, in which case it keeps its value. *)
Theorem compat_option_checked (d : Driver) :
  (forall v, Options.compat (options d) = Some v -> v <> "vcs" ->
     exists d',
       PO d = (false, d') /\
       OS.err (os d') = OS.err (os d) ++
         errorChunks (format1 "invalid value for compat option: '" v "'") /\
       OS.out (os d') = OS.out (os d))
  /\ (fst (PO d) = true -> compatOk (options d))
  /\ (Options.compat (options d) = Some "vcs" ->
      let o' := options (snd (PO d)) in
      Options.allowHierarchicalConst o' =
        Some (value_or (Options.allowHierarchicalConst (options d)) true) /\
      Options.allowUseBeforeDeclare o' =
        Some (value_or (Options.allowUseBeforeDeclare (options d)) true) /\
      Options.relaxEnumConversions o' =
        Some (value_or (Options.relaxEnumConversions (options d)) true)).
Proof.
  pose proof (processOptions_outcome d) as Hout.
  split; [|split].
  - intros v Hv Hne.
    destruct Hout as [w Hw _|d1 w Hp|d1 Hp|d1 w Hp|d1 Hp|d1 Hp|d1 Hp];
      try (destruct Hp as [[Hp _]|[Hp _]]; congruence).
    assert (w = v) by congruence. subst w.
    destruct (afterColors_frame d) as (o' & E & He & Ho & _).
    eexists. split; [reflexivity|].
    rewrite err_printError, E. simpl. rewrite He, Ho. auto.
  - destruct Hout as [w Hw _|d1 w Hp|d1 Hp|d1 w Hp|d1 Hp|d1 Hp|d1 Hp];
      simpl; try discriminate.
    intros _. destruct Hp as [[Hp _]|[Hp _]]; [left|right]; exact Hp.
  - intros Hv.
    assert (Hprof : forall d1, profiled' d d1 -> options d1 = vcsDefaults (options d)).
    { intros d1 Hp. destruct (profiled_frame d d1 Hp) as ([Ho|[_ Ho]] & _); [|exact Ho].
      destruct Hp as [[Hp _]|[_ ->]]; [congruence|].
      destruct (afterColors_frame d) as (o' & E & _). rewrite E. reflexivity. }
    assert (Hreg : forall d1, profiled' d d1 ->
                     options (registerPaths isDirectory d1) =
                       lintDefault (vcsDefaults (options d))).
    { intros d1 Hp.
      destruct (registerPaths_after_profile d d1 Hp) as (Ro & _).
      rewrite Ro, (Hprof d1 Hp). reflexivity. }
    destruct (lintDefault_fields (vcsDefaults (options d)))
      as (_ & _ & _ & _ & L5 & L6 & L7).
    destruct Hout as [w Hw Hne|d1 w Hp|d1 Hp|d1 w Hp|d1 Hp|d1 Hp|d1 Hp];
      cbn [snd options printError with_os].
    + congruence.
    + rewrite (Hprof d1 Hp). auto.
    + rewrite (Hprof d1 Hp). auto.
    + rewrite (Hprof d1 Hp). auto.
    + rewrite (Hreg d1 Hp), L5, L6, L7. auto.
    + rewrite (Hreg d1 Hp), L5, L6, L7. auto.
    + destruct (configureDiagnostics_spec (showColorsOf fileSupportsColors d)
                  (registerPaths isDirectory d1)) as ([Ho _ _ _ _ _] & _).
      rewrite Ho, (Hreg d1 Hp), L5, L6, L7. auto.
Qed.

(** C10, as amended: when no earlier load has failed, the options pass the
    four validations, no [-v] library file is given and the source loader
    holds no file or pattern, [processOptions] prints the error
    [no input files] (after the warnings about missing include directories,
    if any) and returns false; when an earlier load has failed it returns
    false without printing that error. *)
Theorem no_input_files (d : Driver) :
  (compatOk (options d) -> timingOk (options d) ->
   singleUnitOk (options d) -> timeScaleOk' (options d) ->
   anyFailedLoads d = false ->
   SourceLoader.hasFiles (sourceLoader d) = false ->
   Options.libraryFiles (options d) = [] ->
   exists d' pre,
     PO d = (false, d') /\
     OS.err (os d') = (OS.err (os d) ++ pre) ++ errorChunks "no input files" /\
     Forall notNoInput pre /\
     OS.out (os d') = OS.out (os d))
  /\ (anyFailedLoads d = true ->
      exists d' pre,
        PO d = (false, d') /\
        OS.err (os d') = OS.err (os d) ++ pre /\
        Forall notNoInput pre).
Proof.
  pose proof (processOptions_outcome d) as Hout.
  split.
  - intros Hc Ht Hs Hts Hf Hh Hl.
    destruct Hout as [v Hv Hne|d1 v Hp Hm H1 H2 H3|d1 Hp _ Hl1 Hl2
                      |d1 v Hp _ _ Hv Hn|d1 Hp _ _ _ Hf'|d1 Hp _ _ _ _ Hh'
                      |d1 Hp _ _ _ _ Hh'].
    + destruct Hc; congruence.
    + destruct Ht as [Ht|[Ht|[Ht|Ht]]]; congruence.
    + destruct Hs; congruence.
    + destruct Hts as [Hts|(w & Hw & Hw')]; congruence.
    + congruence.
    + destruct (registerPaths_after_profile d d1 Hp)
        as (_ & _ & _ & _ & _ & _ & Ou & pre & Er & Fp).
      exists (printError "no input files" (registerPaths isDirectory d1)), pre.
      split; [reflexivity|].
      rewrite err_printError, Er. auto.
    + destruct (registerPaths_after_profile d d1 Hp)
        as (_ & _ & _ & _ & _ & Fe & _).
      unfold SourceLoader.hasFiles in Hh, Hh'.
      rewrite Fe, Hl in Hh'. simpl in Hh'. rewrite app_nil_r in Hh'. congruence.
  - intros Hf.
    destruct Hout as [v Hv Hne|d1 v Hp Hm H1 H2 H3|d1 Hp _ Hl1 Hl2
                      |d1 v Hp _ _ Hv Hn|d1 Hp _ _ _ Hf'|d1 Hp _ _ _ Hf' Hh'
                      |d1 Hp _ _ _ Hf' Hh']; try congruence.
    + destruct (afterColors_frame d) as (o' & E & He & _).
      eexists; eexists. split; [reflexivity|].
      rewrite err_printError, E. simpl. rewrite He. split; [reflexivity|].
      apply errorChunks_notNoInput. unfold format1. simpl. discriminate.
    + destruct (profiled_frame d d1 Hp)
        as (_ & _ & _ & _ & _ & _ & _ & _ & _ & _ & _ & _ & _ & _ & Er & _).
      eexists; eexists. split; [reflexivity|].
      rewrite err_printError, Er. split; [reflexivity|].
      apply errorChunks_notNoInput. unfold format1. simpl. discriminate.
    + destruct (profiled_frame d d1 Hp)
        as (_ & _ & _ & _ & _ & _ & _ & _ & _ & _ & _ & _ & _ & _ & Er & _).
      eexists; eexists. split; [reflexivity|].
      rewrite err_printError, Er. split; [reflexivity|].
      apply errorChunks_notNoInput. discriminate.
    + destruct (profiled_frame d d1 Hp)
        as (_ & _ & _ & _ & _ & _ & _ & _ & _ & _ & _ & _ & _ & _ & Er & _).
      eexists; eexists. split; [reflexivity|].
      rewrite err_printError, Er. split; [reflexivity|].
      apply errorChunks_notNoInput. unfold format1. simpl. discriminate.
    + destruct (registerPaths_after_profile d d1 Hp)
        as (_ & _ & _ & _ & _ & _ & _ & pre & Er & Fp).
      exists (registerPaths isDirectory d1), pre. auto.
Qed.

(** C9: the [exclude-ext] filter acts on positional arguments only.  A
    positional argument whose text after its last ['.'] is in the
    [exclude-ext] set leaves the driver, and so the source loader, as it was;
    any other positional argument is recorded with [addFiles]; and once the
    options pass validation every [-v] file is registered as a library file,
    whatever the [exclude-ext] set holds. *)
Theorem exclude_ext_positional_only :
  (forall pat d i,
     find_last_of "." pat = Some i ->
     substr (i + 1) pat ∈ Options.excludeExts (options d) ->
     onPositional pat d = d)
  /\ (forall pat d,
        find_last_of "." pat = None ->
        onPositional pat d =
          with_sourceLoader (SourceLoader.addFiles pat (sourceLoader d)) d)
  /\ (forall pat d i,
        find_last_of "." pat = Some i ->
        substr (i + 1) pat ∉ Options.excludeExts (options d) ->
        onPositional pat d =
          with_sourceLoader (SourceLoader.addFiles pat (sourceLoader d)) d)
  /\ (forall d,
        compatOk (options d) -> timingOk (options d) ->
        singleUnitOk (options d) -> timeScaleOk' (options d) ->
        SourceLoader.fileEntries (sourceLoader (snd (PO d))) =
          SourceLoader.fileEntries (sourceLoader d)
            ++ map libraryEntry (Options.libraryFiles (options d))).
Proof.
  split; [|split; [|split]].
  - intros pat d i Hi Hin. unfold onPositional.
    rewrite bool_decide_eq_false_2 by set_solver.
    rewrite Hi. simpl. rewrite bool_decide_eq_true_2 by exact Hin. reflexivity.
  - intros pat d Hi. unfold onPositional. rewrite Hi.
    destruct (negb _); reflexivity.
  - intros pat d i Hi Hin. unfold onPositional. rewrite Hi.
    rewrite (bool_decide_eq_false_2 _ Hin).
    destruct (negb _); reflexivity.
  - intros d Hc Ht Hs Hts.
    pose proof (processOptions_outcome d) as Hout.
    destruct Hout as [v Hv Hne|d1 v Hp Hm H1 H2 H3|d1 Hp _ Hl1 Hl2
                      |d1 v Hp _ _ Hv Hn|d1 Hp _ _ _ Hf'|d1 Hp _ _ _ _ Hh'
                      |d1 Hp _ _ _ _ Hh']; cbn [snd].
    + destruct Hc; congruence.
    + destruct Ht as [Ht|[Ht|[Ht|Ht]]]; congruence.
    + destruct Hs; congruence.
    + destruct Hts as [Hts|(w & Hw & Hw')]; congruence.
    + destruct (registerPaths_after_profile d d1 Hp)
        as (_ & _ & _ & _ & _ & Fe & _). exact Fe.
    + destruct (registerPaths_after_profile d d1 Hp)
        as (_ & _ & _ & _ & _ & Fe & _). exact Fe.
    + destruct (registerPaths_after_profile d d1 Hp)
        as (_ & _ & _ & _ & _ & Fe & _).
      destruct (configureDiagnostics_spec (showColorsOf fileSupportsColors d)
                  (registerPaths isDirectory d1)) as ([_ Hl _ _ _ _] & _).
      rewrite Hl. exact Fe.
Qed.

Variable default_ppoptions : PreprocessorOptions.t.
Variable default_loptions : LexerOptions.t.
Variable default_poptions : ParserOptions.t.
Variable default_coptions : CompilationOptions.t TimeScale.

(** C2, as amended: when [--error-limit n] is given, the error limit in the
    compilation options of the bag is [2 * n] computed in 32 bits, which is
    exactly twice [n] for [n] below [2^31]; when the option is not given the
    bag keeps the error limit of a default-constructed [CompilationOptions],
    while the diagnostic engine is given 20. *)
Theorem errorLimit_in_option_bag (d : Driver) :
  let limit :=
    CompilationOptions.errorLimit
      (bag_compilation
         (createOptionBag TimeScale TimeScale_fromString default_ppoptions
            default_loptions default_poptions default_coptions d)) in
  (forall n, Options.errorLimit (options d) = Some n -> limit = wrap32 (n * 2))
  /\ (forall n, Options.errorLimit (options d) = Some n ->
                (0 <= n < 2 ^ 31)%Z -> limit = (2 * n)%Z)
  /\ (Options.errorLimit (options d) = None ->
      limit = CompilationOptions.errorLimit default_coptions)
  /\ (forall d', PO d = (true, d') ->
        DiagnosticEngine.errorLimit (diagEngine d') =
          to_int (value_or (Options.errorLimit (options d)) 20%Z))
  /\ (forall d', PO d = (true, d') ->
        Options.errorLimit (options d) = None ->
        DiagnosticEngine.errorLimit (diagEngine d') = 20%Z).
Proof.
  cbv zeta. unfold createOptionBag. cbn [bag_compilation CompilationOptions.errorLimit].
  assert (Hengine : forall d', PO d = (true, d') ->
            DiagnosticEngine.errorLimit (diagEngine d') =
              to_int (value_or (Options.errorLimit (options d)) 20%Z)).
  { intros d' Hrun.
    pose proof (processOptions_outcome d) as Hout.
    rewrite Hrun in Hout. inversion Hout as [| | | | | |d1 Hp _ _ _ _ _ Hd']; subst.
    destruct (registerPaths_after_profile d d1 Hp) as (_ & _ & _ & El & _).
    destruct (configureDiagnostics_spec (showColorsOf fileSupportsColors d)
                (registerPaths isDirectory d1)) as (_ & Lim & _).
    rewrite Lim, El. reflexivity. }
  repeat split.
  - intros n Hn. rewrite Hn. reflexivity.
  - intros n Hn Hr. rewrite Hn. unfold wrap32.
    rewrite Z.mod_small by lia. lia.
  - intros Hn. rewrite Hn. reflexivity.
  - exact Hengine.
  - intros d' Hrun Hn. rewrite (Hengine d' Hrun), Hn. reflexivity.
Qed.

End OptionValidationFacts.

(** ** Command files and the working directory *)

(** Arguments that name no command file leave the process and the
    failed-loads flag alone. *)
Lemma runEvents_plain (pcf : string -> bool -> Driver -> option (bool * Driver))
    (evs : list CommandLine.Event) :
  forallb notCommandFile evs = true ->
  forall d, exists d',
    runEvents pcf evs d = Some d' /\ os d' = os d /\
    anyFailedLoads d' = anyFailedLoads d.
Proof.
  induction evs as [|ev evs IH]; intros Hall d; cbn [runEvents].
  - exists d. auto.
  - cbn [forallb] in Hall. apply andb_true_iff in Hall as [Hev Hall].
    destruct ev as [store|value|filePattern|fileName makeRelative|message];
      try discriminate Hev;
      match goal with
      | |- context [runEvents pcf evs ?x] =>
          destruct (IH Hall x) as (d' & Hrun & Hos & Hfl)
      end;
      exists d'; (split; [exact Hrun|]); rewrite Hos, Hfl; split; try reflexivity.
    all: unfold onPositional; destruct (if negb _ then _ else _); reflexivity.
Qed.

Section CommandFileFacts.

Variable canonical : Path -> string -> option Path.
Variable readFile : Path -> option string.
Variable parent_path : Path -> Path.
Variable isDirectory : Path -> bool.
Variable tokenize : CommandLine.ParseOptions -> string -> list CommandLine.Event.

Abbreviation PCF :=
  (processCommandFile canonical readFile parent_path isDirectory tokenize).

Abbreviation cwd d := (OS.current_path (os d)).

Lemma set_current_path_cases (p : Path) (o : OS.t) :
  isDirectory (OS.current_path o) = true ->
  isDirectory (OS.current_path (set_current_path isDirectory p o)) = true.
Proof.
  intros H. unfold set_current_path.
  destruct (isDirectory p) eqn:E; [exact E|exact H].
Qed.

Lemma set_current_path_back (p : Path) (o : OS.t) :
  isDirectory p = true ->
  OS.current_path (set_current_path isDirectory p o) = p.
Proof. intros H. unfold set_current_path. rewrite H. reflexivity. Qed.

Lemma printCmdLineErrors_cwd (d : Driver) : cwd (printCmdLineErrors d) = cwd d.
Proof.
  unfold printCmdLineErrors.
  apply (foldl_invariant (fun x => cwd x = cwd d)); [|reflexivity].
  intros x e Hx. exact Hx.
Qed.

Lemma onPositional_os (filePattern : string) (d : Driver) :
  os (onPositional filePattern d) = os d.
Proof. unfold onPositional. destruct (if negb _ then _ else _); reflexivity. Qed.

(** The callbacks run for the arguments of a command line leave the working
    directory as it was, as soon as nested command files do. *)
Lemma runEvents_cwd (pcf : string -> bool -> Driver -> option (bool * Driver)) :
  (forall fileName makeRelative d b d',
     isDirectory (cwd d) = true ->
     pcf fileName makeRelative d = Some (b, d') -> cwd d' = cwd d) ->
  forall evs d d',
    isDirectory (cwd d) = true ->
    runEvents pcf evs d = Some d' -> cwd d' = cwd d.
Proof.
  intros Hpcf evs.
  induction evs as [|ev evs IH]; intros d d' Hdir Hrun; simpl in Hrun.
  - congruence.
  - destruct ev as [store|value|filePattern|fileName makeRelative|message].
    + apply IH in Hrun; [exact Hrun|exact Hdir].
    + apply IH in Hrun; [exact Hrun|exact Hdir].
    + assert (Hd : isDirectory (cwd (onPositional filePattern d)) = true)
        by (rewrite onPositional_os; exact Hdir).
      apply IH in Hrun; [|exact Hd].
      rewrite Hrun, onPositional_os. reflexivity.
    + unfold onCommandFile in Hrun.
      destruct (pcf fileName makeRelative d) as [[ok d1]|] eqn:E; [|discriminate].
      pose proof (Hpcf _ _ _ _ _ Hdir E) as H1.
      apply IH in Hrun.
      * rewrite Hrun. destruct (negb ok); exact H1.
      * destruct (negb ok); simpl; rewrite H1; exact Hdir.
    + apply IH in Hrun; [exact Hrun|exact Hdir].
Qed.

Lemma processCommandFile_cwd (fuel : nat) :
  forall fileName makeRelative d b d',
    isDirectory (cwd d) = true ->
    PCF fuel fileName makeRelative d = Some (b, d') ->
    cwd d' = cwd d.
Proof.
  induction fuel as [|fuel IH]; intros fileName makeRelative d b d' Hdir Hrun;
    [discriminate|].
  simpl in Hrun.
  destruct (match canonical (cwd d) fileName with
            | Some path =>
                match readFile path with
                | Some buffer => Some (path, buffer)
                | None => None
                end
            | None => None
            end) as [[path buffer]|].
  2:{ inversion Hrun; subst. reflexivity. }
  destruct buffer as [|a buffer]; [discriminate|].
  set (d1 := if makeRelative
             then with_os (set_current_path isDirectory (parent_path path) (os d)) d
             else d) in Hrun.
  assert (Hdir1 : isDirectory (cwd d1) = true).
  { subst d1. destruct makeRelative; [|exact Hdir].
    simpl. apply set_current_path_cases, Hdir. }
  unfold cmdLine_parse in Hrun.
  destruct (runEvents (PCF fuel) _ d1) as [d2|] eqn:Ev; [|discriminate].
  pose proof (runEvents_cwd (PCF fuel) IH _ _ _ Hdir1 Ev) as H2.
  set (d3 := if makeRelative
             then with_os (set_current_path isDirectory
                             (if makeRelative then cwd d else EmptyString) (os d2)) d2
             else d2) in Hrun.
  assert (H3 : cwd d3 = cwd d).
  { subst d3 d1. destruct makeRelative; simpl.
    - apply set_current_path_back, Hdir.
    - exact H2. }
  destruct (negb _) in Hrun; inversion Hrun; subst.
  - rewrite printCmdLineErrors_cwd. exact H3.
  - exact H3.
Qed.

Abbreviation commandFileOpts :=
  {| CommandLine.expandEnvVars := true;
     CommandLine.ignoreProgramName := true;
     CommandLine.supportComments := true;
     CommandLine.ignoreDuplicates := true |}.

(** [processCommandFile] on a file that is found and read and names no
    further command file: the working directory it returns with is the one
    the two calls of [fs::current_path] leave, if they are made. *)
Lemma processCommandFile_plain (fuel : nat) (fileName : string) (makeRelative : bool)
    (d : Driver) (path : Path) (a : ascii) (buffer : string) :
  canonical (cwd d) fileName = Some path ->
  readFile path = Some (String a buffer) ->
  forallb notCommandFile (tokenize commandFileOpts (pop_back (String a buffer))) = true ->
  exists b d',
    PCF (S fuel) fileName makeRelative d = Some (b, d') /\
    cwd d' =
      if makeRelative
      then cwd (with_os (set_current_path isDirectory (cwd d)
                           (set_current_path isDirectory (parent_path path) (os d))) d)
      else cwd d.
Proof.
  intros Hc Hr Hplain. cbn [processCommandFile]. rewrite Hc, Hr.
  unfold cmdLine_parse.
  destruct (runEvents_plain (PCF fuel) _ Hplain
              (if makeRelative
               then with_os (set_current_path isDirectory (parent_path path) (os d)) d
               else d)) as (d2 & -> & Hos & _).
  destruct (negb _); eexists; eexists; (split; [reflexivity|]);
    rewrite ?(printCmdLineErrors_cwd);
    destruct makeRelative; cbn [os with_os]; rewrite Hos; reflexivity.
Qed.

(** C8, as amended: started in a directory that can be entered again,
    [processCommandFile] returns with the working directory it was called
    with, for [-F] (where it switches to the directory of the command file
    before parsing it) as for [-f], whether the file could not be opened,
    its contents failed to parse, or all went well; and between the
    arguments of a command line the working directory is always the one the
    parse started in.  For [-f] the function itself never changes the
    working directory: on a file that names no further command file it
    returns where it was called, wherever that is.  For [-F] the error code
    of the restoring [fs::current_path] is dropped: called where the
    working directory cannot be entered again, on such a file in a
    directory that exists, it returns in the directory of the command
    file. *)
Theorem working_directory_restored :
  (forall fuel fileName makeRelative d b d',
     isDirectory (cwd d) = true ->
     PCF fuel fileName makeRelative d = Some (b, d') ->
     cwd d' = cwd d)
  /\ (forall fuel evs d d',
        isDirectory (cwd d) = true ->
        runEvents (PCF fuel) evs d = Some d' ->
        cwd d' = cwd d)
  /\ (forall fuel fileName d path a buffer,
        canonical (cwd d) fileName = Some path ->
        readFile path = Some (String a buffer) ->
        forallb notCommandFile
          (tokenize commandFileOpts (pop_back (String a buffer))) = true ->
        exists b d',
          PCF (S fuel) fileName false d = Some (b, d') /\ cwd d' = cwd d)
  /\ (forall fuel fileName d path a buffer,
        canonical (cwd d) fileName = Some path ->
        readFile path = Some (String a buffer) ->
        forallb notCommandFile
          (tokenize commandFileOpts (pop_back (String a buffer))) = true ->
        isDirectory (parent_path path) = true ->
        isDirectory (cwd d) = false ->
        exists b d',
          PCF (S fuel) fileName true d = Some (b, d') /\ cwd d' = parent_path path).
Proof.
  split; [|split; [|split]].
  - intros fuel. apply processCommandFile_cwd.
  - intros fuel. apply runEvents_cwd. apply processCommandFile_cwd.
  - intros fuel fileName d path a buffer Hc Hr Hplain.
    exact (processCommandFile_plain fuel fileName false d path a buffer Hc Hr Hplain).
  - intros fuel fileName d path a buffer Hc Hr Hplain Hparent Hgone.
    destruct (processCommandFile_plain fuel fileName true d path a buffer Hc Hr Hplain)
      as (b & d' & Hrun & Hcwd).
    exists b, d'. split; [exact Hrun|].
    rewrite Hcwd. unfold set_current_path. rewrite Hparent.
    cbn [os with_os OS.current_path OS.set_current_path_raw].
    rewrite Hgone. reflexivity.
Qed.

End CommandFileFacts.

(** ** Preprocess-only mode *)

Lemma printAll_print (tok : Token) (l : list Token) (p : SyntaxPrinter.t) :
  SyntaxPrinter.print tok (printAll l p) = printAll (l ++ [tok]) p.
Proof. unfold SyntaxPrinter.print, printAll. simpl. rewrite app_assoc. reflexivity. Qed.

Lemma printAll_printAll (l1 l2 : list Token) (p : SyntaxPrinter.t) :
  printAll l2 (printAll l1 p) = printAll (l1 ++ l2) p.
Proof. unfold printAll. simpl. rewrite app_assoc. reflexivity. Qed.

Lemma print_printAll (tok : Token) (p : SyntaxPrinter.t) :
  SyntaxPrinter.print tok p = printAll [tok] p.
Proof. reflexivity. Qed.

Lemma glyph_at (i : nat) :
  i <= 61 ->
  exists c, String.get i chars = Some c /\ isGlyph c = true.
Proof.
  intros Hi.
  do 62 (destruct i as [|i]; [eexists; split; [reflexivity|vm_compute; reflexivity]|]).
  lia.
Qed.

Section RandomStringFacts.

Variable TGenerator : Type.
Variable getUniformIntDist : TGenerator -> nat -> nat -> nat * TGenerator.

(** [getUniformIntDist] returns a value between its bounds. *)
Hypothesis dist_range :
  forall gen lo hi, lo <= hi ->
    lo <= fst (getUniformIntDist gen lo hi) <= hi.

Lemma generate_n_length (n : nat) (gen : TGenerator) :
  String.length (fst (generate_n TGenerator getUniformIntDist n gen)) = n.
Proof.
  revert gen. induction n as [|n IH]; intros gen; simpl; [reflexivity|].
  destruct (getUniformIntDist gen 0 61) as [i gen1].
  specialize (IH gen1).
  destruct (generate_n TGenerator getUniformIntDist n gen1) as [rest gen2].
  simpl in *. congruence.
Qed.

Lemma generate_n_glyphs (n : nat) (gen : TGenerator) :
  forallb isGlyph
    (String.list_ascii_of_string (fst (generate_n TGenerator getUniformIntDist n gen)))
  = true.
Proof.
  revert gen. induction n as [|n IH]; intros gen; [reflexivity|].
  cbn [generate_n]. change (String.length chars - 1) with 61.
  pose proof (dist_range gen 0 61 ltac:(lia)) as Hr.
  destruct (getUniformIntDist gen 0 61) as [i gen1]. cbn [fst] in Hr.
  specialize (IH gen1).
  destruct (generate_n TGenerator getUniformIntDist n gen1) as [rest gen2].
  cbn [fst] in *.
  destruct (glyph_at i ltac:(lia)) as (c & Hc & Hg).
  rewrite Hc. cbn [String.list_ascii_of_string forallb].
  rewrite Hg, IH. reflexivity.
Qed.

Lemma generated_alphanumeric16 (gen : TGenerator) :
  alphanumeric16
    (fst (generateRandomAlphanumericString TGenerator getUniformIntDist gen 16)) = true.
Proof.
  unfold alphanumeric16, generateRandomAlphanumericString.
  rewrite generate_n_length, generate_n_glyphs. reflexivity.
Qed.

End RandomStringFacts.

Section PreprocessingFacts.

Variable valueText : Token -> string.
Variable isPossibleVectorDigit : TokenKind.t -> bool.
Variable mt19937 : Type.
Variable getUniformIntDist : mt19937 -> nat -> nat -> nat * mt19937.

(** The end of file is not a digit: the digit loop stops there. *)
Hypothesis eof_not_digit : isPossibleVectorDigit TokenKind.EndOfFile = false.

Abbreviation newName gen :=
  (generateRandomAlphanumericString mt19937 getUniformIntDist gen 16).
Abbreviation LOOP := (tokenLoop valueText isPossibleVectorDigit mt19937 getUniformIntDist).
Abbreviation DIGITS := (vectorDigits isPossibleVectorDigit).
Abbreviation REWRITTEN := (rewritten valueText isPossibleVectorDigit).
Abbreviation RUN := (digitRun isPossibleVectorDigit).
Abbreviation ITER := (iterationTail valueText mt19937 getUniformIntDist).
Abbreviation FINISHED := (finished valueText isPossibleVectorDigit).
Abbreviation RESULT := (loopResult mt19937).

Lemma digitRun_length (ts : list Token) : length (snd (RUN ts)) <= length ts.
Proof.
  induction ts as [|t r IH]; simpl; [lia|].
  destruct (isPossibleVectorDigit (kind t)); [|simpl; lia].
  destruct (RUN r) as [ds rest]. simpl in *. lia.
Qed.

Lemma digitRun_stops (ts : list Token) :
  isPossibleVectorDigit (kind (fst (next (snd (RUN ts))))) = false.
Proof.
  induction ts as [|t r IH]; simpl; [exact eof_not_digit|].
  destruct (isPossibleVectorDigit (kind t)) eqn:E; [|simpl; exact E].
  destruct (RUN r) as [ds rest]. exact IH.
Qed.

Lemma vectorDigits_spec (ts : list Token) :
  forall fuel token output,
    length ts < fuel ->
    DIGITS fuel token ts output =
      Some (fst (next (snd (RUN ts))), snd (next (snd (RUN ts))),
            printAll (token :: fst (RUN ts)) output).
Proof.
  induction ts as [|t r IH]; intros fuel token output Hf;
    (destruct fuel as [|fuel]; [simpl in Hf; lia|]); simpl.
  - rewrite eof_not_digit. reflexivity.
  - destruct (isPossibleVectorDigit (kind t)) eqn:E; [|reflexivity].
    rewrite IH by (simpl in Hf; lia).
    destruct (RUN r) as [ds rest]. simpl.
    rewrite print_printAll, printAll_printAll. reflexivity.
Qed.

Lemma tokenLoop_unfold (fuel : nat) (obfuscateIds : bool) (ts : list Token)
    (output : SyntaxPrinter.t) (rng : option mt19937) (m : gmap string string) :
  LOOP (S fuel) obfuscateIds ts output rng m =
    match
      if bool_decide (kind (fst (next ts)) = TokenKind.IntegerBase)
      then DIGITS fuel (fst (next ts)) (snd (next ts)) output
      else Some (fst (next ts), snd (next ts), output)
    with
    | None => None
    | Some (token, ts', output) =>
        ITER (LOOP fuel obfuscateIds) obfuscateIds token ts' output rng m
    end.
Proof. simpl. destruct (next ts) as [token ts']. reflexivity. Qed.

Lemma rewritten_outside_run (obf : bool) (M : gmap string string) (ts : list Token) :
  kind (fst (next ts)) <> TokenKind.IntegerBase ->
  REWRITTEN obf M false ts = FINISHED obf M (fst (next ts)) (snd (next ts)).
Proof.
  intros Hk. destruct ts as [|t r]; simpl in *.
  - unfold finished, rewriteToken. simpl.
    rewrite andb_false_r. reflexivity.
  - rewrite (bool_decide_eq_false_2 _ Hk). reflexivity.
Qed.

Lemma rewritten_closing_run (obf : bool) (M : gmap string string) (ts : list Token) :
  isPossibleVectorDigit (kind (fst (next ts))) = false ->
  REWRITTEN obf M true ts = FINISHED obf M (fst (next ts)) (snd (next ts)).
Proof.
  intros Hk. destruct ts as [|t r]; simpl in *.
  - unfold finished, rewriteToken. simpl.
    rewrite andb_false_r. reflexivity.
  - rewrite Hk. reflexivity.
Qed.

Lemma rewritten_digitRun (obf : bool) (M : gmap string string) (ts : list Token) :
  REWRITTEN obf M true ts =
    app (fst (RUN ts)) <$> REWRITTEN obf M true (snd (RUN ts)).
Proof.
  induction ts as [|t r IH].
  - simpl. reflexivity.
  - cbn [digitRun]. destruct (isPossibleVectorDigit (kind t)) eqn:E.
    + cbn [rewritten]. rewrite E. cbn [andb orb]. rewrite IH.
      destruct (RUN r) as [ds rest]. cbn [fst snd].
      destruct (REWRITTEN obf M true rest); reflexivity.
    + cbn [fst snd]. destruct (REWRITTEN obf M true (t :: r)); reflexivity.
Qed.

Section LoopInvariant.

Variable I : gmap string string -> option mt19937 -> Prop.

Hypothesis I_insert :
  forall m gen name,
    I m (Some gen) -> m !! name = None ->
    I (<[name := fst (newName gen)]> m) (Some (snd (newName gen))).

Lemma iterationTail_spec (obf : bool) (fuel : nat) :
  (forall ts output rng m,
     length ts < fuel -> (obf = true -> is_Some rng) -> I m rng ->
     RESULT I obf (fun M => REWRITTEN obf M false ts) output m
       (LOOP fuel obf ts output rng m)) ->
  forall token ts output rng m,
    kind token = TokenKind.EndOfFile \/ length ts < fuel ->
    (obf = true -> is_Some rng) -> I m rng ->
    RESULT I obf (fun M => FINISHED obf M token ts) output m
      (ITER (LOOP fuel obf) obf token ts output rng m).
Proof.
  intros IH token ts output rng m Hlen Hrng HI.
  unfold iterationTail, finished, rewriteToken.
  destruct (obf && bool_decide (kind token = TokenKind.Identifier)) eqn:E.
  - apply andb_true_iff in E as [-> Hid]. apply bool_decide_eq_true in Hid.
    destruct (Hrng eq_refl) as [gen ->].
    assert (Hne : kind token <> TokenKind.EndOfFile) by (rewrite Hid; discriminate).
    destruct Hlen as [Hlen|Hlen]; [contradiction|].
    unfold obfuscate.
    destruct (m !! valueText token) as [tr|] eqn:Em.
    + cbn [withRawText kind]. rewrite (bool_decide_eq_false_2 _ Hne).
      destruct (IH ts (SyntaxPrinter.print (withRawText token tr) output) (Some gen) m
                  Hlen Hrng HI) as (l & rng' & M & -> & Hsub & Hspec & HM & Hr).
      exists (withRawText token tr :: l), rng', M.
      rewrite print_printAll, printAll_printAll.
      rewrite (lookup_weaken _ _ _ _ Em Hsub), Hspec. simpl. auto.
    + destruct (newName gen) as [nm gen1] eqn:Eg.
      cbn [withRawText kind]. rewrite (bool_decide_eq_false_2 _ Hne).
      pose proof (I_insert m gen (valueText token) HI Em) as HI1.
      rewrite Eg in HI1. cbn [fst snd] in HI1.
      destruct (IH ts (SyntaxPrinter.print (withRawText token nm) output) (Some gen1)
                  (<[valueText token := nm]> m) Hlen (fun _ => mk_is_Some _ _ eq_refl) HI1)
        as (l & rng' & M & -> & Hsub & Hspec & HM & Hr).
      exists (withRawText token nm :: l), rng', M.
      rewrite print_printAll, printAll_printAll.
      assert (HMn : M !! valueText token = Some nm)
        by (eapply lookup_weaken; [apply lookup_insert_eq|exact Hsub]).
      rewrite HMn, Hspec. simpl. repeat split; auto.
      etrans; [apply insert_subseteq; exact Em|exact Hsub].
  - destruct (bool_decide (kind token = TokenKind.EndOfFile)) eqn:Ee.
    + exists [token], rng, m. rewrite print_printAll. auto.
    + apply bool_decide_eq_false in Ee.
      destruct Hlen as [Hlen|Hlen]; [contradiction|].
      destruct (IH ts (SyntaxPrinter.print token output) rng m Hlen Hrng HI)
        as (l & rng' & M & -> & Hsub & Hspec & HM & Hr).
      exists (token :: l), rng', M.
      rewrite print_printAll, printAll_printAll, Hspec. simpl. auto.
Qed.

Lemma tokenLoop_spec (obf : bool) (fuel : nat) :
  forall ts output rng m,
    length ts < fuel -> (obf = true -> is_Some rng) -> I m rng ->
    RESULT I obf (fun M => REWRITTEN obf M false ts) output m
      (LOOP fuel obf ts output rng m).
Proof.
  induction fuel as [|fuel IH]; intros ts output rng m Hlen Hrng HI; [lia|].
  rewrite tokenLoop_unfold.
  destruct (bool_decide (kind (fst (next ts)) = TokenKind.IntegerBase)) eqn:Eb.
  - apply bool_decide_eq_true in Eb.
    destruct ts as [|t r]; [discriminate Eb|]. cbn [next fst snd] in *.
    rewrite vectorDigits_spec by (simpl in Hlen; lia).
    pose proof (digitRun_length r) as Hrl.
    pose proof (digitRun_stops r) as Hstop.
    assert (Hlen2 : kind (fst (next (snd (RUN r)))) = TokenKind.EndOfFile \/
                    length (snd (next (snd (RUN r)))) < fuel).
    { destruct (snd (RUN r)) as [|t2 ts2]; [left; reflexivity|right].
      simpl in *. lia. }
    destruct (iterationTail_spec obf fuel IH _ _
                (printAll (t :: fst (RUN r)) output) rng m Hlen2 Hrng HI)
      as (l & rng' & M & -> & Hsub & Hspec & HM & Hr).
    exists ((t :: fst (RUN r)) ++ l), rng', M.
    rewrite printAll_printAll. repeat split; auto.
    cbn [rewritten]. rewrite (bool_decide_eq_true_2 _ Eb). cbn [negb andb orb].
    rewrite rewritten_digitRun, (rewritten_closing_run _ _ _ Hstop), Hspec.
    reflexivity.
  - apply bool_decide_eq_false in Eb.
    assert (Hlen2 : kind (fst (next ts)) = TokenKind.EndOfFile \/
                    length (snd (next ts)) < fuel).
    { destruct ts as [|t r]; [left; reflexivity|right]. simpl in *. lia. }
    destruct (iterationTail_spec obf fuel IH _ _ output rng m Hlen2 Hrng HI)
      as (l & rng' & M & -> & Hsub & Hspec & HM & Hr).
    exists l, rng', M. repeat split; auto.
    rewrite (rewritten_outside_run _ _ _ Eb). exact Hspec.
Qed.

End LoopInvariant.

End PreprocessingFacts.

(** ** Obfuscation: the loop against the specification

    Where no integer base ends a digit run, the loop prints the stream the
    specification describes and ends with the table it describes. *)

Section ObfuscationFacts.

Variable valueText : Token -> string.
Variable isPossibleVectorDigit : TokenKind.t -> bool.
Variable mt19937 : Type.
Variable getUniformIntDist : mt19937 -> nat -> nat -> nat * mt19937.

Hypothesis eof_not_digit : isPossibleVectorDigit TokenKind.EndOfFile = false.

Abbreviation LOOP3 :=
  (tokenLoop valueText isPossibleVectorDigit mt19937 getUniformIntDist).
Abbreviation ITER3 := (iterationTail valueText mt19937 getUniformIntDist).
Abbreviation RUN3 := (digitRun isPossibleVectorDigit).
Abbreviation NAMES := (spec_replacedNames valueText isPossibleVectorDigit).
Abbreviation ENDS := (spec_baseEndsRun isPossibleVectorDigit).
Abbreviation TABLE := (spec_table mt19937 getUniformIntDist).
Abbreviation EMITTED := (spec_obfuscated valueText isPossibleVectorDigit).
Abbreviation GEN := (nthGenerator mt19937 getUniformIntDist).
Abbreviation NAME := (nthName mt19937 getUniformIntDist).

(** The names to replace from a token met outside a digit run on. *)
Abbreviation namesFrom token ts :=
  (if bool_decide (kind token = TokenKind.EndOfFile) then []
   else if bool_decide (kind token = TokenKind.Identifier)
        then valueText token :: NAMES false ts
        else NAMES false ts).

(** Where the loop and the specification part: where they agree, the stream
    the loop prints is the one specified. *)
Lemma rewritten_as_specified (M : gmap string string) (ts : list Token) :
  forall inRun,
    ENDS inRun ts = false ->
    rewritten valueText isPossibleVectorDigit true M inRun ts = EMITTED M inRun ts.
Proof.
  induction ts as [|t r IH]; intros inRun Hends; [reflexivity|].
  cbn [rewritten spec_obfuscated spec_baseEndsRun] in *.
  destruct (inRun && isPossibleVectorDigit (kind t)) eqn:Ed; cbn [orb].
  - rewrite (IH true Hends). reflexivity.
  - destruct (bool_decide (kind t = TokenKind.IntegerBase)) eqn:Eb.
    + apply orb_false_iff in Hends as [-> Hends]. cbn [negb andb].
      rewrite (IH true Hends). reflexivity.
    + rewrite andb_false_r.
      destruct (rewriteToken valueText true M t) as [t'|]; [|reflexivity].
      destruct (bool_decide (kind t = TokenKind.EndOfFile)); [reflexivity|].
      rewrite (IH false Hends). reflexivity.
Qed.

Lemma names_digitRun (ts : list Token) :
  NAMES true ts = NAMES true (snd (RUN3 ts)) /\
  ENDS true ts = ENDS true (snd (RUN3 ts)).
Proof.
  induction ts as [|t r IH]; [split; reflexivity|].
  cbn [digitRun]. destruct (isPossibleVectorDigit (kind t)) eqn:E.
  - cbn [spec_replacedNames spec_baseEndsRun]. rewrite E. cbn [andb].
    destruct (RUN3 r) as [ds rest]. exact IH.
  - split; reflexivity.
Qed.

(** The token after a digit run, when no integer base ends the run. *)
Lemma names_closing (ts : list Token) :
  isPossibleVectorDigit (kind (fst (next ts))) = false ->
  ENDS true ts = false ->
  NAMES true ts = namesFrom (fst (next ts)) (snd (next ts)) /\
  (kind (fst (next ts)) = TokenKind.EndOfFile \/ ENDS false (snd (next ts)) = false).
Proof.
  destruct ts as [|t r]; cbn [next fst snd spec_replacedNames spec_baseEndsRun].
  - intros _ _. split; [reflexivity|left; reflexivity].
  - intros -> Hends. cbn [andb] in *.
    destruct (bool_decide (kind t = TokenKind.IntegerBase)); [discriminate Hends|].
    split; [reflexivity|].
    destruct (bool_decide (kind t = TokenKind.EndOfFile)) eqn:Ee.
    + left. apply bool_decide_eq_true in Ee. exact Ee.
    + right. exact Hends.
Qed.

(** A token met outside a digit run that is no integer base. *)
Lemma names_outside (ts : list Token) :
  kind (fst (next ts)) <> TokenKind.IntegerBase ->
  ENDS false ts = false ->
  NAMES false ts = namesFrom (fst (next ts)) (snd (next ts)) /\
  (kind (fst (next ts)) = TokenKind.EndOfFile \/ ENDS false (snd (next ts)) = false).
Proof.
  destruct ts as [|t r]; cbn [next fst snd spec_replacedNames spec_baseEndsRun].
  - intros _ _. split; [reflexivity|left; reflexivity].
  - intros Hb Hends. cbn [andb] in *.
    rewrite (bool_decide_eq_false_2 _ Hb) in *.
    split; [reflexivity|].
    destruct (bool_decide (kind t = TokenKind.EndOfFile)) eqn:Ee.
    + left. apply bool_decide_eq_true in Ee. exact Ee.
    + right. exact Hends.
Qed.

Lemma newName_nth (gen : mt19937) (k : nat) :
  generateRandomAlphanumericString mt19937 getUniformIntDist (GEN gen k) 16 =
    (NAME gen k, GEN gen (S k)).
Proof.
  unfold nthName. cbn [nthGenerator].
  destruct (generateRandomAlphanumericString mt19937 getUniformIntDist (GEN gen k) 16).
  reflexivity.
Qed.

Section FromGenerator.

Variable gen : mt19937.

(** One iteration from the obfuscation test on: the generator and the table
    it leads to, given those of the iterations that follow. *)
Lemma iterationTail_table (fuel : nat) :
  (forall ts output m,
     length ts < fuel -> ENDS false ts = false ->
     exists out,
       LOOP3 fuel true ts output (Some (GEN gen (size m))) m =
         Some (out, Some (GEN gen (size (TABLE gen m (NAMES false ts)))),
               TABLE gen m (NAMES false ts))) ->
  forall token ts output m,
    kind token = TokenKind.EndOfFile \/ length ts < fuel ->
    kind token = TokenKind.EndOfFile \/ ENDS false ts = false ->
    exists out,
      ITER3 (LOOP3 fuel true) true token ts output (Some (GEN gen (size m))) m =
        Some (out, Some (GEN gen (size (TABLE gen m (namesFrom token ts)))),
              TABLE gen m (namesFrom token ts)).
Proof.
  intros IH token ts output m Hlen Hends.
  unfold iterationTail. cbn [andb].
  destruct (bool_decide (kind token = TokenKind.Identifier)) eqn:Ei.
  - apply bool_decide_eq_true in Ei.
    assert (Hne : kind token <> TokenKind.EndOfFile) by (rewrite Ei; discriminate).
    destruct Hlen as [Hlen|Hlen]; [contradiction|].
    destruct Hends as [Hends|Hends]; [contradiction|].
    rewrite (bool_decide_eq_false_2 _ Hne).
    unfold obfuscate. cbn [spec_table].
    destruct (m !! valueText token) as [tr|] eqn:Em.
    + cbn [withRawText kind]. rewrite (bool_decide_eq_false_2 _ Hne).
      apply IH; assumption.
    + rewrite newName_nth. cbn [withRawText kind].
      rewrite (bool_decide_eq_false_2 _ Hne).
      rewrite <- (map_size_insert_None (valueText token) (NAME gen (size m)) m Em).
      apply IH; assumption.
  - destruct (bool_decide (kind token = TokenKind.EndOfFile)) eqn:Ee.
    + eexists. reflexivity.
    + apply bool_decide_eq_false in Ee.
      destruct Hlen as [Hlen|Hlen]; [contradiction|].
      destruct Hends as [Hends|Hends]; [contradiction|].
      apply IH; assumption.
Qed.

(** The loop with obfuscation, from the table [m] and the generator that has
    yielded one name per entry of [m]: it returns, with the table and the
    generator the specification describes. *)
Lemma tokenLoop_table (fuel : nat) :
  forall ts output m,
    length ts < fuel -> ENDS false ts = false ->
    exists out,
      LOOP3 fuel true ts output (Some (GEN gen (size m))) m =
        Some (out, Some (GEN gen (size (TABLE gen m (NAMES false ts)))),
              TABLE gen m (NAMES false ts)).
Proof.
  induction fuel as [|fuel IH]; intros ts output m Hlen Hends; [lia|].
  rewrite tokenLoop_unfold.
  destruct (bool_decide (kind (fst (next ts)) = TokenKind.IntegerBase)) eqn:Eb.
  - apply bool_decide_eq_true in Eb.
    destruct ts as [|t r]; [discriminate Eb|]. cbn [next fst snd] in *.
    rewrite (vectorDigits_spec isPossibleVectorDigit eof_not_digit)
      by (simpl in Hlen; lia).
    pose proof (digitRun_length isPossibleVectorDigit r) as Hrl.
    pose proof (digitRun_stops isPossibleVectorDigit eof_not_digit r) as Hstop.
    cbn [spec_replacedNames spec_baseEndsRun] in *.
    rewrite (bool_decide_eq_true_2 _ Eb) in *.
    replace (false && isPossibleVectorDigit (kind t)) with false in * by reflexivity.
    cbn [orb] in Hends.
    destruct (names_digitRun r) as [Hn He]. rewrite Hn. rewrite He in Hends.
    destruct (names_closing _ Hstop Hends) as [Hn2 Hends2]. rewrite Hn2.
    apply (iterationTail_table fuel IH); [|exact Hends2].
    destruct (snd (RUN3 r)) as [|t2 ts2]; [left; reflexivity|right].
    simpl in *. lia.
  - apply bool_decide_eq_false in Eb.
    destruct (names_outside _ Eb Hends) as [Hn Hends2]. rewrite Hn.
    apply (iterationTail_table fuel IH); [|exact Hends2].
    destruct ts as [|t r]; [left; reflexivity|right]. simpl in *. lia.
Qed.

(** *** The table *)

Lemma table_extends (names : list string) :
  forall m, m ⊆ TABLE gen m names.
Proof.
  induction names as [|name r IH]; intros m; cbn [spec_table]; [reflexivity|].
  destruct (m !! name) eqn:Em; [apply IH|].
  etrans; [apply insert_subseteq; exact Em|apply IH].
Qed.

(** The names of a table in the order in which they entered it: the
    [i]-th of them has the [i]-th string of the generator. *)
Abbreviation enumerated m keys :=
  (NoDup keys /\ length keys = size m /\
   forall name r, m !! name = Some r <->
                  exists i, keys%list !! i = Some name /\ r = NAME gen i).

Lemma enumerated_insert (m : gmap string string) (keys : list string) (name : string) :
  enumerated m keys -> m !! name = None ->
  enumerated (<[name := NAME gen (size m)]> m) (keys ++ [name]).
Proof.
  intros (Hnd & Hlen & Hiff) Hnone.
  assert (Hfresh : name ∉ keys).
  { intros Hin. apply list_elem_of_lookup_1 in Hin as [i Hi].
    assert (Hs : m !! name = Some (NAME gen i)) by (apply Hiff; exists i; auto).
    rewrite Hnone in Hs. discriminate Hs. }
  split; [|split].
  - apply NoDup_app. split; [exact Hnd|]. split; [|apply NoDup_singleton].
    intros x Hx Hx'. apply list_elem_of_singleton in Hx'. subst x. contradiction.
  - rewrite length_app, (map_size_insert_None _ _ _ Hnone). cbn. lia.
  - intros n r. rewrite lookup_insert.
    destruct (decide (name = n)) as [->|Hne]; split.
    + intros [= <-]. exists (length keys).
      rewrite lookup_app_r, Nat.sub_diag, Hlen by lia. auto.
    + intros (i & Hi & ->).
      destruct (decide (i < length keys)) as [Hlt|Hge].
      * rewrite lookup_app_l in Hi by exact Hlt.
        exfalso. apply Hfresh. eapply list_elem_of_lookup_2, Hi.
      * apply lookup_lt_Some in Hi as Hb. rewrite length_app in Hb. cbn in Hb.
        assert (i = size m) by lia. subst i. reflexivity.
    + intros Hn. apply Hiff in Hn as (i & Hi & ->). exists i.
      split; [|reflexivity]. apply lookup_app_l_Some, Hi.
    + intros (i & Hi & ->). apply Hiff. exists i. split; [|reflexivity].
      destruct (decide (i < length keys)) as [Hlt|Hge].
      * rewrite lookup_app_l in Hi by exact Hlt. exact Hi.
      * rewrite lookup_app_r in Hi by lia.
        destruct (i - length keys) as [|k]; [|discriminate Hi].
        injection Hi as Hi. contradiction.
Qed.

Lemma table_enumerated (names : list string) :
  forall m keys, enumerated m keys -> exists keys', enumerated (TABLE gen m names) keys'.
Proof.
  induction names as [|name r IH]; intros m keys He; cbn [spec_table].
  - exists keys. exact He.
  - destruct (m !! name) eqn:Em; [eapply IH, He|].
    eapply IH, enumerated_insert; [exact He|exact Em].
Qed.

(** What an enumerated table says of replacements: each is one of the first
    strings of the generator, as many as the table has entries, and no two
    names share a replacement exactly when those strings are all different. *)
Lemma enumerated_names (M : gmap string string) (keys : list string) :
  enumerated M keys ->
  (forall name r, M !! name = Some r -> exists i, i < size M /\ r = NAME gen i) /\
  ((forall i j, i < j < size M -> NAME gen i <> NAME gen j) <->
   (forall n1 n2 r, M !! n1 = Some r -> M !! n2 = Some r -> n1 = n2)).
Proof.
  intros (Hnd & Hlen & Hiff). split; [|split].
  - intros name r Hn. apply Hiff in Hn as (i & Hi & ->). exists i.
    split; [|reflexivity]. rewrite <- Hlen. eapply lookup_lt_Some, Hi.
  - intros Hdist n1 n2 r H1 H2.
    apply Hiff in H1 as (i & Hi & ->). apply Hiff in H2 as (j & Hj & Hr).
    assert (Hib : i < size M) by (rewrite <- Hlen; eapply lookup_lt_Some, Hi).
    assert (Hjb : j < size M) by (rewrite <- Hlen; eapply lookup_lt_Some, Hj).
    destruct (Nat.lt_trichotomy i j) as [Hlt|[->|Hgt]].
    + exfalso. apply (Hdist i j); [lia|exact Hr].
    + congruence.
    + exfalso. apply (Hdist j i); [lia|symmetry; exact Hr].
  - intros Hinj i j [Hij Hj] Heq. rewrite <- Hlen in Hj.
    destruct (lookup_lt_is_Some_2 keys i ltac:(lia)) as [n1 H1].
    destruct (lookup_lt_is_Some_2 keys j Hj) as [n2 H2].
    assert (M1 : M !! n1 = Some (NAME gen i)) by (apply Hiff; exists i; auto).
    assert (M2 : M !! n2 = Some (NAME gen i))
      by (apply Hiff; exists j; split; [exact H2|exact Heq]).
    pose proof (Hinj n1 n2 _ M1 M2) as Hn. subst n2.
    pose proof (NoDup_lookup _ _ _ _ Hnd H1 H2). lia.
Qed.

Lemma table_names (names : list string) :
  let M := TABLE gen ∅ names in
  (forall name r, M !! name = Some r -> exists i, i < size M /\ r = NAME gen i) /\
  ((forall i j, i < j < size M -> NAME gen i <> NAME gen j) <->
   (forall n1 n2 r, M !! n1 = Some r -> M !! n2 = Some r -> n1 = n2)).
Proof.
  cbv zeta.
  destruct (table_enumerated names ∅ []) as [keys He].
  - split; [constructor|]. split; [rewrite map_size_empty; reflexivity|].
    intros name r. rewrite lookup_empty. split; [discriminate|].
    intros (i & Hi & _). rewrite lookup_nil in Hi. discriminate Hi.
  - exact (enumerated_names _ keys He).
Qed.

(** Names that are all different and all new take the strings of the
    generator in turn. *)
Lemma table_fresh (names : list string) :
  forall m,
    NoDup names -> (forall x, x ∈ names -> m !! x = None) ->
    forall k x, names !! k = Some x ->
                TABLE gen m names !! x = Some (NAME gen (size m + k)).
Proof.
  induction names as [|name r IH]; intros m Hnd Hfresh k x Hk;
    [rewrite lookup_nil in Hk; discriminate|].
  apply NoDup_cons in Hnd as [Hnotin Hnd].
  cbn [spec_table]. rewrite (Hfresh name) by (apply list_elem_of_here).
  destruct k as [|k]; cbn in Hk.
  - injection Hk as <-. rewrite Nat.add_0_r.
    eapply lookup_weaken; [apply lookup_insert_eq|apply table_extends].
  - rewrite (IH (<[name := NAME gen (size m)]> m) Hnd) with (k := k).
    + rewrite map_size_insert_None by (apply Hfresh, list_elem_of_here).
      f_equal. f_equal. lia.
    + intros y Hy. rewrite lookup_insert_ne.
      * apply Hfresh. apply list_elem_of_further, Hy.
      * intros <-. contradiction.
    + exact Hk.
Qed.

End FromGenerator.

End ObfuscationFacts.

(** ** Only so many strings of sixteen characters *)

Lemma allAscii_complete (c : ascii) : c ∈ allAscii.
Proof.
  unfold allAscii. rewrite <- (ascii_nat_embedding c).
  apply list_elem_of_fmap. exists (nat_of_ascii c). split; [reflexivity|].
  apply elem_of_seq. pose proof (nat_ascii_bounded c). lia.
Qed.

Lemma stringsOfLength_complete (s : string) : s ∈ stringsOfLength (String.length s).
Proof.
  induction s as [|c s IH]; cbn [String.length stringsOfLength].
  - apply list_elem_of_here.
  - apply list_elem_of_In, in_flat_map. exists c.
    split; [apply list_elem_of_In, allAscii_complete|].
    apply in_map, list_elem_of_In, IH.
Qed.

(** Strings of one length, one for every number: two of the first ones are
    the same. *)
Lemma strings_repeat (f : nat -> string) (n : nat) :
  (forall i, String.length (f i) = n) ->
  exists i j, i < j /\ f i = f j.
Proof.
  intros Hlen.
  generalize (stringsOfLength_complete). intros Hall.
  assert (Hin : forall i, f i ∈ stringsOfLength n)
    by (intros i; rewrite <- (Hlen i); apply Hall).
  clear Hall. revert Hin. generalize (stringsOfLength n). intros all Hin.
  destruct (list_pigeonhole (f <$> seq 0 (S (length all))) all)
    as (i & j & x & Hij & Hi & Hj).
  - intros y Hy. apply list_elem_of_fmap in Hy as (k & -> & _). apply Hin.
  - rewrite length_fmap, length_seq. lia.
  - exists i, j. split; [exact Hij|].
    rewrite list_lookup_fmap in Hi, Hj.
    destruct (seq 0 (S (length all)) !! i) as [a|] eqn:Ea; [|discriminate Hi].
    destruct (seq 0 (S (length all)) !! j) as [b|] eqn:Eb; [|discriminate Hj].
    apply lookup_seq in Ea as [-> _]. apply lookup_seq in Eb as [-> _].
    cbn in Hi, Hj. congruence.
Qed.

(** *** Streams of identifiers only *)

Lemma tally_length (k : nat) : String.length (tally k) = S k.
Proof. induction k as [|k IH]; cbn; [reflexivity|rewrite IH; reflexivity]. Qed.

Lemma tally_inj (i j : nat) : tally i = tally j -> i = j.
Proof.
  intros H. apply (f_equal String.length) in H. rewrite !tally_length in H. lia.
Qed.

Lemma identifiers_names (n : nat) :
  forall start,
    spec_replacedNames Scenario.valueText Scenario.isPossibleVectorDigit false
      (map (fun k => {| kind := TokenKind.Identifier; trivia := " ";
                        rawText := tally k |}) (seq start n))
      = map tally (seq start n) /\
    spec_baseEndsRun Scenario.isPossibleVectorDigit false
      (map (fun k => {| kind := TokenKind.Identifier; trivia := " ";
                        rawText := tally k |}) (seq start n)) = false.
Proof.
  induction n as [|n IH]; intros start; [split; reflexivity|].
  destruct (IH (S start)) as [Hn He].
  cbn [seq map spec_replacedNames spec_baseEndsRun kind andb].
  rewrite (bool_decide_eq_false_2 (TokenKind.Identifier = TokenKind.IntegerBase))
    by discriminate.
  rewrite (bool_decide_eq_false_2 (TokenKind.Identifier = TokenKind.EndOfFile))
    by discriminate.
  rewrite (bool_decide_eq_true_2 (TokenKind.Identifier = TokenKind.Identifier))
    by reflexivity.
  split; [|exact He].
  unfold Scenario.valueText at 1. cbn [rawText]. f_equal. exact Hn.
Qed.

(** Evaluating the loop on a given stream, one iteration at a time. *)
Ltac kind_tests :=
  repeat match goal with
         | |- context [bool_decide (?a = ?b)] =>
             first [ rewrite (bool_decide_eq_true_2 (a = b)) by reflexivity
                   | rewrite (bool_decide_eq_false_2 (a = b)) by discriminate ]
         end.

Ltac loop_iteration :=
  rewrite tokenLoop_unfold; cbn [next fst snd kind eofToken]; kind_tests.

Ltac loop_tail :=
  unfold iterationTail at 1; cbn [kind eofToken]; kind_tests; cbn [andb].

Section RunPreprocessorFacts.

Variable TimeScale : Type.
Variable TimeScale_fromString : string -> option TimeScale.
Variable default_ppoptions : PreprocessorOptions.t.
Variable default_loptions : LexerOptions.t.
Variable default_poptions : ParserOptions.t.
Variable default_coptions : CompilationOptions.t TimeScale.
Variable SourceBuffer : Type.
Variable loadSources : SourceLoader.t -> list SourceBuffer * list string.
Variable preprocess :
  Bag TimeScale -> SourceManager.t -> list SourceBuffer -> list Token * Diagnostics.
Variable valueText : Token -> string.
Variable isPossibleVectorDigit : TokenKind.t -> bool.
Variable str : SyntaxPrinter.t -> string.
Variable reportAll : SourceManager.t -> Diagnostics -> string.
Variable mt19937 : Type.
Variable mt19937_default : mt19937.
Variable getUniformIntDist : mt19937 -> nat -> nat -> nat * mt19937.

Abbreviation RP :=
  (runPreprocessor TimeScale TimeScale_fromString default_ppoptions default_loptions
     default_poptions default_coptions SourceBuffer loadSources preprocess valueText
     isPossibleVectorDigit str reportAll mt19937 mt19937_default getUniformIntDist).
Abbreviation LOOP' :=
  (tokenLoop valueText isPossibleVectorDigit mt19937 getUniformIntDist).
Abbreviation BAG :=
  (createOptionBag TimeScale TimeScale_fromString default_ppoptions default_loptions
     default_poptions default_coptions).

Lemma onLoadErrors_frame (messages : list string) (d : Driver) :
  let d' := foldl (fun d message => onLoadError message d) d messages in
  sourceManager d' = sourceManager d /\
  sourceLoader d' = sourceLoader d /\
  OS.out (os d') = OS.out (os d) /\
  OS.err (os d') = OS.err (os d) ++ concat (map errorChunks messages).
Proof.
  revert d. induction messages as [|message l IH]; intros d; simpl.
  - rewrite app_nil_r. auto.
  - destruct (IH (onLoadError message d)) as (A & B & C & D).
    rewrite A, B, C, D. repeat split.
    unfold onLoadError. cbn [os with_anyFailedLoads].
    rewrite err_printError, <- app_assoc. reflexivity.
Qed.

(** [runPreprocessor] once its token loop has returned [output]. *)
Lemma runPreprocessor_result
    (fuel : nat) (entropy : mt19937)
    (includeComments includeDirectives obfuscateIds useFixedObfuscationSeed : bool)
    (d : Driver) (buffers : list SourceBuffer) (loadErrors : list string)
    (tokens : list Token) (diagnostics : Diagnostics)
    (output : SyntaxPrinter.t) (rng : option mt19937) (M : gmap string string) :
  loadSources (sourceLoader d) = (buffers, loadErrors) ->
  preprocess (BAG d) (sourceManager d)
             (foldl (fun stack b => pushSource SourceBuffer b stack) [] (rev buffers))
    = (tokens, diagnostics) ->
  LOOP' fuel obfuscateIds tokens
        {| SyntaxPrinter.includeComments := includeComments;
           SyntaxPrinter.includeDirectives := includeDirectives;
           SyntaxPrinter.printed := [] |}
        (if obfuscateIds
         then if useFixedObfuscationSeed then Some mt19937_default else Some entropy
         else None) ∅
    = Some (output, rng, M) ->
  exists d',
    RP fuel entropy includeComments includeDirectives obfuscateIds
       useFixedObfuscationSeed d
      = Some (negb (existsb isError diagnostics), d') /\
    (existsb isError diagnostics = true ->
       OS.out (os d') = OS.out (os d) /\
       OS.err (os d') =
         OS.err (os d) ++ concat (map errorChunks loadErrors)
           ++ [plain (reportAll (sourceManager d) diagnostics)]) /\
    (existsb isError diagnostics = false ->
       OS.out (os d') = OS.out (os d) ++ [plain (str output +:+ nl)] /\
       OS.err (os d') = OS.err (os d) ++ concat (map errorChunks loadErrors)).
Proof.
  intros Hload Hpp Hrun.
  unfold runPreprocessor. rewrite Hload.
  destruct (onLoadErrors_frame loadErrors d) as (Hsm & _ & Hout & Herr).
  set (d1 := foldl (fun d message => onLoadError message d) d loadErrors) in *.
  fold BAG. rewrite Hsm.
  change (createOptionBag TimeScale TimeScale_fromString default_ppoptions
            default_loptions default_poptions default_coptions d)
    with (BAG d) in *.
  rewrite Hpp, Hrun.
  destruct (existsb isError diagnostics) eqn:Ee; cbn [negb].
  - eexists. split; [reflexivity|]. split; [|discriminate].
    intros _. cbn [os with_os OS.printE OS.out OS.err].
    rewrite Hout, Herr, <- app_assoc. auto.
  - eexists. split; [reflexivity|]. split; [discriminate|].
    intros _. cbn [os with_os OS.print OS.out OS.err]. rewrite Hout, Herr. auto.
Qed.

(** C6: [runPreprocessor] collects the diagnostics of the preprocessor
    without printing any of them while the tokens are read.  If one of them
    is an error it prints the report of all of them on the error stream,
    prints nothing on the output stream and returns false; otherwise it
    prints the preprocessed text on the output stream, nothing more on the
    error stream, and returns true.  (The load errors of the source loader
    are printed on the error stream before, through the driver's callback.) *)
Theorem runPreprocessor_reports
    (fuel : nat) (entropy : mt19937)
    (includeComments includeDirectives obfuscateIds useFixedObfuscationSeed : bool)
    (d : Driver) (buffers : list SourceBuffer) (loadErrors : list string)
    (tokens : list Token) (diagnostics : Diagnostics) :
  isPossibleVectorDigit TokenKind.EndOfFile = false ->
  loadSources (sourceLoader d) = (buffers, loadErrors) ->
  preprocess (BAG d) (sourceManager d)
             (foldl (fun stack b => pushSource SourceBuffer b stack) [] (rev buffers))
    = (tokens, diagnostics) ->
  length tokens < fuel ->
  exists d',
    RP fuel entropy includeComments includeDirectives obfuscateIds
       useFixedObfuscationSeed d
      = Some (negb (existsb isError diagnostics), d') /\
    (existsb isError diagnostics = true ->
       OS.out (os d') = OS.out (os d) /\
       OS.err (os d') =
         OS.err (os d) ++ concat (map errorChunks loadErrors)
           ++ [plain (reportAll (sourceManager d) diagnostics)]) /\
    (existsb isError diagnostics = false ->
       exists output rng M,
         LOOP' fuel obfuscateIds tokens
               {| SyntaxPrinter.includeComments := includeComments;
                  SyntaxPrinter.includeDirectives := includeDirectives;
                  SyntaxPrinter.printed := [] |}
               (if obfuscateIds
                then if useFixedObfuscationSeed then Some mt19937_default
                     else Some entropy
                else None) ∅
           = Some (output, rng, M) /\
         OS.out (os d') = OS.out (os d) ++ [plain (str output +:+ nl)] /\
         OS.err (os d') = OS.err (os d) ++ concat (map errorChunks loadErrors)).
Proof.
  intros Heof Hload Hpp Hlen.
  set (rng := if obfuscateIds
              then if useFixedObfuscationSeed then Some mt19937_default else Some entropy
              else None).
  assert (Hrng : obfuscateIds = true -> is_Some rng).
  { intros ->. subst rng. destruct useFixedObfuscationSeed; eexists; reflexivity. }
  destruct (tokenLoop_spec valueText isPossibleVectorDigit mt19937 getUniformIntDist
              Heof (fun _ _ => True) (fun _ _ _ _ _ => Logic.I) obfuscateIds fuel tokens
              {| SyntaxPrinter.includeComments := includeComments;
                 SyntaxPrinter.includeDirectives := includeDirectives;
                 SyntaxPrinter.printed := [] |} rng ∅ Hlen Hrng Logic.I)
    as (l & rng' & M & Hrun & _).
  destruct (runPreprocessor_result fuel entropy includeComments includeDirectives
              obfuscateIds useFixedObfuscationSeed d buffers loadErrors tokens
              diagnostics _ rng' M Hload Hpp Hrun) as (d' & Hres & Herr & Hok).
  exists d'. split; [exact Hres|]. split; [exact Herr|].
  intros Hno. eexists; eexists; eexists. split; [exact Hrun|]. exact (Hok Hno).
Qed.

Abbreviation newName' gen :=
  (generateRandomAlphanumericString mt19937 getUniformIntDist gen 16).

Abbreviation names' := (spec_replacedNames valueText isPossibleVectorDigit false).
Abbreviation table' := (spec_table mt19937 getUniformIntDist).
Abbreviation emitted' := (spec_obfuscated valueText isPossibleVectorDigit).
Abbreviation nthName' := (nthName mt19937 getUniformIntDist).

(** The obfuscating loop from a fresh generator and an empty table. *)
Lemma tokenLoop_obfuscated (ts : list Token) (fuel : nat) (gen : mt19937)
    (output : SyntaxPrinter.t) :
  isPossibleVectorDigit TokenKind.EndOfFile = false ->
  length ts < fuel ->
  spec_baseEndsRun isPossibleVectorDigit false ts = false ->
  exists l,
    LOOP' fuel true ts output (Some gen) ∅ =
      Some (printAll l output,
            Some (nthGenerator mt19937 getUniformIntDist gen
                    (size (table' gen ∅ (names' ts)))),
            table' gen ∅ (names' ts)) /\
    emitted' (table' gen ∅ (names' ts)) false ts = Some l.
Proof.
  intros Heof Hlen Hends.
  destruct (tokenLoop_table valueText isPossibleVectorDigit mt19937 getUniformIntDist
              Heof gen fuel ts output ∅ Hlen Hends) as [out Hrun].
  rewrite map_size_empty in Hrun at 1. cbn [nthGenerator] in Hrun.
  destruct (tokenLoop_spec valueText isPossibleVectorDigit mt19937 getUniformIntDist
              Heof (fun _ _ => True) (fun _ _ _ _ _ => Logic.I) true fuel ts output
              (Some gen) ∅ Hlen (fun _ => mk_is_Some _ _ eq_refl) Logic.I)
    as (l & rng' & M & Hrun' & _ & Hspec & _).
  rewrite Hrun in Hrun'. injection Hrun' as -> _ <-.
  exists l. split; [exact Hrun|].
  rewrite <- (rewritten_as_specified valueText isPossibleVectorDigit _ _ _ Hends).
  exact Hspec.
Qed.


(** C5, where the code departs from it: an integer base that is itself the
    token ending a digit run is printed by the ordinary path of the loop, so
    the digits after it are not protected.  In [<base> <base> FF] and in
    [<base> 1 ? <base> FF] the identifier [FF], a possible vector digit
    right after an integer base, is printed under a generated name. *)
Theorem digits_after_closing_base_rewritten
    (b1 one q b2 ff : Token) (gen : mt19937) (output : SyntaxPrinter.t) (fuel : nat) :
  isPossibleVectorDigit TokenKind.EndOfFile = false ->
  isPossibleVectorDigit TokenKind.IntegerBase = false ->
  isPossibleVectorDigit TokenKind.IntegerLiteral = true ->
  isPossibleVectorDigit TokenKind.Question = true ->
  isPossibleVectorDigit TokenKind.Identifier = true ->
  kind b1 = TokenKind.IntegerBase -> kind one = TokenKind.IntegerLiteral ->
  kind q = TokenKind.Question -> kind b2 = TokenKind.IntegerBase ->
  kind ff = TokenKind.Identifier ->
  isPossibleVectorDigit (kind ff) = true /\
  LOOP' (5 + fuel) true [b1; b2; ff] output (Some gen) ∅ =
    Some (printAll [b1; b2; withRawText ff (fst (newName' gen)); eofToken] output,
          Some (snd (newName' gen)),
          {[valueText ff := fst (newName' gen)]}) /\
  LOOP' (6 + fuel) true [b1; one; q; b2; ff] output (Some gen) ∅ =
    Some (printAll [b1; one; q; b2; withRawText ff (fst (newName' gen)); eofToken]
            output,
          Some (snd (newName' gen)),
          {[valueText ff := fst (newName' gen)]}).
Proof.
  intros Heof Hbase Hlit Hq Hid K1 Kone Kq K2 Kff.
  split; [rewrite Kff; exact Hid|].
  destruct b1 as [k1 tv1 rt1], one as [kone tvone rtone], q as [kq tvq rtq],
           b2 as [k2 tv2 rt2], ff as [kff tvff rtff].
  cbn [kind] in *. subst.
  set (FF := {| kind := TokenKind.Identifier; trivia := tvff; rawText := rtff |}).
  assert (Hob : obfuscate valueText mt19937 getUniformIntDist FF (Some gen) ∅ =
                Some (withRawText FF (fst (newName' gen)), Some (snd (newName' gen)),
                      {[valueText FF := fst (newName' gen)]})).
  { unfold obfuscate. rewrite lookup_empty.
    destruct (newName' gen) as [nm gen1]. reflexivity. }
  split.
  - cbn [Nat.add].
    loop_iteration. rewrite (vectorDigits_spec _ Heof) by (simpl; lia).
    cbn [digitRun kind]. rewrite Hbase. cbn [fst snd next].
    loop_tail.
    loop_iteration. loop_tail.
    fold FF. rewrite Hob. cbn [withRawText FF kind]. kind_tests.
    loop_iteration. loop_tail.
    rewrite !print_printAll, !printAll_printAll. reflexivity.
  - cbn [Nat.add].
    loop_iteration. rewrite (vectorDigits_spec _ Heof) by (simpl; lia).
    cbn [digitRun kind]. rewrite Hlit, Hq, Hbase. cbn [fst snd next].
    loop_tail.
    loop_iteration. loop_tail.
    fold FF. rewrite Hob. cbn [withRawText FF kind]. kind_tests.
    loop_iteration. loop_tail.
    rewrite !print_printAll, !printAll_printAll. reflexivity.
Qed.

End RunPreprocessorFacts.

(** ** The scenario, run *)

Example scenario_vcs :
  fst (Scenario.run_processOptions Scenario.vcs_run) = true.
Proof. vm_compute. reflexivity. Qed.

Example scenario_nested_command_files :
  match Scenario.run_processCommandFile 3 "rtl/files.f" true Scenario.plain_run with
  | Some (ok, d) =>
      ok = false /\ OS.current_path (os d) = "/work" /\ anyFailedLoads d = true
  | None => False
  end.
Proof. vm_compute. auto. Qed.

Example scenario_obfuscate :
  match Scenario.run_tokenLoop 20 true Scenario.module_m Scenario.emptyPrinter
          (Some Scenario.mt19937_default) ∅ with
  | Some (p, _, _) =>
      map rawText (SyntaxPrinter.printed p) =
        ["module"; "XcL4Zwt4Zkb09Ons"; ";"; "wire"; "bgT6ZiNO1mTm7W3C"; "="; "8";
         "'h"; "FF"; ";"; "endmodule"; EmptyString]
  | None => False
  end.
Proof. vm_compute. reflexivity. Qed.

Lemma scenario_dist_range (gen : Scenario.mt19937) (lo hi : nat) :
  lo <= hi -> lo <= fst (Scenario.getUniformIntDist gen lo hi) <= hi.
Proof.
  intros H. unfold Scenario.getUniformIntDist. cbn [fst].
  assert (Hn : N.of_nat (hi - lo + 1) <> 0%N) by lia.
  pose proof (N.mod_upper_bound gen (N.of_nat (hi - lo + 1)) Hn) as Hm.
  revert Hm. generalize (gen mod N.of_nat (hi - lo + 1))%N. intros x Hx.
  lia.
Qed.

(** ** The claims at concrete inputs *)

Abbreviation scenario_PO_facts thm :=
  (thm Scenario.fileSupportsColors Scenario.isDirectory Scenario.canonical
       Scenario.TimeScale Scenario.TimeScale_fromString Scenario.defaultWarnings
       Scenario.warningOptionsTable) (only parsing).

(** C1 on [--compat vcs -Wno-duplicate-definition top.v], where the user's
    option wins over the mandatory promotion of [DuplicateDefinition] and
    the [vcs] ignores stand in for the default promotions, and on [top.v]
    alone, where the default promotions apply. *)
Lemma severity_table_after_processOptions_witness :
  (DiagnosticEngine.severityTable
     (diagEngine (snd (Scenario.run_processOptions Scenario.vcs_run)))
     !! DuplicateDefinition = Some Ignored /\
   DiagnosticEngine.severityTable
     (diagEngine (snd (Scenario.run_processOptions Scenario.vcs_run)))
     !! BadProceduralForce = Some Error /\
   DiagnosticEngine.severityTable
     (diagEngine (snd (Scenario.run_processOptions Scenario.vcs_run)))
     !! NonstandardDist = Some Ignored /\
   DiagnosticEngine.severityTable
     (diagEngine (snd (Scenario.run_processOptions Scenario.vcs_run)))
     !! IndexOOB = None)
  /\
  (DiagnosticEngine.severityTable
     (diagEngine (snd (Scenario.run_processOptions Scenario.plain_run)))
     !! IndexOOB = Some Error /\
   DiagnosticEngine.severityTable
     (diagEngine (snd (Scenario.run_processOptions Scenario.plain_run)))
     !! NonstandardDist = None).
Proof.
  assert (Hvcs : Scenario.run_processOptions Scenario.vcs_run =
                 (true, snd (Scenario.run_processOptions Scenario.vcs_run)))
    by (vm_compute; reflexivity).
  assert (Hplain : Scenario.run_processOptions Scenario.plain_run =
                   (true, snd (Scenario.run_processOptions Scenario.plain_run)))
    by (vm_compute; reflexivity).
  destruct (scenario_PO_facts severity_table_after_processOptions
              Scenario.vcs_run _ Hvcs) as (_ & User & Rest).
  destruct (scenario_PO_facts severity_table_after_processOptions
              Scenario.plain_run _ Hplain) as (_ & _ & Rest').
  assert (Hkeep : forall c, c <> DuplicateDefinition -> forall t : SeverityTable,
            snd (Scenario.warningOptionsTable
                   (Options.warningOptions (options Scenario.vcs_run)) t) !! c = t !! c).
  { intros c Hc t.
    change (<[DuplicateDefinition := Ignored]> t !! c = t !! c).
    apply lookup_insert_ne. congruence. }
  split; [split; [|split; [|split]]|split].
  - apply User. intros t.
    change (<[DuplicateDefinition := Ignored]> t !! DuplicateDefinition = Some Ignored).
    apply lookup_insert_eq.
  - exact (Rest BadProceduralForce
             (Hkeep BadProceduralForce ltac:(intros E; discriminate E))).
  - exact (Rest NonstandardDist (Hkeep NonstandardDist ltac:(intros E; discriminate E))).
  - exact (Rest IndexOOB (Hkeep IndexOOB ltac:(intros E; discriminate E))).
  - exact (Rest' IndexOOB (fun t => eq_refl)).
  - exact (Rest' NonstandardDist (fun t => eq_refl)).
Defined.

(** C2 on [--error-limit 5]: the bag carries 10. *)
Lemma errorLimit_in_option_bag_witness :
  CompilationOptions.errorLimit
    (bag_compilation
       (createOptionBag Scenario.TimeScale Scenario.TimeScale_fromString
          Scenario.default_ppoptions Scenario.default_loptions
          Scenario.default_poptions Scenario.default_coptions Scenario.limit5_run))
  = 10%Z.
Proof.
  apply (proj1 (proj2 (errorLimit_in_option_bag
                         Scenario.fileSupportsColors Scenario.isDirectory
                         Scenario.canonical Scenario.TimeScale
                         Scenario.TimeScale_fromString Scenario.defaultWarnings
                         Scenario.warningOptionsTable Scenario.default_ppoptions
                         Scenario.default_loptions Scenario.default_poptions
                         Scenario.default_coptions Scenario.limit5_run)) 5%Z).
  - reflexivity.
  - lia.
Defined.

(** C2 as stated fails: without [--error-limit] the user-facing limit is 20
    and the bag carries the default 64, not 40; and with
    [--error-limit 2147483648] the doubling wraps to 0. *)
Lemma errorLimit_not_always_doubled :
  CompilationOptions.errorLimit
    (bag_compilation
       (createOptionBag Scenario.TimeScale Scenario.TimeScale_fromString
          Scenario.default_ppoptions Scenario.default_loptions
          Scenario.default_poptions Scenario.default_coptions Scenario.plain_run))
  <> (2 * value_or (Options.errorLimit (options Scenario.plain_run)) 20)%Z
  /\
  CompilationOptions.errorLimit
    (bag_compilation
       (createOptionBag Scenario.TimeScale Scenario.TimeScale_fromString
          Scenario.default_ppoptions Scenario.default_loptions
          Scenario.default_poptions Scenario.default_coptions
          Scenario.limit_big_run))
  <> (2 * value_or (Options.errorLimit (options Scenario.limit_big_run)) 20)%Z.
Proof. split; vm_compute; discriminate. Qed.

(** C3 on [--libraries-inherit-macros top.v]. *)
Lemma single_unit_required_witness :
  exists d',
    Scenario.run_processOptions Scenario.inherit_run = (false, d') /\
    OS.err (os d') =
      errorChunks "--single-unit must be set when --libraries-inherit-macros is used" /\
    sourceLoader d' = sourceLoader Scenario.inherit_run.
Proof.
  destruct (scenario_PO_facts single_unit_required Scenario.inherit_run)
    as (d' & Hrun & Herr & _ & Hl & _).
  - left. reflexivity.
  - left. reflexivity.
  - reflexivity.
  - reflexivity.
  - exists d'. auto.
Defined.

(** C3 as stated fails on [--compat foo --libraries-inherit-macros]: the
    error printed is the one about [--compat]. *)
Lemma single_unit_message_preempted :
  OS.err (os (snd (Scenario.run_processOptions Scenario.foo_run))) =
    errorChunks "invalid value for compat option: 'foo'"
  /\ OS.err (os (snd (Scenario.run_processOptions Scenario.foo_run))) <>
       OS.err (os Scenario.foo_run) ++
       errorChunks "--single-unit must be set when --libraries-inherit-macros is used".
Proof. split; vm_compute; [reflexivity|discriminate]. Qed.

(** C7 on [--compat foo]. *)
Lemma compat_option_checked_witness :
  exists d',
    Scenario.run_processOptions Scenario.foo_run = (false, d') /\
    OS.err (os d') = errorChunks "invalid value for compat option: 'foo'".
Proof.
  destruct (proj1 (scenario_PO_facts compat_option_checked Scenario.foo_run) "foo")
    as (d' & Hrun & Herr & _).
  - reflexivity.
  - discriminate.
  - exists d'. auto.
Defined.

(** C9 on [--exclude-ext vh]: the positional [cells.vh] is dropped. *)
Lemma exclude_ext_positional_only_witness :
  onPositional "cells.vh" Scenario.exclude_run = Scenario.exclude_run.
Proof.
  apply (proj1 (scenario_PO_facts exclude_ext_positional_only)
           "cells.vh" Scenario.exclude_run 5).
  - reflexivity.
  - change (("vh" : string) ∈ ({["vh"]} : gset string)).
    apply elem_of_singleton_2. reflexivity.
Defined.

(** C10 on an invocation without arguments. *)
Lemma no_input_files_witness :
  exists d',
    Scenario.run_processOptions Scenario.bare_run = (false, d') /\
    OS.err (os d') = errorChunks "no input files".
Proof.
  destruct (proj1 (scenario_PO_facts no_input_files Scenario.bare_run))
    as (d' & pre & Hrun & Herr & _).
  - left. reflexivity.
  - left. reflexivity.
  - left. reflexivity.
  - left. reflexivity.
  - reflexivity.
  - reflexivity.
  - reflexivity.
  - exists d'. split; [exact Hrun|].
    assert (Hd : d' = snd (Scenario.run_processOptions Scenario.bare_run))
      by (rewrite Hrun; reflexivity).
    rewrite Hd. vm_compute. reflexivity.
Defined.

(** C10 as stated fails on [--compat foo] without files: no load has
    failed, the loader is empty, and the error printed is the one about
    [--compat]. *)
Lemma no_input_files_preempted :
  anyFailedLoads Scenario.foo_run = false /\
  SourceLoader.hasFiles (sourceLoader Scenario.foo_run) = false /\
  fst (Scenario.run_processOptions Scenario.foo_run) = false /\
  ~ In (plain "no input files")
       (OS.err (os (snd (Scenario.run_processOptions Scenario.foo_run)))).
Proof.
  repeat split; try (vm_compute; reflexivity).
  vm_compute. intros [H|[H|[H|[]]]]; discriminate H.
Qed.

(** C8 on [-F rtl/files.f] from [/work], where [files.f] names a second
    command file whose contents do not parse; on the arguments
    [top.v -F rtl/files.f] from [/work]; and on [-f /work/rtl/ok.f] and
    [-F /work/rtl/ok.f] from [/gone]. *)
Lemma working_directory_restored_witness :
  (exists b d',
     Scenario.run_processCommandFile 3 "rtl/files.f" true Scenario.plain_run
       = Some (b, d') /\
     OS.current_path (os d') = "/work")
  /\
  (exists d',
     runEvents (Scenario.run_processCommandFile 3)
       [CommandLine.Positional "top.v"; CommandLine.CommandFile "rtl/files.f" true]
       Scenario.plain_run = Some d' /\
     OS.current_path (os d') = "/work")
  /\
  (exists b d',
     Orphaned.run_processCommandFile 2 "/work/rtl/ok.f" false Orphaned.start
       = Some (b, d') /\
     OS.current_path (os d') = "/gone")
  /\
  (exists b d',
     Orphaned.run_processCommandFile 2 "/work/rtl/ok.f" true Orphaned.start
       = Some (b, d') /\
     OS.current_path (os d') = "/work/rtl").
Proof.
  split; [|split; [|split]].
  - destruct (Scenario.run_processCommandFile 3 "rtl/files.f" true Scenario.plain_run)
      as [[b d']|] eqn:E.
    + exists b, d'. split; [reflexivity|].
      apply (proj1 (working_directory_restored Scenario.canonical Scenario.readFile
                      Scenario.parent_path Scenario.isDirectory Scenario.tokenize)
               3 "rtl/files.f" true Scenario.plain_run b d').
      * reflexivity.
      * exact E.
    + vm_compute in E. discriminate E.
  - destruct (runEvents (Scenario.run_processCommandFile 3)
                [CommandLine.Positional "top.v";
                 CommandLine.CommandFile "rtl/files.f" true]
                Scenario.plain_run) as [d'|] eqn:E.
    + exists d'. split; [reflexivity|].
      apply (proj1 (proj2 (working_directory_restored Scenario.canonical
                             Scenario.readFile Scenario.parent_path
                             Scenario.isDirectory Scenario.tokenize))
               3 [CommandLine.Positional "top.v";
                  CommandLine.CommandFile "rtl/files.f" true]
               Scenario.plain_run d').
      * reflexivity.
      * exact E.
    + vm_compute in E. discriminate E.
  - exact (proj1 (proj2 (proj2 (working_directory_restored Orphaned.canonical
                                  Orphaned.readFile Scenario.parent_path
                                  Orphaned.isDirectory Orphaned.tokenize)))
             1 "/work/rtl/ok.f" Orphaned.start "/work/rtl/ok.f" "t"%char
             ("op.v" +:+ Scenario.sentinel) eq_refl eq_refl eq_refl).
  - exact (proj2 (proj2 (proj2 (working_directory_restored Orphaned.canonical
                                  Orphaned.readFile Scenario.parent_path
                                  Orphaned.isDirectory Orphaned.tokenize)))
             1 "/work/rtl/ok.f" Orphaned.start "/work/rtl/ok.f" "t"%char
             ("op.v" +:+ Scenario.sentinel) eq_refl eq_refl eq_refl eq_refl eq_refl).
Defined.

(** C8 as stated fails from a working directory that cannot be entered
    again: started in [/gone], [-F /work/rtl/ok.f] reads the file, handles
    its one argument and returns true, and the process is left in
    [/work/rtl]. *)
Lemma working_directory_not_restored :
  Orphaned.isDirectory (OS.current_path (os Orphaned.start)) = false /\
  match Orphaned.run_processCommandFile 2 "/work/rtl/ok.f" true Orphaned.start with
  | Some (ok, d') =>
      ok = true /\
      OS.current_path (os Orphaned.start) = "/gone" /\
      OS.current_path (os d') = "/work/rtl" /\
      OS.current_path (os d') <> OS.current_path (os Orphaned.start)
  | None => False
  end.
Proof. vm_compute. repeat split; discriminate. Qed.

Abbreviation scenario_RP_facts thm :=
  (thm Scenario.TimeScale Scenario.TimeScale_fromString Scenario.default_ppoptions
       Scenario.default_loptions Scenario.default_poptions Scenario.default_coptions
       Scenario.SourceBuffer Scenario.loadSources Scenario.preprocess
       Scenario.valueText Scenario.isPossibleVectorDigit Scenario.str
       Scenario.reportAll Scenario.mt19937 Scenario.mt19937_default
       Scenario.getUniformIntDist) (only parsing).

(** C6 on [bad.v], whose preprocessing reports an error. *)
Lemma runPreprocessor_reports_witness :
  exists d',
    Scenario.run_runPreprocessor 20 7%N false false true true Scenario.bad_run
      = Some (false, d') /\
    OS.out (os d') = [] /\
    OS.err (os d') = [plain "error: diagnostics"].
Proof.
  destruct (scenario_RP_facts runPreprocessor_reports
              20 7%N false false true true Scenario.bad_run
              [([Scenario.tok TokenKind.Identifier "m"],
                [{| code := diag.Other 7; isError := true |}])]
              []
              [Scenario.tok TokenKind.Identifier "m"; eofToken]
              [{| code := diag.Other 7; isError := true |}])
    as (d' & Hrun & Herr & _).
  - reflexivity.
  - reflexivity.
  - reflexivity.
  - simpl. lia.
  - exists d'. split; [exact Hrun|].
    destruct (Herr eq_refl) as [Hout He]. split; [exact Hout|exact He].
Defined.



(** C5 on ['b 'h FF]: the digits [FF] after the second base are rewritten. *)
Lemma digits_after_closing_base_rewritten_witness :
  exists p rng M,
    Scenario.run_tokenLoop 5 true
      [Scenario.base_b; Scenario.base_h; Scenario.digits_FF]
      Scenario.emptyPrinter (Some Scenario.mt19937_default) ∅
      = Some (p, rng, M) /\
    map rawText (SyntaxPrinter.printed p) =
      ["'b"; "'h"; "XcL4Zwt4Zkb09Ons"; EmptyString].
Proof.
  destruct (digits_after_closing_base_rewritten
              Scenario.valueText Scenario.isPossibleVectorDigit Scenario.mt19937
              Scenario.getUniformIntDist
              Scenario.base_b Scenario.digit_1 Scenario.question Scenario.base_h
              Scenario.digits_FF Scenario.mt19937_default Scenario.emptyPrinter 0
              eq_refl eq_refl eq_refl eq_refl eq_refl
              eq_refl eq_refl eq_refl eq_refl eq_refl)
    as (_ & Hrun & _).
  eexists; eexists; eexists. split; [exact Hrun|].
  vm_compute. reflexivity.
Defined.

(** ** Option validation, statement by statement *)

Lemma printWarning_writtenE (message : string) (d : Driver) :
  printWarning message d = with_os (writtenE (warningChunks message) (os d)) d.
Proof.
  unfold printWarning, writtenE, warningChunks, OS.printE. cbn.
  rewrite <- !app_assoc. reflexivity.
Qed.

Lemma printError_writtenE (message : string) (d : Driver) :
  printError message d = with_os (writtenE (errorChunks message) (os d)) d.
Proof.
  unfold printError, writtenE, errorChunks, OS.printE. cbn.
  rewrite <- !app_assoc. reflexivity.
Qed.

Lemma writtenE_nil (o : OS.t) : writtenE [] o = o.
Proof. destruct o. unfold writtenE. cbn. rewrite app_nil_r. reflexivity. Qed.

Lemma writtenE_writtenE (a b : list Chunk) (o : OS.t) :
  writtenE b (writtenE a o) = writtenE (a ++ b) o.
Proof. unfold writtenE. cbn. rewrite app_assoc. reflexivity. Qed.

Lemma elem_of_foldl_union (l : list string) (s : gset string) (x : string) :
  x ∈ foldl (fun s y => {[y]} ∪ s) s l <-> x ∈ s \/ x ∈ l.
Proof.
  revert s. induction l as [|y l IH]; intros s; cbn [foldl].
  - rewrite elem_of_nil. tauto.
  - rewrite IH, elem_of_union, elem_of_singleton, elem_of_cons. tauto.
Qed.

Lemma value_or_is_true (o : option bool) :
  is_true (Some (value_or o true)) = value_or o true.
Proof. destruct o as [[]|]; reflexivity. Qed.

Section OptionValidationExact.

Variable fileSupportsColors : Stream -> bool.
Variable isDirectory : Path -> bool.
Variable canonical : Path -> string -> option Path.
Variable TimeScale : Type.
Variable TimeScale_fromString : string -> option TimeScale.
Variable defaultWarnings : SeverityTable -> SeverityTable.
Variable warningOptionsTable :
  list string -> SeverityTable -> Diagnostics * SeverityTable.

Abbreviation PO' :=
  (processOptions fileSupportsColors isDirectory canonical TimeScale
     TimeScale_fromString defaultWarnings warningOptionsTable).
Abbreviation SHOW := (showColorsOf fileSupportsColors).

Lemma userDirectories_loop (dirs : list string) (d : Driver) :
  foldl (fun d dir =>
           let '(ok, m) := addUserDirectory isDirectory dir (sourceManager d) in
           let d := with_sourceManager m d in
           if negb ok
           then printWarning (format1 "include directory '" dir "' does not exist") d
           else d)
        d dirs
  = with_os (writtenE (missingDirWarnings isDirectory dirs) (os d))
      (with_sourceManager
         {| SourceManager.userDirectories :=
              SourceManager.userDirectories (sourceManager d)
                ++ existingDirs isDirectory dirs;
            SourceManager.systemDirectories :=
              SourceManager.systemDirectories (sourceManager d) |} d).
Proof.
  revert d. induction dirs as [|dir dirs IH]; intros d.
  - cbn. rewrite writtenE_nil, app_nil_r.
    destruct d as [? ? ? ? [] ? ? ?]; reflexivity.
  - cbn [foldl]. rewrite IH. clear IH.
    unfold addUserDirectory, missingDirWarnings, existingDirs. cbn [List.filter].
    destruct (isDirectory dir); cbn [negb].
    + cbn. rewrite <- app_assoc. reflexivity.
    + rewrite printWarning_writtenE. cbn [map concat].
      cbn [with_os with_sourceManager os sourceManager options cmdLineErrors
           diagEngine diagClient sourceLoader anyFailedLoads].
      rewrite writtenE_writtenE. destruct d as [? ? ? ? [] ? ? ?]; reflexivity.
Qed.

Lemma systemDirectories_loop (dirs : list string) (d : Driver) :
  foldl (fun d dir =>
           let '(ok, m) := addSystemDirectory isDirectory dir (sourceManager d) in
           let d := with_sourceManager m d in
           if negb ok
           then printWarning (format1 "include directory '" dir "' does not exist") d
           else d)
        d dirs
  = with_os (writtenE (missingDirWarnings isDirectory dirs) (os d))
      (with_sourceManager
         {| SourceManager.userDirectories :=
              SourceManager.userDirectories (sourceManager d);
            SourceManager.systemDirectories :=
              SourceManager.systemDirectories (sourceManager d)
                ++ existingDirs isDirectory dirs |} d).
Proof.
  revert d. induction dirs as [|dir dirs IH]; intros d.
  - cbn. rewrite writtenE_nil, app_nil_r.
    destruct d as [? ? ? ? [] ? ? ?]; reflexivity.
  - cbn [foldl]. rewrite IH. clear IH.
    unfold addSystemDirectory, missingDirWarnings, existingDirs. cbn [List.filter].
    destruct (isDirectory dir); cbn [negb].
    + cbn. rewrite <- app_assoc. reflexivity.
    + rewrite printWarning_writtenE. cbn [map concat].
      cbn [with_os with_sourceManager os sourceManager options cmdLineErrors
           diagEngine diagClient sourceLoader anyFailedLoads].
      rewrite writtenE_writtenE. destruct d as [? ? ? ? [] ? ? ?]; reflexivity.
Qed.

Lemma libraryFiles_loop (files : list string) (d : Driver) :
  foldl (fun d str =>
           with_sourceLoader
             (SourceLoader.addLibraryFiles EmptyString str (sourceLoader d)) d)
        d files
  = with_sourceLoader
      (foldl (fun l str => SourceLoader.addLibraryFiles EmptyString str l)
             (sourceLoader d) files) d.
Proof.
  revert d. induction files as [|f files IH]; intros d.
  - destruct d; reflexivity.
  - cbn [foldl]. rewrite IH. reflexivity.
Qed.

Lemma lintDefault_paths (o : Options.t) :
  Options.includeDirs (lintDefault o) = Options.includeDirs o /\
  Options.includeSystemDirs (lintDefault o) = Options.includeSystemDirs o /\
  Options.libraryFiles (lintDefault o) = Options.libraryFiles o /\
  Options.libDirs (lintDefault o) = Options.libDirs o /\
  Options.libExts (lintDefault o) = Options.libExts o.
Proof. unfold lintDefault. destruct (_ && _); repeat split; reflexivity. Qed.

(** The registration of the search paths, as one assignment. *)
Lemma registerPaths_exact (d : Driver) :
  registerPaths isDirectory d =
    let o := lintDefault (options d) in
    with_sourceLoader (registeredLoader o (sourceLoader d))
      (with_os (writtenE (missingDirWarnings isDirectory (Options.includeDirs o)
                          ++ missingDirWarnings isDirectory (Options.includeSystemDirs o))
                         (os d))
         (with_sourceManager (registeredManager isDirectory o (sourceManager d))
            (with_options o d))).
Proof.
  unfold registerPaths. cbv zeta.
  replace (if is_true (Options.onlyLint (options d))
              && negb (has_value (Options.ignoreUnknownModules (options d)))
           then with_options
                  (Options.set_ignoreUnknownModules (Some true) (options d)) d
           else d)
    with (with_options (lintDefault (options d)) d)
    by (unfold lintDefault;
        destruct (is_true _ && _); [reflexivity|destruct d; reflexivity]).
  set (o := lintDefault (options d)).
  rewrite userDirectories_loop.
  cbn [with_os with_sourceManager with_options os sourceManager options cmdLineErrors
       diagEngine diagClient sourceLoader anyFailedLoads].
  rewrite systemDirectories_loop.
  cbn [with_os with_sourceManager with_options os sourceManager options cmdLineErrors
       diagEngine diagClient sourceLoader anyFailedLoads
       SourceManager.userDirectories SourceManager.systemDirectories].
  rewrite libraryFiles_loop.
  cbn [with_os with_sourceManager with_options with_sourceLoader os sourceManager
       options cmdLineErrors diagEngine diagClient sourceLoader anyFailedLoads].
  rewrite writtenE_writtenE.
  reflexivity.
Qed.


(** The colour set-up, as one assignment: colours are switched on, never
    off. *)
Lemma afterColors_exact (d : Driver) :
  afterColors fileSupportsColors d =
    with_os
      {| OS.out := OS.out (os d); OS.err := OS.err (os d);
         OS.stdoutColorsEnabled :=
           (SHOW d && fileSupportsColors stdout) || OS.stdoutColorsEnabled (os d);
         OS.stderrColorsEnabled := SHOW d || OS.stderrColorsEnabled (os d);
         OS.current_path := OS.current_path (os d) |} d.
Proof.
  unfold afterColors, showColorsOf.
  destruct (match Options.colorDiags (options d) with
            | Some b => b
            | None => fileSupportsColors stderr
            end); [|destruct d as [? ? ? ? ? ? ? []]; reflexivity].
  destruct (fileSupportsColors stdout); reflexivity.
Qed.

Lemma setSeverities_exact (l : list DiagCode) (s : DiagnosticSeverity) (d : Driver) :
  setSeverities l s d =
    with_diagEngine
      (DiagnosticEngine.with_table
         (overrideAll l s (DiagnosticEngine.severityTable (diagEngine d)))
         (diagEngine d)) d.
Proof.
  unfold setSeverities, overrideAll. revert d.
  induction l as [|c l IH]; intros d.
  - destruct d as [? ? [] ? ? ? ? ?]; reflexivity.
  - cbn [foldl]. rewrite IH. reflexivity.
Qed.

Lemma ignorePaths_loop (paths : list string) (d : Driver) :
  foldl (fun d pathStr =>
           match canonical (OS.current_path (os d)) pathStr with
           | Some path =>
               if negb (path_empty path)
               then with_diagEngine
                      (DiagnosticEngine.addIgnorePath path (diagEngine d)) d
               else d
           | None => d
           end)
        d paths
  = with_diagEngine
      {| DiagnosticEngine.errorLimit := DiagnosticEngine.errorLimit (diagEngine d);
         DiagnosticEngine.severityTable := DiagnosticEngine.severityTable (diagEngine d);
         DiagnosticEngine.ignorePaths :=
           DiagnosticEngine.ignorePaths (diagEngine d)
             ++ resolvedPaths canonical (OS.current_path (os d)) paths;
         DiagnosticEngine.ignoreMacroPaths :=
           DiagnosticEngine.ignoreMacroPaths (diagEngine d);
         DiagnosticEngine.issued := DiagnosticEngine.issued (diagEngine d) |} d.
Proof.
  revert d. induction paths as [|p paths IH]; intros d.
  - cbn. rewrite app_nil_r. destruct d as [? ? [] ? ? ? ? ?]; reflexivity.
  - cbn [foldl]. rewrite IH. clear IH. unfold resolvedPaths. cbn [omap list_omap].
    destruct (canonical (OS.current_path (os d)) p) as [path|]; [|reflexivity].
    destruct (negb (path_empty path)); [|reflexivity].
    cbn. rewrite <- app_assoc. reflexivity.
Qed.

Lemma ignoreMacroPaths_loop (paths : list string) (d : Driver) :
  foldl (fun d pathStr =>
           match canonical (OS.current_path (os d)) pathStr with
           | Some path =>
               if negb (path_empty path)
               then with_diagEngine
                      (DiagnosticEngine.addIgnoreMacroPath path (diagEngine d)) d
               else d
           | None => d
           end)
        d paths
  = with_diagEngine
      {| DiagnosticEngine.errorLimit := DiagnosticEngine.errorLimit (diagEngine d);
         DiagnosticEngine.severityTable := DiagnosticEngine.severityTable (diagEngine d);
         DiagnosticEngine.ignorePaths := DiagnosticEngine.ignorePaths (diagEngine d);
         DiagnosticEngine.ignoreMacroPaths :=
           DiagnosticEngine.ignoreMacroPaths (diagEngine d)
             ++ resolvedPaths canonical (OS.current_path (os d)) paths;
         DiagnosticEngine.issued := DiagnosticEngine.issued (diagEngine d) |} d.
Proof.
  revert d. induction paths as [|p paths IH]; intros d.
  - cbn. rewrite app_nil_r. destruct d as [? ? [] ? ? ? ? ?]; reflexivity.
  - cbn [foldl]. rewrite IH. clear IH. unfold resolvedPaths. cbn [omap list_omap].
    destruct (canonical (OS.current_path (os d)) p) as [path|]; [|reflexivity].
    destruct (negb (path_empty path)); [|reflexivity].
    cbn. rewrite <- app_assoc. reflexivity.
Qed.

Lemma issue_loop (diags : Diagnostics) (d : Driver) :
  foldl (fun d dg => with_diagEngine (DiagnosticEngine.issue dg (diagEngine d)) d)
        d diags
  = with_diagEngine
      {| DiagnosticEngine.errorLimit := DiagnosticEngine.errorLimit (diagEngine d);
         DiagnosticEngine.severityTable := DiagnosticEngine.severityTable (diagEngine d);
         DiagnosticEngine.ignorePaths := DiagnosticEngine.ignorePaths (diagEngine d);
         DiagnosticEngine.ignoreMacroPaths :=
           DiagnosticEngine.ignoreMacroPaths (diagEngine d);
         DiagnosticEngine.issued := DiagnosticEngine.issued (diagEngine d) ++ diags |} d.
Proof.
  revert d. induction diags as [|dg diags IH]; intros d.
  - cbn. rewrite app_nil_r. destruct d as [? ? [] ? ? ? ? ?]; reflexivity.
  - cbn [foldl]. rewrite IH. cbn. rewrite <- app_assoc. reflexivity.
Qed.

(** The configuration of the diagnostics, as one assignment. *)
Lemma configureDiagnostics_exact (showColors : bool) (d : Driver) :
  configureDiagnostics canonical defaultWarnings warningOptionsTable showColors d =
    with_diagEngine
      (configuredEngine canonical defaultWarnings warningOptionsTable
         (OS.current_path (os d)) (options d) (diagEngine d))
      (with_diagClient (clientFlags showColors (options d)) d).
Proof.
  unfold configureDiagnostics, beforeWarningOptions, configuredEngine, severityOverrides.
  cbv zeta.
  rewrite (setSeverities_exact [DuplicateDefinition; BadProceduralForce]).
  destruct (opt_is (Options.compat (options d)) "vcs");
    rewrite setSeverities_exact, ignorePaths_loop, ignoreMacroPaths_loop;
    unfold setWarningOptions;
    cbn [with_diagEngine with_diagClient diagEngine os options
         DiagnosticEngine.with_table DiagnosticEngine.setErrorLimit setDefaultWarnings
         DiagnosticEngine.severityTable DiagnosticEngine.errorLimit
         DiagnosticEngine.ignorePaths DiagnosticEngine.ignoreMacroPaths
         DiagnosticEngine.issued];
    match goal with
    | |- context [warningOptionsTable ?W ?T] =>
        destruct (warningOptionsTable W T) as [optionDiags tbl]
    end;
    rewrite issue_loop; reflexivity.
Qed.


Abbreviation compatDefaults o :=
  (if opt_is (Options.compat o) "vcs" then vcsDefaults o else o).

Lemma profiled_exact (d d1 : Driver) :
  profiled fileSupportsColors d d1 ->
  d1 = with_options (compatDefaults (options d)) (afterColors fileSupportsColors d).
Proof.
  intros [[Hc ->]|[Hc ->]]; rewrite Hc; cbn [opt_is]; [|reflexivity].
  rewrite afterColors_exact. destruct d; reflexivity.
Qed.

(** What the defaults filled in by [processOptions] leave alone. *)
Lemma profileDefaults_fields (o : Options.t) :
  let o' := profileDefaults o in
  Options.includeDirs o' = Options.includeDirs o /\
  Options.includeSystemDirs o' = Options.includeSystemDirs o /\
  Options.libraryFiles o' = Options.libraryFiles o /\
  Options.libDirs o' = Options.libDirs o /\
  Options.libExts o' = Options.libExts o /\
  Options.compat o' = Options.compat o /\
  Options.errorLimit o' = Options.errorLimit o /\
  Options.warningOptions o' = Options.warningOptions o /\
  Options.suppressWarningsPaths o' = Options.suppressWarningsPaths o /\
  Options.suppressMacroWarningsPaths o' = Options.suppressMacroWarningsPaths o /\
  clientFlags true o' = clientFlags true o /\
  clientFlags false o' = clientFlags false o.
Proof.
  unfold profileDefaults, lintDefault, vcsDefaults.
  destruct (opt_is (Options.compat o) "vcs");
    match goal with |- context [if ?c then _ else _] => destruct c end;
    cbv zeta; repeat split; reflexivity.
Qed.

(** A successful [processOptions], as one assignment. *)
Lemma processOptions_success_exact (d d' : Driver) :
  PO' d = (true, d') ->
  d' = validated fileSupportsColors isDirectory canonical defaultWarnings
         warningOptionsTable d.
Proof.
  intros Hrun.
  pose proof (processOptions_outcome fileSupportsColors isDirectory canonical TimeScale
                TimeScale_fromString defaultWarnings warningOptionsTable d) as Hout.
  rewrite Hrun in Hout. inversion Hout as [| | | | | |d1 Hp _ _ _ _ _ Hd']; subst.
  rewrite (profiled_exact d d1 Hp).
  rewrite configureDiagnostics_exact, registerPaths_exact. cbv zeta.
  cbn [with_diagEngine with_diagClient with_sourceLoader with_os with_sourceManager
       with_options options cmdLineErrors diagEngine diagClient sourceManager
       sourceLoader anyFailedLoads os].
  fold (profileDefaults (options d)).
  destruct (profileDefaults_fields (options d))
    as (F1 & F2 & F3 & F4 & F5 & F6 & F7 & F8 & F9 & F10 & F11 & F12).
  cbv zeta in *.
  rewrite afterColors_exact.
  cbn [with_diagEngine with_diagClient with_sourceLoader with_os with_sourceManager
       with_options options cmdLineErrors diagEngine diagClient sourceManager
       sourceLoader anyFailedLoads os writtenE OS.out OS.err OS.stdoutColorsEnabled
       OS.stderrColorsEnabled OS.current_path].
  unfold validated, validatedOS, configuredEngine, registeredLoader, registeredManager.
  cbv zeta.
  rewrite F1, F2, F3, F4, F5, F6, F7, F8, F9, F10.
  replace (clientFlags (SHOW d) (profileDefaults (options d)))
    with (clientFlags (SHOW d) (options d))
    by (destruct (SHOW d); [exact (eq_sym F11)|exact (eq_sym F12)]).
  reflexivity.
Qed.


(** The registration of the search paths after the compatibility profile,
    in terms of the driver [processOptions] started from. *)
Lemma registerPaths_profiled (d d1 : Driver) :
  profiled fileSupportsColors d d1 ->
  registerPaths isDirectory d1 =
    with_sourceLoader (registeredLoader (options d) (sourceLoader d))
      (with_os (writtenE
                  (missingDirWarnings isDirectory (Options.includeDirs (options d))
                   ++ missingDirWarnings isDirectory
                        (Options.includeSystemDirs (options d)))
                  (os (afterColors fileSupportsColors d)))
         (with_sourceManager (registeredManager isDirectory (options d) (sourceManager d))
            (with_options (profileDefaults (options d))
               (afterColors fileSupportsColors d)))).
Proof.
  intros Hp. rewrite (profiled_exact d d1 Hp), registerPaths_exact. cbv zeta.
  cbn [with_options options sourceLoader os sourceManager].
  fold (profileDefaults (options d)).
  destruct (profileDefaults_fields (options d)) as (F1 & F2 & F3 & F4 & F5 & _).
  cbv zeta in *.
  unfold registeredLoader, registeredManager. rewrite F1, F2, F3, F4, F5.
  rewrite afterColors_exact. reflexivity.
Qed.

(** What [processOptions] does to the process, however it ends. *)
Lemma processOptions_os (d : Driver) :
  (exists added,
     os (snd (PO' d)) = writtenE added (os (afterColors fileSupportsColors d))) /\
  anyFailedLoads (snd (PO' d)) = anyFailedLoads d /\
  cmdLineErrors (snd (PO' d)) = cmdLineErrors d.
Proof.
  pose proof (processOptions_outcome fileSupportsColors isDirectory canonical TimeScale
                TimeScale_fromString defaultWarnings warningOptionsTable d) as Hout.
  destruct Hout as [v Hv Hne|d1 v Hp|d1 Hp|d1 v Hp|d1 Hp|d1 Hp|d1 Hp]; cbn [snd];
    try rewrite configureDiagnostics_exact;
    try rewrite (registerPaths_profiled d d1 Hp);
    try rewrite printError_writtenE;
    try rewrite (profiled_exact d d1 Hp);
    rewrite ?afterColors_exact;
    cbn [with_diagEngine with_diagClient with_sourceLoader with_os with_sourceManager
         with_options options cmdLineErrors diagEngine diagClient sourceManager
         sourceLoader anyFailedLoads os];
    rewrite ?writtenE_writtenE;
    (split; [eexists; try reflexivity|split; reflexivity]).
  all: rewrite <- (writtenE_nil) at 1; reflexivity.
Qed.

Lemma processOptions_validated (d d' : Driver) :
  PO' d = (true, d') ->
  compatOk (options d) /\ timingOk (options d) /\ singleUnitOk (options d) /\
  timeScaleOk TimeScale TimeScale_fromString (options d) /\
  anyFailedLoads d = false /\
  SourceLoader.hasFiles (registeredLoader (options d) (sourceLoader d)) = true.
Proof.
  intros Hrun.
  pose proof (processOptions_outcome fileSupportsColors isDirectory canonical TimeScale
                TimeScale_fromString defaultWarnings warningOptionsTable d) as Hout.
  rewrite Hrun in Hout.
  inversion Hout as [| | | | | |d1 Hp Ht Hs Hts Hf Hh Hd']; subst.
  rewrite (registerPaths_profiled d d1 Hp) in Hh. cbn [with_sourceLoader sourceLoader] in Hh.
  repeat split; try assumption.
  destruct Hp as [[Hc _]|[Hc _]]; [left|right]; exact Hc.
Qed.


(** *** When option validation succeeds *)

(** X1: [processOptions] returns true exactly when the [--compat] value is
    absent or [vcs], the [--timing] value is absent or one of [min], [typ],
    [max], [--single-unit] accompanies [--libraries-inherit-macros], the
    [--timescale] value parses, no load has failed before, and the source
    loader has files once the [-v] library files have been handed to it. *)
Theorem processOptions_succeeds_iff (d : Driver) :
  fst (PO' d) = true <->
  compatOk (options d) /\ timingOk (options d) /\ singleUnitOk (options d) /\
  timeScaleOk TimeScale TimeScale_fromString (options d) /\
  anyFailedLoads d = false /\
  SourceLoader.hasFiles (registeredLoader (options d) (sourceLoader d)) = true.
Proof.
  split.
  - intros Hrun. apply (processOptions_validated d (snd (PO' d))).
    destruct (PO' d) as [b d']. cbn in *. subst b. reflexivity.
  - intros (Hc & Ht & Hs & Hts & Hf & Hh).
    pose proof (processOptions_outcome fileSupportsColors isDirectory canonical TimeScale
                  TimeScale_fromString defaultWarnings warningOptionsTable d) as Hout.
    destruct Hout as [v Hv Hne|d1 v Hp Hm H1 H2 H3|d1 Hp _ Hl1 Hl2
                      |d1 v Hp _ _ Hv Hn|d1 Hp _ _ _ Hf'|d1 Hp _ _ _ _ Hh'
                      |d1 Hp _ _ _ _ Hh']; cbn [fst].
    + destruct Hc; congruence.
    + destruct Ht as [Ht|[Ht|[Ht|Ht]]]; congruence.
    + destruct Hs; congruence.
    + destruct Hts as [Hts|(w & Hw & Hw')]; congruence.
    + congruence.
    + rewrite (registerPaths_profiled d d1 Hp) in Hh'.
      cbn [with_sourceLoader sourceLoader] in Hh'. congruence.
    + reflexivity.
Qed.

(** X2: a [--timing] value other than [min], [typ] and [max], given with a
    [--compat] value that passes its own check, makes [processOptions] print
    the error [invalid value for timing option: 'v'] and return false, with
    nothing printed on the output stream and the source loader, the source
    manager and the diagnostic engine left as they were. *)
Theorem timing_option_checked (d : Driver) (v : string) :
  compatOk (options d) ->
  Options.minTypMax (options d) = Some v ->
  v <> "min" -> v <> "typ" -> v <> "max" ->
  exists d',
    PO' d = (false, d') /\
    OS.err (os d') = OS.err (os d) ++
      errorChunks (format1 "invalid value for timing option: '" v "'") /\
    OS.out (os d') = OS.out (os d) /\
    sourceLoader d' = sourceLoader d /\
    sourceManager d' = sourceManager d /\
    diagEngine d' = diagEngine d.
Proof.
  intros Hc Hm H1 H2 H3.
  pose proof (processOptions_outcome fileSupportsColors isDirectory canonical TimeScale
                TimeScale_fromString defaultWarnings warningOptionsTable d) as Hout.
  destruct Hout as [w Hw Hne|d1 w Hp Hm' _ _ _|d1 Hp Ht|d1 w Hp Ht|d1 Hp Ht
                    |d1 Hp Ht|d1 Hp Ht];
    try (destruct Ht as [Ht|[Ht|[Ht|Ht]]]; congruence).
  - destruct Hc; congruence.
  - assert (w = v) by congruence. subst w.
    eexists. split; [reflexivity|].
    rewrite printError_writtenE, (profiled_exact d d1 Hp), afterColors_exact.
    cbn. repeat split; reflexivity.
Qed.

(** X3: a [--timescale] value that [TimeScale::fromString] rejects, given
    with [--compat], [--timing] and [--single-unit] settings that pass their
    own checks, makes [processOptions] print the error
    [invalid value for time scale option: 'v'] and return false before any
    path is registered. *)
Theorem time_scale_option_checked (d : Driver) (v : string) :
  compatOk (options d) -> timingOk (options d) -> singleUnitOk (options d) ->
  Options.timeScale (options d) = Some v ->
  TimeScale_fromString v = None ->
  exists d',
    PO' d = (false, d') /\
    OS.err (os d') = OS.err (os d) ++
      errorChunks (format1 "invalid value for time scale option: '" v "'") /\
    OS.out (os d') = OS.out (os d) /\
    sourceLoader d' = sourceLoader d /\
    sourceManager d' = sourceManager d /\
    diagEngine d' = diagEngine d.
Proof.
  intros Hc Ht Hs Hv Hn.
  pose proof (processOptions_outcome fileSupportsColors isDirectory canonical TimeScale
                TimeScale_fromString defaultWarnings warningOptionsTable d) as Hout.
  destruct Hout as [w Hw Hne|d1 w Hp Hm' N1 N2 N3|d1 Hp _ Hl1 Hl2|d1 w Hp _ _ Hw _
                    |d1 Hp _ _ Hts|d1 Hp _ _ Hts|d1 Hp _ _ Hts];
    try (destruct Hts as [Hts|(w & Hw & Hw')]; congruence).
  - destruct Hc; congruence.
  - destruct Ht as [Ht|[Ht|[Ht|Ht]]]; congruence.
  - destruct Hs; congruence.
  - assert (w = v) by congruence. subst w.
    eexists. split; [reflexivity|].
    rewrite printError_writtenE, (profiled_exact d d1 Hp), afterColors_exact.
    cbn. repeat split; reflexivity.
Qed.

(** X4: however it ends, [processOptions] prints nothing on the output
    stream, leaves the working directory, the failed-loads flag and the
    errors of the command-line parser as they were, and only adds to the
    error stream. *)
Theorem processOptions_leaves_process (d : Driver) :
  OS.out (os (snd (PO' d))) = OS.out (os d) /\
  OS.current_path (os (snd (PO' d))) = OS.current_path (os d) /\
  anyFailedLoads (snd (PO' d)) = anyFailedLoads d /\
  cmdLineErrors (snd (PO' d)) = cmdLineErrors d /\
  exists added, OS.err (os (snd (PO' d))) = OS.err (os d) ++ added.
Proof.
  destruct (processOptions_os d) as ((added & Hos) & Hf & He).
  rewrite Hos, afterColors_exact. cbn.
  repeat split; try assumption. exists added. reflexivity.
Qed.

(** X5: however [processOptions] ends, colours are enabled on the error
    stream exactly when they were already or the diagnostics are to be shown
    in colour ([--color-diagnostics] if given, what the terminal of the error
    stream supports otherwise), and on the output stream exactly when they
    were already or the diagnostics are to be shown in colour and the output
    stream is a terminal that supports colours; colours are never switched
    off. *)
Theorem colours_switched_on (d : Driver) :
  OS.stderrColorsEnabled (os (snd (PO' d))) =
    SHOW d || OS.stderrColorsEnabled (os d)
  /\ OS.stdoutColorsEnabled (os (snd (PO' d))) =
       (SHOW d && fileSupportsColors stdout) || OS.stdoutColorsEnabled (os d)
  /\ (OS.stderrColorsEnabled (os d) = true ->
      OS.stderrColorsEnabled (os (snd (PO' d))) = true)
  /\ (OS.stdoutColorsEnabled (os d) = true ->
      OS.stdoutColorsEnabled (os (snd (PO' d))) = true).
Proof.
  destruct (processOptions_os d) as ((added & Hos) & _).
  rewrite Hos, afterColors_exact. cbn.
  repeat split; intros ->; apply orb_true_r.
Qed.

(** X6: when [processOptions] returns false, whatever the reason, the
    diagnostic engine and the text client are as they were: error limit,
    severities, suppression paths and display flags are set only once every
    check has passed. *)
Theorem failed_validation_leaves_diagnostics (d : Driver) :
  fst (PO' d) = false ->
  diagEngine (snd (PO' d)) = diagEngine d /\
  diagClient (snd (PO' d)) = diagClient d.
Proof.
  pose proof (processOptions_outcome fileSupportsColors isDirectory canonical TimeScale
                TimeScale_fromString defaultWarnings warningOptionsTable d) as Hout.
  destruct Hout as [v Hv Hne|d1 v Hp|d1 Hp|d1 v Hp|d1 Hp|d1 Hp|d1 Hp]; cbn [fst snd];
    intros Hfalse; try discriminate Hfalse;
    try rewrite (registerPaths_profiled d d1 Hp);
    try rewrite printError_writtenE;
    try rewrite (profiled_exact d d1 Hp);
    rewrite ?afterColors_exact; split; reflexivity.
Qed.

(** X7: after a successful [processOptions] the source manager holds, after
    the directories it held, the [-I] directories that exist and the
    [--isystem] directories that exist, each list in the order given; and the
    error stream has received one warning
    [include directory '...' does not exist] for each directory that does
    not, the [-I] ones first, and nothing else. *)
Theorem include_directories_registered (d d' : Driver) :
  PO' d = (true, d') ->
  SourceManager.userDirectories (sourceManager d') =
    SourceManager.userDirectories (sourceManager d)
      ++ existingDirs isDirectory (Options.includeDirs (options d))
  /\ SourceManager.systemDirectories (sourceManager d') =
       SourceManager.systemDirectories (sourceManager d)
         ++ existingDirs isDirectory (Options.includeSystemDirs (options d))
  /\ OS.err (os d') =
       OS.err (os d)
         ++ missingDirWarnings isDirectory (Options.includeDirs (options d))
         ++ missingDirWarnings isDirectory (Options.includeSystemDirs (options d)).
Proof.
  intros Hrun. rewrite (processOptions_success_exact d d' Hrun).
  repeat split; reflexivity.
Qed.

(** X8: a successful [processOptions] changes four options at most, and
    only from unset to true: [ignore-unknown-modules] under [--lint-only],
    and [allow-use-before-declare], [relax-enum-conversions] and
    [allow-hierarchical-const] under [--compat vcs]; every other option, and
    each of these four when it was given on the command line, is what the
    command line made it. *)
Theorem options_after_validation (d d' : Driver) :
  PO' d = (true, d') ->
  let o := options d in
  let vcs := opt_is (Options.compat o) "vcs" in
  options d' =
    Options.assign (Options.excludeExts o)
      (if vcs then Some (value_or (Options.allowUseBeforeDeclare o) true)
       else Options.allowUseBeforeDeclare o)
      (if is_true (Options.onlyLint o)
       then Some (value_or (Options.ignoreUnknownModules o) true)
       else Options.ignoreUnknownModules o)
      (if vcs then Some (value_or (Options.relaxEnumConversions o) true)
       else Options.relaxEnumConversions o)
      (if vcs then Some (value_or (Options.allowHierarchicalConst o) true)
       else Options.allowHierarchicalConst o)
      o.
Proof.
  intros Hrun. rewrite (processOptions_success_exact d d' Hrun).
  cbv zeta. cbn [options validated].
  unfold profileDefaults, lintDefault, vcsDefaults.
  destruct (options d) as []. cbn.
  destruct (opt_is compat "vcs"); cbn;
    destruct onlyLint as [[]|]; cbn;
    destruct ignoreUnknownModules as [[]|]; cbn; reflexivity.
Qed.

(** X9: after a successful [processOptions] the diagnostic engine ignores,
    besides the paths it ignored before, the [--suppress-warnings] paths
    that [fs::canonical] resolves from the working directory, in the order
    given, and likewise for [--suppress-macro-warnings]; a path that does not
    resolve is dropped without a message.  The diagnostics about the [-W]
    options themselves have been issued to the engine, and the text client
    shows what the [--diag-...] options ask for, everything by default. *)
Theorem diagnostics_configured (d d' : Driver) :
  PO' d = (true, d') ->
  DiagnosticEngine.ignorePaths (diagEngine d') =
    DiagnosticEngine.ignorePaths (diagEngine d)
      ++ resolvedPaths canonical (OS.current_path (os d))
           (Options.suppressWarningsPaths (options d))
  /\ DiagnosticEngine.ignoreMacroPaths (diagEngine d') =
       DiagnosticEngine.ignoreMacroPaths (diagEngine d)
         ++ resolvedPaths canonical (OS.current_path (os d))
              (Options.suppressMacroWarningsPaths (options d))
  /\ DiagnosticEngine.issued (diagEngine d') =
       DiagnosticEngine.issued (diagEngine d)
         ++ fst (warningOptionsTable (Options.warningOptions (options d))
                   (severityOverrides (opt_is (Options.compat (options d)) "vcs")
                      (defaultWarnings (DiagnosticEngine.severityTable (diagEngine d)))))
  /\ diagClient d' = clientFlags (SHOW d) (options d).
Proof.
  intros Hrun. rewrite (processOptions_success_exact d d' Hrun).
  repeat split; reflexivity.
Qed.


(** *** The option bag of a validated driver *)

Variable default_ppoptions : PreprocessorOptions.t.
Variable default_loptions : LexerOptions.t.
Variable default_poptions : ParserOptions.t.
Variable default_coptions : CompilationOptions.t TimeScale.

Abbreviation BAG' :=
  (createOptionBag TimeScale TimeScale_fromString default_ppoptions default_loptions
     default_poptions default_coptions).

(** X10: the bag made after a successful [processOptions] under
    [--compat vcs] allows hierarchical constants, use before declaration and
    relaxed enum conversions, each unless the command line set that very
    option to false and the default-constructed compilation options do not
    allow it either. *)
Theorem bag_after_vcs_profile (d d' : Driver) :
  PO' d = (true, d') ->
  Options.compat (options d) = Some "vcs" ->
  let c := bag_compilation (BAG' d') in
  CompilationOptions.allowHierarchicalConst c =
    value_or (Options.allowHierarchicalConst (options d)) true
    || CompilationOptions.allowHierarchicalConst default_coptions
  /\ CompilationOptions.allowUseBeforeDeclare c =
       value_or (Options.allowUseBeforeDeclare (options d)) true
       || CompilationOptions.allowUseBeforeDeclare default_coptions
  /\ CompilationOptions.relaxEnumConversions c =
       value_or (Options.relaxEnumConversions (options d)) true
       || CompilationOptions.relaxEnumConversions default_coptions.
Proof.
  intros Hrun Hv. rewrite (processOptions_success_exact d d' Hrun).
  cbv zeta. unfold createOptionBag.
  cbn [bag_compilation CompilationOptions.allowHierarchicalConst
       CompilationOptions.allowUseBeforeDeclare CompilationOptions.relaxEnumConversions
       options validated].
  unfold profileDefaults. rewrite Hv. cbn [opt_is String.eqb Ascii.eqb Bool.eqb].
  destruct (lintDefault_fields (vcsDefaults (options d)))
    as (_ & _ & _ & _ & L5 & L6 & L7).
  rewrite L5, L6, L7. unfold vcsDefaults.
  cbn [Options.assign Options.allowHierarchicalConst Options.allowUseBeforeDeclare
       Options.relaxEnumConversions].
  rewrite !value_or_is_true.
  repeat split; match goal with |- (if ?b then _ else _) = _ => destruct b end;
    reflexivity.
Qed.

(** X11: whatever the defaults, the bag never asks for script mode, and it
    suppresses the warnings about unused items exactly under [--lint-only];
    the bag made after a successful [processOptions] under [--lint-only] is in
    lint mode, in the source options as in the compilation options, and
    ignores unknown modules unless the command line set
    [--ignore-unknown-modules] to false and the defaults do not ignore them
    either. *)
Theorem bag_lint_only (d : Driver) :
  CompilationOptions.scriptMode (bag_compilation (BAG' d)) = false
  /\ CompilationOptions.suppressUnused (bag_compilation (BAG' d)) =
       is_true (Options.onlyLint (options d))
  /\ (forall d',
        PO' d = (true, d') ->
        is_true (Options.onlyLint (options d)) = true ->
        CompilationOptions.suppressUnused (bag_compilation (BAG' d')) = true /\
        CompilationOptions.lintMode (bag_compilation (BAG' d')) = true /\
        SourceOptions.onlyLint (bag_source (BAG' d')) = true /\
        CompilationOptions.ignoreUnknownModules (bag_compilation (BAG' d')) =
          value_or (Options.ignoreUnknownModules (options d)) true
          || CompilationOptions.ignoreUnknownModules default_coptions).
Proof.
  split; [reflexivity|]. split; [reflexivity|].
  intros d' Hrun Hl.
  pose proof (options_after_validation_helper := processOptions_success_exact d d' Hrun).
  rewrite options_after_validation_helper.
  unfold createOptionBag.
  cbn [bag_compilation bag_source CompilationOptions.suppressUnused
       CompilationOptions.lintMode SourceOptions.onlyLint
       CompilationOptions.ignoreUnknownModules options validated].
  unfold profileDefaults, lintDefault, vcsDefaults.
  destruct (options d) as []. cbn in *.
  destruct (opt_is compat "vcs"); cbn; rewrite Hl; cbn;
    destruct ignoreUnknownModules as [[]|]; cbn; rewrite ?Hl; cbn;
    repeat split; reflexivity.
Qed.

(** X12: in the bag made after a successful [processOptions], library files
    inherit the macros of the primary sources only if all sources form a
    single compilation unit. *)
Theorem bag_inherit_macros_single_unit (d d' : Driver) :
  PO' d = (true, d') ->
  SourceOptions.librariesInheritMacros (bag_source (BAG' d')) = true ->
  SourceOptions.singleUnit (bag_source (BAG' d')) = true.
Proof.
  intros Hrun.
  destruct (processOptions_validated d d' Hrun) as (_ & _ & Hs & _).
  rewrite (processOptions_success_exact d d' Hrun).
  unfold createOptionBag.
  cbn [bag_source SourceOptions.librariesInheritMacros SourceOptions.singleUnit
       options validated].
  unfold profileDefaults, lintDefault, vcsDefaults. unfold singleUnitOk in Hs.
  destruct (options d) as []. cbn in *.
  destruct (opt_is compat "vcs"); cbn;
    match goal with |- context [if ?c then _ else _] => destruct c end; cbn;
    intros Hl; destruct Hs as [Hs|Hs]; try congruence;
    destruct singleUnit as [[]|]; cbn in *; congruence.
Qed.

(** X13: in the bag made after a successful [processOptions], a [--timing]
    value has selected the matching one of the three delay values, and a
    [--timescale] value is there as the time scale it parses to; without
    these options the bag keeps the defaults. *)
Theorem bag_timing_and_time_scale (d d' : Driver) :
  PO' d = (true, d') ->
  let c := bag_compilation (BAG' d') in
  (forall v, Options.minTypMax (options d) = Some v ->
     (v = "min" /\ CompilationOptions.minTypMax c = Min) \/
     (v = "typ" /\ CompilationOptions.minTypMax c = Typ) \/
     (v = "max" /\ CompilationOptions.minTypMax c = Max))
  /\ (Options.minTypMax (options d) = None ->
      CompilationOptions.minTypMax c = CompilationOptions.minTypMax default_coptions)
  /\ (forall v, Options.timeScale (options d) = Some v ->
        exists ts, TimeScale_fromString v = Some ts /\
                   CompilationOptions.defaultTimeScale c = Some ts)
  /\ (Options.timeScale (options d) = None ->
      CompilationOptions.defaultTimeScale c =
        CompilationOptions.defaultTimeScale default_coptions).
Proof.
  intros Hrun.
  destruct (processOptions_validated d d' Hrun) as (_ & Ht & _ & Hts & _).
  rewrite (processOptions_success_exact d d' Hrun).
  cbv zeta. unfold createOptionBag.
  cbn [bag_compilation CompilationOptions.minTypMax CompilationOptions.defaultTimeScale
       options validated].
  assert (Hm : Options.minTypMax (profileDefaults (options d)) =
               Options.minTypMax (options d)).
  { unfold profileDefaults, lintDefault, vcsDefaults.
    destruct (opt_is _ _);
      match goal with |- context [if ?c then _ else _] => destruct c end; reflexivity. }
  assert (Hs : Options.timeScale (profileDefaults (options d)) =
               Options.timeScale (options d)).
  { unfold profileDefaults, lintDefault, vcsDefaults.
    destruct (opt_is _ _);
      match goal with |- context [if ?c then _ else _] => destruct c end; reflexivity. }
  rewrite Hm, Hs. repeat split.
  - intros v Hv. rewrite Hv.
    destruct Ht as [Ht|[Ht|[Ht|Ht]]]; rewrite Hv in Ht; try discriminate;
      injection Ht as ->; cbn; auto.
  - intros Hv. rewrite Hv. reflexivity.
  - intros v Hv. rewrite Hv.
    destruct Hts as [Hts|(w & Hw & Hw')]; [congruence|].
    assert (w = v) by congruence. subst w.
    destruct (TimeScale_fromString v) as [ts|]; [|congruence].
    exists ts. auto.
  - intros Hv. rewrite Hv. reflexivity.
Qed.

(** X14: the top modules of the bag are those of the default-constructed
    compilation options and those given with [--top], whatever their order and
    however often they are given, and likewise for the directives to ignore;
    the parameter overrides of [-G] are appended to the default ones in the
    order given, repetitions included. *)
Theorem bag_sets_and_lists (d : Driver) :
  (forall x,
     x ∈ CompilationOptions.topModules (bag_compilation (BAG' d)) <->
     x ∈ CompilationOptions.topModules default_coptions \/
     x ∈ Options.topModules (options d))
  /\ (forall x,
        x ∈ PreprocessorOptions.ignoreDirectives (bag_preprocessor (BAG' d)) <->
        x ∈ PreprocessorOptions.ignoreDirectives default_ppoptions \/
        x ∈ Options.ignoreDirectives (options d))
  /\ CompilationOptions.paramOverrides (bag_compilation (BAG' d)) =
       CompilationOptions.paramOverrides default_coptions
         ++ Options.paramOverrides (options d)
  /\ PreprocessorOptions.predefines (bag_preprocessor (BAG' d)) =
       Options.defines (options d)
  /\ PreprocessorOptions.undefines (bag_preprocessor (BAG' d)) =
       Options.undefines (options d).
Proof.
  unfold createOptionBag.
  cbn [bag_compilation bag_preprocessor CompilationOptions.topModules
       PreprocessorOptions.ignoreDirectives CompilationOptions.paramOverrides
       PreprocessorOptions.predefines PreprocessorOptions.undefines].
  repeat split; try apply elem_of_foldl_union; intros H; apply elem_of_foldl_union, H.
Qed.

End OptionValidationExact.

(** ** The command line, argument by argument *)

Lemma extended_refl (d : Driver) : extended d d.
Proof. constructor; try reflexivity; auto. Qed.

Lemma extended_trans (d1 d2 d3 : Driver) :
  extended d1 d2 -> extended d2 d3 -> extended d1 d3.
Proof.
  intros [] []. constructor; try congruence; try (etrans; eassumption); auto.
Qed.

Lemma extended_options (o : Options.t) (d : Driver) : extended d (with_options o d).
Proof. constructor; try reflexivity; auto. Qed.

Lemma extended_writtenE (cs : list Chunk) (d : Driver) :
  extended d (with_os (writtenE cs (os d)) d).
Proof.
  constructor; try reflexivity; auto. cbn. apply prefix_app_r. reflexivity.
Qed.

Lemma extended_failed (d : Driver) : extended d (with_anyFailedLoads true d).
Proof. constructor; try reflexivity; auto. Qed.

Lemma extended_onPositional (filePattern : string) (d : Driver) :
  extended d (onPositional filePattern d).
Proof.
  unfold onPositional.
  destruct (if negb _ then _ else _); [apply extended_refl|].
  constructor; try reflexivity; auto. cbn. apply prefix_app_r. reflexivity.
Qed.

Lemma printCmdLineErrors_exact (d : Driver) :
  printCmdLineErrors d = with_os (writtenE (errorLines (cmdLineErrors d)) (os d)) d.
Proof.
  unfold printCmdLineErrors. generalize (cmdLineErrors d) as errors.
  intros errors. revert d. induction errors as [|e errors IH]; intros d.
  - cbn. rewrite writtenE_nil. destruct d; reflexivity.
  - cbn [foldl]. rewrite IH. unfold errorLines. cbn. unfold writtenE. cbn.
    rewrite <- app_assoc. reflexivity.
Qed.

Section CommandLineFacts.

Variable canonical : Path -> string -> option Path.
Variable readFile : Path -> option string.
Variable parent_path : Path -> Path.
Variable isDirectory : Path -> bool.
Variable tokenize : CommandLine.ParseOptions -> string -> list CommandLine.Event.
Variable default_parseOpts : CommandLine.ParseOptions.

Abbreviation PCF' :=
  (processCommandFile canonical readFile parent_path isDirectory tokenize).
Abbreviation PARSE :=
  (parseCommandLine canonical readFile parent_path isDirectory tokenize
     default_parseOpts).

Lemma extended_chdir (p : Path) (d : Driver) :
  extended d (with_os (set_current_path isDirectory p (os d)) d).
Proof.
  unfold set_current_path. destruct (isDirectory p).
  - constructor; try reflexivity; auto.
  - constructor; try reflexivity; auto.
Qed.

Lemma runEvents_extended (pcf : string -> bool -> Driver -> option (bool * Driver)) :
  (forall fileName makeRelative d b d',
     pcf fileName makeRelative d = Some (b, d') -> extended d d') ->
  forall evs d d', runEvents pcf evs d = Some d' -> extended d d'.
Proof.
  intros Hpcf evs.
  induction evs as [|ev evs IH]; intros d d' Hrun; cbn [runEvents] in Hrun.
  - injection Hrun as <-. apply extended_refl.
  - destruct ev as [store|value|filePattern|fileName makeRelative|message].
    + eapply extended_trans; [apply extended_options|apply IH, Hrun].
    + eapply extended_trans; [apply extended_options|apply IH, Hrun].
    + eapply extended_trans; [apply extended_onPositional|apply IH, Hrun].
    + unfold onCommandFile in Hrun.
      destruct (pcf fileName makeRelative d) as [[ok d1]|] eqn:E; [|discriminate].
      eapply extended_trans; [exact (Hpcf _ _ _ _ _ E)|].
      eapply extended_trans; [|apply IH, Hrun].
      destruct (negb ok); [apply extended_failed|apply extended_refl].
    + eapply extended_trans; [|apply IH, Hrun].
      constructor; try reflexivity; auto. cbn. apply prefix_app_r. reflexivity.
Qed.

Lemma processCommandFile_extended (fuel : nat) :
  forall fileName makeRelative d b d',
    PCF' fuel fileName makeRelative d = Some (b, d') -> extended d d'.
Proof.
  induction fuel as [|fuel IH]; intros fileName makeRelative d b d' Hrun;
    [discriminate|].
  cbn [processCommandFile] in Hrun.
  destruct (match canonical (OS.current_path (os d)) fileName with
            | Some path =>
                match readFile path with
                | Some buffer => Some (path, buffer)
                | None => None
                end
            | None => None
            end) as [[path buffer]|].
  2:{ injection Hrun as <- <-. rewrite printError_writtenE. apply extended_writtenE. }
  destruct buffer as [|a buffer]; [discriminate|].
  set (d1 := if makeRelative
             then with_os (set_current_path isDirectory (parent_path path) (os d)) d
             else d) in Hrun.
  assert (H1 : extended d d1)
    by (subst d1; destruct makeRelative; [apply extended_chdir|apply extended_refl]).
  unfold cmdLine_parse in Hrun.
  destruct (runEvents (PCF' fuel) _ d1) as [d2|] eqn:Ev; [|discriminate].
  pose proof (runEvents_extended (PCF' fuel) IH _ _ _ Ev) as H2.
  set (d3 := if makeRelative
             then with_os (set_current_path isDirectory
                             (if makeRelative then OS.current_path (os d)
                              else EmptyString) (os d2)) d2
             else d2) in Hrun.
  assert (H3 : extended d2 d3)
    by (subst d3; destruct makeRelative; [apply extended_chdir|apply extended_refl]).
  assert (H13 : extended d d3)
    by (eapply extended_trans; [exact H1|eapply extended_trans; eassumption]).
  destruct (negb _) in Hrun; injection Hrun as <- <-.
  - eapply extended_trans; [exact H13|].
    rewrite printCmdLineErrors_exact. apply extended_writtenE.
  - exact H13.
Qed.

(** X15: reading command files and parsing the command line only add to
    what the driver has recorded.  The files and patterns recorded before
    stay, in their order, before those recorded by the call; the text on the
    error stream and the parser's error list are extended; a raised
    failed-loads flag stays raised; and nothing is printed on the output
    stream, nor is the source manager, the diagnostic engine, the text client
    or a search path of the source loader touched. *)
Theorem command_line_only_adds :
  (forall fuel fileName makeRelative d b d',
     PCF' fuel fileName makeRelative d = Some (b, d') -> extended d d')
  /\ (forall fuel argList d b d',
        PARSE fuel argList d = Some (b, d') -> extended d d').
Proof.
  split; [intros fuel; apply processCommandFile_extended|].
  intros fuel argList d b d' Hrun. unfold parseCommandLine, cmdLine_parse in Hrun.
  destruct (runEvents (PCF' fuel) _ d) as [d1|] eqn:Ev; [|discriminate].
  pose proof (runEvents_extended (PCF' fuel) (processCommandFile_extended fuel)
                _ _ _ Ev) as H1.
  destruct (negb _) in Hrun; injection Hrun as <- <-; [|exact H1].
  eapply extended_trans; [exact H1|].
  rewrite printCmdLineErrors_exact. apply extended_writtenE.
Qed.


(** X16: whenever [parseCommandLine] returns, it returns true exactly when
    the parser has recorded no error and the failed-loads flag is down; a
    flag raised before the call, or raised by a command file however deeply
    nested, makes it return false.  When the parser has recorded errors they
    are printed on the error stream, one per line and in order, after
    whatever the arguments printed. *)
Theorem parseCommandLine_verdict (fuel : nat) (argList : string) (d d' : Driver)
    (b : bool) :
  PARSE fuel argList d = Some (b, d') ->
  (b = true <-> cmdLineErrors d' = [] /\ anyFailedLoads d' = false)
  /\ (anyFailedLoads d = true -> b = false)
  /\ (cmdLineErrors d' <> [] ->
      exists printed,
        OS.err (os d') =
          (OS.err (os d) ++ printed) ++ errorLines (cmdLineErrors d')).
Proof.
  intros Hrun. unfold parseCommandLine, cmdLine_parse in Hrun.
  destruct (runEvents (PCF' fuel) _ d) as [d1|] eqn:Ev; [|discriminate].
  pose proof (runEvents_extended (PCF' fuel) (processCommandFile_extended fuel)
                _ _ _ Ev) as [_ _ _ [printed Hp] _ _ Hf _ _ _].
  destruct (cmdLineErrors d1) as [|e errors] eqn:Ee; cbn [negb] in Hrun;
    injection Hrun as <- <-.
  - rewrite Ee. split; [|split].
    + destruct (anyFailedLoads d1); cbn [negb].
      * split; [discriminate|intros [_ H]; discriminate H].
      * split; auto.
    + intros H. rewrite (Hf H). reflexivity.
    + intros H. contradiction.
  - rewrite printCmdLineErrors_exact.
    cbn [with_os cmdLineErrors anyFailedLoads os writtenE OS.err].
    rewrite Ee. split; [|split].
    + split; [discriminate|intros [H _]; discriminate H].
    + reflexivity.
    + intros _. exists printed. rewrite Hp. reflexivity.
Qed.

(** X17: a command line that names, among arguments that are not command
    files themselves, one command file that cannot be found or cannot be
    read makes [parseCommandLine] return false, with the message
    [unable to find or open file: '...'] on the error stream and the
    failed-loads flag raised, whether the file was given with [-f] or with
    [-F] and whatever the other arguments are. *)
Theorem missing_command_file_fails (fuel : nat) (argList : string) (d : Driver)
    (before after : list CommandLine.Event) (fileName : string) (makeRelative : bool) :
  tokenize default_parseOpts argList =
    before ++ CommandLine.CommandFile fileName makeRelative :: after ->
  forallb notCommandFile before = true ->
  forallb notCommandFile after = true ->
  (canonical (OS.current_path (os d)) fileName = None \/
   exists path, canonical (OS.current_path (os d)) fileName = Some path /\
                readFile path = None) ->
  exists d',
    PARSE (S fuel) argList d = Some (false, d') /\
    anyFailedLoads d' = true /\
    exists printed,
      OS.err (os d') =
        OS.err (os d)
          ++ errorChunks (format1 "unable to find or open file: '" fileName "'")
          ++ printed.
Proof.
  intros Htok Hb Ha Hmiss.
  assert (Hpcf : forall d0, os d0 = os d ->
            PCF' (S fuel) fileName makeRelative d0 =
              Some (false,
                    printError (format1 "unable to find or open file: '" fileName "'")
                               d0)).
  { intros d0 Hos. cbn [processCommandFile]. rewrite Hos.
    destruct Hmiss as [->|(path & -> & ->)]; reflexivity. }
  assert (Hsplit : forall pcf d0 d1,
            runEvents pcf before d0 = Some d1 ->
            runEvents pcf (before ++ CommandLine.CommandFile fileName makeRelative :: after)
                      d0 =
            runEvents pcf (CommandLine.CommandFile fileName makeRelative :: after) d1).
  { intros pcf. clear. induction before as [|ev evs IH]; intros d0 d1 Hrun.
    - injection Hrun as <-. reflexivity.
    - cbn [app runEvents] in *.
      destruct (match ev with
                | CommandLine.Bound store => _
                | _ => _
                end) as [d2|]; [|discriminate].
      apply IH, Hrun. }
  destruct (runEvents_plain (PCF' (S fuel)) before Hb d) as (d1 & Hrun1 & Hos1 & Hf1).
  set (d2 := with_anyFailedLoads true
               (printError (format1 "unable to find or open file: '" fileName "'") d1)).
  destruct (runEvents_plain (PCF' (S fuel)) after Ha d2) as (d3 & Hrun3 & Hos3 & Hf3).
  assert (Hrun : runEvents (PCF' (S fuel)) (tokenize default_parseOpts argList) d
                 = Some d3).
  { rewrite Htok, (Hsplit _ _ _ Hrun1). cbn [runEvents]. unfold onCommandFile.
    rewrite (Hpcf d1 Hos1). cbn [negb]. exact Hrun3. }
  assert (Herr3 : OS.err (os d3) =
            OS.err (os d)
              ++ errorChunks (format1 "unable to find or open file: '" fileName "'")).
  { rewrite Hos3. subst d2. cbn [os with_anyFailedLoads].
    rewrite err_printError, Hos1. reflexivity. }
  assert (Hfl3 : anyFailedLoads d3 = true) by (rewrite Hf3; reflexivity).
  unfold parseCommandLine, cmdLine_parse. rewrite Hrun.
  destruct (cmdLineErrors d3) as [|e errors] eqn:Ee; cbn [negb].
  - exists d3. rewrite Hfl3. split; [reflexivity|]. split; [reflexivity|].
    exists []. rewrite app_nil_r. exact Herr3.
  - exists (printCmdLineErrors d3). split; [reflexivity|].
    rewrite printCmdLineErrors_exact.
    cbn [with_os anyFailedLoads os writtenE OS.err].
    split; [exact Hfl3|].
    exists (errorLines (cmdLineErrors d3)). rewrite Herr3, <- app_assoc. reflexivity.
Qed.

End CommandLineFacts.

(** ** Excluded extensions *)

Lemma find_last_of_None (c : ascii) (s : string) :
  find_last_of c s = None -> contains c s = false.
Proof.
  unfold contains. induction s as [|a r IH]; cbn; [reflexivity|].
  destruct (find_last_of c r) as [i|]; [discriminate|].
  destruct (Ascii.eqb_spec a c) as [->|Hne]; [discriminate|].
  intros _. rewrite (IH eq_refl), orb_false_r.
  destruct (Ascii.eqb_spec c a) as [->|_]; [contradiction|reflexivity].
Qed.

Lemma find_last_of_Some (c : ascii) (s : string) (i : nat) :
  find_last_of c s = Some i ->
  s = String.substring 0 i s +:+ String c (substr (i + 1) s) /\
  contains c (substr (i + 1) s) = false.
Proof.
  revert i. induction s as [|a r IH]; intros i; cbn [find_last_of]; [discriminate|].
  destruct (find_last_of c r) as [j|] eqn:E.
  - intros [= <-]. destruct (IH j eq_refl) as [Hs Hc].
    change (S j + 1) with (S (j + 1)).
    cbn [substr String.substring]. split; [|exact Hc].
    change (String a r = String a (String.substring 0 j r +:+ String c (substr (j + 1) r))).
    f_equal. exact Hs.
  - destruct (Ascii.eqb_spec a c) as [->|Hne]; [|discriminate].
    intros [= <-]. cbn. split; [|apply find_last_of_None, E].
    destruct r; reflexivity.
Qed.

(** X18: a positional argument is dropped only if it reads
    [stem.ext] with [ext] one of the excluded extensions and no ['.'] in
    [ext]: the test looks at the text after the last ['.'] only.  So an
    excluded extension that itself holds a ['.'], like [tar.gz], never
    excludes anything, and a set of such extensions lets every positional
    argument through to the source loader. *)
Theorem excluded_extension_has_no_dot :
  (forall pat d,
     onPositional pat d = d ->
     exists stem ext,
       pat = stem +:+ "." +:+ ext /\
       ext ∈ Options.excludeExts (options d) /\
       contains "." ext = false)
  /\ (forall pat d,
        (forall ext, ext ∈ Options.excludeExts (options d) -> contains "." ext = true) ->
        onPositional pat d =
          with_sourceLoader (SourceLoader.addFiles pat (sourceLoader d)) d).
Proof.
  assert (Hcases : forall pat d,
            (exists stem ext,
               pat = stem +:+ "." +:+ ext /\
               ext ∈ Options.excludeExts (options d) /\
               contains "." ext = false /\ onPositional pat d = d)
            \/ onPositional pat d =
                 with_sourceLoader (SourceLoader.addFiles pat (sourceLoader d)) d).
  { intros pat d. unfold onPositional.
    destruct (negb (bool_decide (Options.excludeExts (options d) = ∅)));
      [|right; reflexivity].
    destruct (find_last_of "." pat) as [i|] eqn:E; [|right; reflexivity].
    destruct (bool_decide (substr (i + 1) pat ∈ Options.excludeExts (options d)))
      eqn:Eb; [|right; reflexivity].
    apply bool_decide_eq_true in Eb.
    destruct (find_last_of_Some _ _ _ E) as [Hs Hc].
    left. exists (String.substring 0 i pat), (substr (i + 1) pat). auto. }
  split.
  - intros pat d Hd.
    destruct (Hcases pat d) as [(stem & ext & Hp & He & Hc & _)|Hadd].
    + exists stem, ext. auto.
    + exfalso. rewrite Hadd in Hd.
      apply (f_equal (fun x => length (SourceLoader.fileEntries (sourceLoader x)))) in Hd.
      cbn in Hd. rewrite length_app in Hd. cbn in Hd. lia.
  - intros pat d Hall.
    destruct (Hcases pat d) as [(stem & ext & Hp & He & Hc & _)|Hadd]; [|exact Hadd].
    rewrite (Hall ext He) in Hc. discriminate Hc.
Qed.

(** ** The token stream of preprocess-only mode *)

Lemma pushed_onto (A : Type) (l acc : list A) :
  foldl (fun stack b => pushSource A b stack) acc l = rev l ++ acc.
Proof.
  revert acc. induction l as [|b l IH]; intros acc; cbn [foldl rev]; [reflexivity|].
  rewrite IH. unfold pushSource. rewrite <- app_assoc. reflexivity.
Qed.

(** X19: pushing the loaded buffers onto the preprocessor from the last to
    the first leaves the first loaded buffer on top and the others below it
    in load order, so that the sources are preprocessed in the order in which
    they were loaded. *)
Theorem sources_pushed_in_load_order (SourceBuffer : Type)
    (buffers : list SourceBuffer) :
  foldl (fun stack b => pushSource SourceBuffer b stack) [] (rev buffers) = buffers.
Proof. rewrite pushed_onto, rev_involutive, app_nil_r. reflexivity. Qed.

Lemma sameLayout_refl (t : Token) : sameLayout t t.
Proof. repeat split. Qed.

Lemma sameLayout_withRawText (t : Token) (s : string) :
  kind t = TokenKind.Identifier -> sameLayout t (withRawText t s).
Proof. intros Hk. repeat split. intros Hne. contradiction. Qed.

Section TokenStreamFacts.

Variable valueText : Token -> string.
Variable isPossibleVectorDigit : TokenKind.t -> bool.
Variable mt19937 : Type.
Variable getUniformIntDist : mt19937 -> nat -> nat -> nat * mt19937.

Hypothesis eof_not_digit : isPossibleVectorDigit TokenKind.EndOfFile = false.

Abbreviation LOOP2 :=
  (tokenLoop valueText isPossibleVectorDigit mt19937 getUniformIntDist).
Abbreviation REWRITTEN2 := (rewritten valueText isPossibleVectorDigit).
Abbreviation NTHGEN := (nthGenerator mt19937 getUniformIntDist).
Abbreviation NTHNAME := (nthName mt19937 getUniformIntDist).

Lemma run_token_not_eof (inRun : bool) (t : Token) :
  (inRun && isPossibleVectorDigit (kind t))
  || (negb inRun && bool_decide (kind t = TokenKind.IntegerBase)) = true ->
  bool_decide (kind t = TokenKind.EndOfFile) = false.
Proof.
  intros H. apply bool_decide_eq_false. intros He. rewrite He in H.
  rewrite eof_not_digit, andb_false_r in H. cbn in H.
  apply andb_true_iff in H as [_ H]. apply bool_decide_eq_true in H. discriminate H.
Qed.

(** Without obfuscation the printed stream is the one read. *)
Lemma rewritten_plain (M : gmap string string) (ts : list Token) :
  forall inRun, REWRITTEN2 false M inRun ts = Some (upToEOF ts).
Proof.
  induction ts as [|t r IH]; intros inRun; cbn [rewritten upToEOF]; [reflexivity|].
  destruct ((inRun && isPossibleVectorDigit (kind t))
            || (negb inRun && bool_decide (kind t = TokenKind.IntegerBase))) eqn:E.
  - rewrite (run_token_not_eof inRun t E), IH. reflexivity.
  - unfold rewriteToken. cbn [andb].
    destruct (bool_decide (kind t = TokenKind.EndOfFile)); [reflexivity|].
    rewrite IH. reflexivity.
Qed.

(** With or without obfuscation, the printed stream has the layout of the
    one read. *)
Lemma rewritten_layout (obf : bool) (M : gmap string string) (ts : list Token) :
  forall inRun l,
    REWRITTEN2 obf M inRun ts = Some l -> Forall2 sameLayout (upToEOF ts) l.
Proof.
  induction ts as [|t r IH]; intros inRun l; cbn [rewritten upToEOF].
  - intros [= <-]. constructor; [apply sameLayout_refl|constructor].
  - destruct ((inRun && isPossibleVectorDigit (kind t))
              || (negb inRun && bool_decide (kind t = TokenKind.IntegerBase))) eqn:E.
    + rewrite (run_token_not_eof inRun t E).
      destruct (REWRITTEN2 obf M true r) as [l'|] eqn:Er; [|discriminate].
      intros [= <-]. constructor; [apply sameLayout_refl|]. eapply IH, Er.
    + assert (Ht : forall t', rewriteToken valueText obf M t = Some t' ->
                              sameLayout t t').
      { intros t'. unfold rewriteToken.
        destruct (obf && bool_decide (kind t = TokenKind.Identifier)) eqn:Eo.
        - apply andb_true_iff in Eo as [_ Hid]. apply bool_decide_eq_true in Hid.
          destruct (M !! valueText t) as [tr|]; [|discriminate].
          intros [= <-]. apply sameLayout_withRawText, Hid.
        - intros [= <-]. apply sameLayout_refl. }
      destruct (rewriteToken valueText obf M t) as [t'|]; [|discriminate].
      specialize (Ht t' eq_refl).
      destruct (bool_decide (kind t = TokenKind.EndOfFile)).
      * intros [= <-]. constructor; [exact Ht|constructor].
      * destruct (REWRITTEN2 obf M false r) as [l'|] eqn:Er; [|discriminate].
        intros [= <-]. constructor; [exact Ht|]. eapply IH, Er.
Qed.

(** X20: with or without obfuscation, the token loop prints as many tokens
    as it reads up to the first end of file, each with the kind and the
    trivia of the token read in its place, and every token that is not an
    identifier exactly as it was read: obfuscation changes the spelling of
    identifiers and nothing else. *)
Theorem obfuscation_keeps_layout (obfuscateIds : bool) (ts : list Token) (fuel : nat)
    (output : SyntaxPrinter.t) (rng : option mt19937) (m : gmap string string) :
  length ts < fuel ->
  (obfuscateIds = true -> is_Some rng) ->
  exists l rng' M,
    LOOP2 fuel obfuscateIds ts output rng m = Some (printAll l output, rng', M) /\
    Forall2 sameLayout (upToEOF ts) l /\
    length l = length (upToEOF ts).
Proof.
  intros Hlen Hrng.
  destruct (tokenLoop_spec valueText isPossibleVectorDigit mt19937 getUniformIntDist
              eof_not_digit (fun _ _ => True) (fun _ _ _ _ _ => Logic.I)
              obfuscateIds fuel ts output rng m Hlen Hrng Logic.I)
    as (l & rng' & M & Hrun & _ & Hspec & _).
  exists l, rng', M. split; [exact Hrun|].
  pose proof (rewritten_layout _ _ _ _ _ Hspec) as Hl.
  split; [exact Hl|]. symmetry. eapply Forall2_length, Hl.
Qed.

(** X21: without obfuscation the token loop prints the tokens it reads up
    to the first end of file exactly as they are, digit runs included, asks
    nothing of a random number generator and leaves the obfuscation table
    empty. *)
Theorem plain_preprocessing_is_verbatim (ts : list Token) (fuel : nat)
    (output : SyntaxPrinter.t) :
  length ts < fuel ->
  LOOP2 fuel false ts output None ∅ = Some (printAll (upToEOF ts) output, None, ∅).
Proof.
  intros Hlen.
  destruct (tokenLoop_spec valueText isPossibleVectorDigit mt19937 getUniformIntDist
              eof_not_digit (fun M rng => M = ∅ /\ rng = None)
              (fun m gen name H _ => match proj2 H with end)
              false fuel ts output None ∅ Hlen (fun H => match H with end)
              (conj eq_refl eq_refl))
    as (l & rng' & M & Hrun & _ & Hspec & [-> ->] & _).
  rewrite rewritten_plain in Hspec. injection Hspec as <-. exact Hrun.
Qed.

(** X22: when the loop has obfuscated a stream starting from the generator
    [gen] and an empty table, the generator has been asked for exactly one
    name per entry of the table, and the replacements in the table are
    exactly the first names [gen] yields, none skipped: an identifier met
    again draws nothing from the generator. *)
Theorem one_name_drawn_per_identifier (ts : list Token) (fuel : nat) (gen : mt19937)
    (output : SyntaxPrinter.t) :
  length ts < fuel ->
  exists l M,
    LOOP2 fuel true ts output (Some gen) ∅ =
      Some (printAll l output, Some (NTHGEN gen (size M)), M) /\
    (forall name r, M !! name = Some r -> exists i, i < size M /\ r = NTHNAME gen i) /\
    (forall i, i < size M -> exists name, M !! name = Some (NTHNAME gen i)).
Proof.
  intros Hlen.
  pose (I := fun (m : gmap string string) (rng : option mt19937) =>
               rng = Some (NTHGEN gen (size m)) /\
               (forall name r, m !! name = Some r ->
                               exists i, i < size m /\ r = NTHNAME gen i) /\
               (forall i, i < size m -> exists name, m !! name = Some (NTHNAME gen i))).
  assert (Hins : forall m g name,
            I m (Some g) -> m !! name = None ->
            I (<[name := fst (generateRandomAlphanumericString mt19937
                                getUniformIntDist g 16)]> m)
              (Some (snd (generateRandomAlphanumericString mt19937
                            getUniformIntDist g 16)))).
  { intros m g name (Hg & Hval & Hidx) Hnone. injection Hg as ->.
    unfold I. rewrite (map_size_insert_None _ _ _ Hnone).
    split; [reflexivity|]. split.
    - intros n r Hn. rewrite lookup_insert in Hn.
      destruct (decide (name = n)) as [->|Hne].
      + injection Hn as <-. exists (size m). split; [lia|reflexivity].
      + destruct (Hval n r Hn) as (i & Hi & ->). exists i. split; [lia|reflexivity].
    - intros i Hi. destruct (decide (i = size m)) as [->|Hne].
      + exists name. rewrite lookup_insert_eq. reflexivity.
      + destruct (Hidx i ltac:(lia)) as (n & Hn). exists n.
        rewrite lookup_insert_ne; [exact Hn|].
        intros <-. rewrite Hnone in Hn. discriminate Hn. }
  assert (H0 : I ∅ (Some gen)).
  { unfold I. rewrite map_size_empty. split; [reflexivity|].
    split; [intros n r Hn; rewrite lookup_empty in Hn; discriminate|intros i Hi; lia]. }
  destruct (tokenLoop_spec valueText isPossibleVectorDigit mt19937 getUniformIntDist
              eof_not_digit I Hins true fuel ts output (Some gen) ∅ Hlen
              (fun _ => mk_is_Some _ _ eq_refl) H0)
    as (l & rng' & M & Hrun & _ & _ & (-> & Hval & Hidx) & _).
  exists l, M. auto.
Qed.

End TokenStreamFacts.

(** ** Load errors *)

(** What the callback does to the driver over the load errors of one call
    of the source loader. *)
Lemma onLoadErrors_effect (messages : list string) (d : Driver) :
  let d' := foldl (fun d message => onLoadError message d) d messages in
  options d' = options d /\ cmdLineErrors d' = cmdLineErrors d /\
  diagEngine d' = diagEngine d /\ diagClient d' = diagClient d /\
  sourceManager d' = sourceManager d /\ sourceLoader d' = sourceLoader d /\
  anyFailedLoads d' =
    anyFailedLoads d || negb (bool_decide (messages = [])) /\
  os d' = writtenE (concat (map errorChunks messages)) (os d).
Proof.
  revert d. induction messages as [|message l IH]; intros d; cbn [foldl].
  - cbn. rewrite writtenE_nil, orb_false_r. repeat split.
  - destruct (IH (onLoadError message d)) as (A & B & C & D & E & F & G & H).
    cbv zeta in *. rewrite A, B, C, D, E, F, G, H.
    unfold onLoadError. rewrite printError_writtenE.
    cbn [with_anyFailedLoads with_os options cmdLineErrors diagEngine diagClient
         sourceManager sourceLoader anyFailedLoads os map concat].
    rewrite writtenE_writtenE, orb_true_r.
    repeat split.
Qed.

Section RunPreprocessorMore.

Variable TimeScale : Type.
Variable TimeScale_fromString : string -> option TimeScale.
Variable default_ppoptions : PreprocessorOptions.t.
Variable default_loptions : LexerOptions.t.
Variable default_poptions : ParserOptions.t.
Variable default_coptions : CompilationOptions.t TimeScale.
Variable SourceBuffer : Type.
Variable loadSources : SourceLoader.t -> list SourceBuffer * list string.
Variable preprocess :
  Bag TimeScale -> SourceManager.t -> list SourceBuffer -> list Token * Diagnostics.
Variable valueText : Token -> string.
Variable isPossibleVectorDigit : TokenKind.t -> bool.
Variable str : SyntaxPrinter.t -> string.
Variable reportAll : SourceManager.t -> Diagnostics -> string.
Variable mt19937 : Type.
Variable mt19937_default : mt19937.
Variable getUniformIntDist : mt19937 -> nat -> nat -> nat * mt19937.

Abbreviation RP2 :=
  (runPreprocessor TimeScale TimeScale_fromString default_ppoptions default_loptions
     default_poptions default_coptions SourceBuffer loadSources preprocess valueText
     isPossibleVectorDigit str reportAll mt19937 mt19937_default getUniformIntDist).
Abbreviation BAG2 :=
  (createOptionBag TimeScale TimeScale_fromString default_ppoptions default_loptions
     default_poptions default_coptions).

(** X23: load errors do not stop the preprocess-only mode, and its
    diagnostics never reach the diagnostic engine.  [runPreprocessor] prints
    the load errors, raises the failed-loads flag for them and goes on with
    the buffers that did load, in load order; what it returns tells only
    whether one of the preprocessor's own diagnostics is an error as the
    preprocessor made it, so that the engine, with its severity table and its
    error limit, is as before. *)
Theorem load_errors_do_not_stop_preprocessing
    (fuel : nat) (entropy : mt19937)
    (includeComments includeDirectives obfuscateIds useFixedObfuscationSeed : bool)
    (d : Driver) (buffers : list SourceBuffer) (loadErrors : list string)
    (tokens : list Token) (diagnostics : Diagnostics) :
  isPossibleVectorDigit TokenKind.EndOfFile = false ->
  loadSources (sourceLoader d) = (buffers, loadErrors) ->
  preprocess (BAG2 d) (sourceManager d) buffers = (tokens, diagnostics) ->
  length tokens < fuel ->
  exists d',
    RP2 fuel entropy includeComments includeDirectives obfuscateIds
        useFixedObfuscationSeed d
      = Some (negb (existsb isError diagnostics), d') /\
    anyFailedLoads d' = anyFailedLoads d || negb (bool_decide (loadErrors = [])) /\
    diagEngine d' = diagEngine d /\
    diagClient d' = diagClient d /\
    options d' = options d /\
    sourceLoader d' = sourceLoader d.
Proof.
  intros Heof Hload Hpp Hlen.
  set (rng := if obfuscateIds
              then if useFixedObfuscationSeed then Some mt19937_default else Some entropy
              else None).
  assert (Hrng : obfuscateIds = true -> is_Some rng).
  { intros ->. subst rng. destruct useFixedObfuscationSeed; eexists; reflexivity. }
  destruct (tokenLoop_spec valueText isPossibleVectorDigit mt19937 getUniformIntDist
              Heof (fun _ _ => True) (fun _ _ _ _ _ => Logic.I) obfuscateIds fuel tokens
              {| SyntaxPrinter.includeComments := includeComments;
                 SyntaxPrinter.includeDirectives := includeDirectives;
                 SyntaxPrinter.printed := [] |} rng ∅ Hlen Hrng Logic.I)
    as (l & rng' & M & Hrun & _).
  unfold runPreprocessor. rewrite Hload.
  destruct (onLoadErrors_effect loadErrors d) as (A & B & C & D & E & F & G & H).
  cbv zeta in *.
  set (d1 := foldl (fun d message => onLoadError message d) d loadErrors) in *.
  rewrite pushed_onto, rev_involutive, app_nil_r, E.
  change (createOptionBag TimeScale TimeScale_fromString default_ppoptions
            default_loptions default_poptions default_coptions d)
    with (BAG2 d).
  rewrite Hpp. fold rng. rewrite Hrun.
  destruct (existsb isError diagnostics); cbn [negb];
    eexists; (split; [reflexivity|]);
    cbn [with_os anyFailedLoads diagEngine diagClient options sourceLoader];
    rewrite A, C, D, F, G; repeat split.
Qed.

End RunPreprocessorMore.

(** ** Parsing, compiling and reporting *)

Lemma append_assoc (a b c : string) : (a +:+ b) +:+ c = a +:+ (b +:+ c).
Proof.
  induction a as [|x a IH]; [reflexivity|].
  change (String x ((a +:+ b) +:+ c) = String x (a +:+ (b +:+ c))).
  f_equal. exact IH.
Qed.

Lemma written_nil (o : OS.t) : written [] o = o.
Proof. destruct o. unfold written. cbn. rewrite app_nil_r. reflexivity. Qed.

Lemma written_written (a b : list Chunk) (o : OS.t) :
  written b (written a o) = written (a ++ b) o.
Proof. unfold written. cbn. rewrite app_assoc. reflexivity. Qed.

Lemma print_written (c : Chunk) (o : OS.t) : OS.print c o = written [c] o.
Proof. reflexivity. Qed.

Lemma print_loop {A} (f : A -> Chunk) (l : list A) (d : Driver) :
  foldl (fun d x => with_os (OS.print (f x) (os d)) d) d l =
    with_os (written (map f l) (os d)) d.
Proof.
  revert d. induction l as [|x l IH]; intros d; cbn [foldl map].
  - rewrite written_nil. destruct d; reflexivity.
  - rewrite IH. cbn [with_os os]. rewrite print_written, written_written.
    reflexivity.
Qed.

Section CompilingFacts.

Variable TimeScale : Type.
Variable TimeScale_fromString : string -> option TimeScale.
Variable default_ppoptions : PreprocessorOptions.t.
Variable default_loptions : LexerOptions.t.
Variable default_poptions : ParserOptions.t.
Variable default_coptions : CompilationOptions.t TimeScale.
Variable SyntaxTree : Type.
Variable loadAndParseSources :
  SourceLoader.t -> Bag TimeScale -> list SyntaxTree * list string.
Variable mappingsFromPragmas :
  SourceManager.t -> SeverityTable -> Diagnostics * SeverityTable.
Variable getParseDiagnostics : Compilation.t TimeScale SyntaxTree -> Diagnostics.
Variable getAllDiagnostics : Compilation.t TimeScale SyntaxTree -> Diagnostics.
Variable topInstances : Compilation.t TimeScale SyntaxTree -> list string.
Variable getNumErrors : DiagnosticEngine.t -> Z.
Variable getNumWarnings : DiagnosticEngine.t -> Z.
Variable getString : TextDiagnosticClient.t -> DiagnosticEngine.t -> string.

Abbreviation BAG3 :=
  (createOptionBag TimeScale TimeScale_fromString default_ppoptions default_loptions
     default_poptions default_coptions).
Abbreviation PARSEALL :=
  (parseAllSources TimeScale TimeScale_fromString default_ppoptions default_loptions
     default_poptions default_coptions SyntaxTree loadAndParseSources
     mappingsFromPragmas).
Abbreviation COMPILATION :=
  (createCompilation TimeScale TimeScale_fromString default_ppoptions default_loptions
     default_poptions default_coptions SyntaxTree).
Abbreviation REPORTPARSE :=
  (reportParseDiags TimeScale TimeScale_fromString default_ppoptions default_loptions
     default_poptions default_coptions SyntaxTree getParseDiagnostics getNumErrors
     getString).
Abbreviation REPORT :=
  (reportCompilation TimeScale SyntaxTree getAllDiagnostics topInstances getNumErrors
     getNumWarnings getString).

(** The engine with more diagnostics issued to it. *)
Abbreviation issuedTo diags e :=
  {| DiagnosticEngine.errorLimit := DiagnosticEngine.errorLimit e;
     DiagnosticEngine.severityTable := DiagnosticEngine.severityTable e;
     DiagnosticEngine.ignorePaths := DiagnosticEngine.ignorePaths e;
     DiagnosticEngine.ignoreMacroPaths := DiagnosticEngine.ignoreMacroPaths e;
     DiagnosticEngine.issued := DiagnosticEngine.issued e ++ diags |}.

Lemma issueAll_exact (diags : Diagnostics) (d : Driver) :
  issueAll diags d = with_diagEngine (issuedTo diags (diagEngine d)) d.
Proof. unfold issueAll. apply issue_loop. Qed.

(** X24: [parseAllSources] returns true exactly when no load had failed
    before the call and the source loader reports no load error during it; a
    command file that could not be read makes it fail even if every source
    parses.  It keeps the syntax trees the loader returns either way and
    prints the load errors.  When it fails the diagnostic engine is left
    alone; when it succeeds the severities mapped by the pragmas of the
    sources are in force and the diagnostics about those pragmas have been
    issued, in order, after those issued before. *)
Theorem parseAllSources_result (d : Driver) (syntaxTrees : list SyntaxTree)
    (loadErrors : list string) :
  loadAndParseSources (sourceLoader d) (BAG3 d) = (syntaxTrees, loadErrors) ->
  exists ok d',
    PARSEALL d = (ok, d', syntaxTrees) /\
    ok = negb (anyFailedLoads d) && bool_decide (loadErrors = []) /\
    anyFailedLoads d' = negb ok /\
    OS.err (os d') = OS.err (os d) ++ concat (map errorChunks loadErrors) /\
    OS.out (os d') = OS.out (os d) /\
    (ok = false -> diagEngine d' = diagEngine d) /\
    (ok = true ->
     let pragmas :=
       mappingsFromPragmas (sourceManager d)
         (DiagnosticEngine.severityTable (diagEngine d)) in
     DiagnosticEngine.severityTable (diagEngine d') = snd pragmas /\
     DiagnosticEngine.issued (diagEngine d') =
       DiagnosticEngine.issued (diagEngine d) ++ fst pragmas).
Proof.
  intros Hload. unfold parseAllSources.
  change (createOptionBag TimeScale TimeScale_fromString default_ppoptions
            default_loptions default_poptions default_coptions d) with (BAG3 d).
  rewrite Hload.
  destruct (onLoadErrors_effect loadErrors d) as (A & B & C & D & E & F & G & H).
  cbv zeta in *.
  set (d1 := foldl (fun d message => onLoadError message d) d loadErrors) in *.
  rewrite G.
  destruct (anyFailedLoads d) eqn:Ef; cbn [orb negb andb].
  - exists false, d1. rewrite G, H. cbn. repeat split; try discriminate. intros _. exact C.
  - destruct (bool_decide (loadErrors = [])) eqn:Eb; cbn [negb].
    + unfold setMappingsFromPragmas. rewrite E, C.
      destruct (mappingsFromPragmas (sourceManager d)
                  (DiagnosticEngine.severityTable (diagEngine d)))
        as [pragmaDiags tbl].
      rewrite issueAll_exact.
      eexists; eexists. split; [reflexivity|].
      cbn [with_diagEngine anyFailedLoads os diagEngine DiagnosticEngine.with_table
           DiagnosticEngine.severityTable DiagnosticEngine.issued fst snd].
      rewrite G, H. cbn. repeat split; try discriminate.
    + exists false, d1. rewrite G, H. cbn.
      repeat split; try discriminate. intros _. exact C.
Qed.

Lemma createCompilation_trees (d : Driver) (syntaxTrees : list SyntaxTree) :
  Compilation.syntaxTrees (COMPILATION d syntaxTrees) = syntaxTrees /\
  Compilation.bag (COMPILATION d syntaxTrees) = BAG3 d.
Proof.
  unfold createCompilation.
  change (createOptionBag TimeScale TimeScale_fromString default_ppoptions
            default_loptions default_poptions default_coptions d) with (BAG3 d).
  assert (H : forall c : Compilation.t TimeScale SyntaxTree,
            Compilation.syntaxTrees
              (foldl (fun compilation tree => Compilation.addSyntaxTree tree compilation)
                     c syntaxTrees)
              = Compilation.syntaxTrees c ++ syntaxTrees /\
            Compilation.bag
              (foldl (fun compilation tree => Compilation.addSyntaxTree tree compilation)
                     c syntaxTrees)
              = Compilation.bag c).
  { induction syntaxTrees as [|tree trees IH]; intros c; cbn [foldl].
    - rewrite app_nil_r. auto.
    - destruct (IH (Compilation.addSyntaxTree tree c)) as [-> ->].
      cbn. rewrite <- app_assoc. auto. }
  destruct (H (@Compilation.Build_t TimeScale SyntaxTree (BAG3 d) [])) as [-> ->].
  auto.
Qed.

(** X25: the compilation the driver creates holds every parsed syntax tree,
    in the order of the list, and the option bag of the driver;
    [reportParseDiags] issues the parse diagnostics of that compilation to the
    engine after those issued before, prints the text of the client on the
    error stream in one piece, prints nothing on the output stream, and
    returns true exactly when the engine then counts no error. *)
Theorem parse_diagnostics_reported (d : Driver) (syntaxTrees : list SyntaxTree) :
  Compilation.syntaxTrees (COMPILATION d syntaxTrees) = syntaxTrees /\
  Compilation.bag (COMPILATION d syntaxTrees) = BAG3 d /\
  exists d',
    REPORTPARSE d syntaxTrees = ((getNumErrors (diagEngine d') =? 0)%Z, d') /\
    diagEngine d' =
      issuedTo (getParseDiagnostics (COMPILATION d syntaxTrees)) (diagEngine d) /\
    OS.err (os d') =
      OS.err (os d) ++ [plain (getString (diagClient d) (diagEngine d'))] /\
    OS.out (os d') = OS.out (os d).
Proof.
  destruct (createCompilation_trees d syntaxTrees) as [Ht Hb].
  split; [exact Ht|]. split; [exact Hb|].
  unfold reportParseDiags. cbv zeta. rewrite issueAll_exact.
  eexists. split; [reflexivity|]. repeat split.
Qed.

(** X26: [reportCompilation] issues all the diagnostics of the compilation
    to the engine, prints the text of the client on the error stream in one
    piece, and returns true exactly when the engine then counts no error.
    With [quiet] it prints nothing on the output stream.  Without, it prints
    there the list of the top-level design units if there is one, a blank line
    if the text of the diagnostics is longer than one character, and then the
    verdict and the counts: [Build succeeded: ] exactly when it returns true,
    in which case the counts start with [0 errors, ]; a count of one is
    followed by the singular, any other by the plural. *)
Theorem reportCompilation_output
    (compilation : Compilation.t TimeScale SyntaxTree) (quiet : bool) (d : Driver) :
  let e := issuedTo (getAllDiagnostics compilation) (diagEngine d) in
  let diagStr := getString (diagClient d) e in
  exists d',
    REPORT compilation quiet d = ((getNumErrors e =? 0)%Z, d') /\
    diagEngine d' = e /\
    OS.err (os d') = OS.err (os d) ++ [plain diagStr] /\
    OS.out (os d') =
      OS.out (os d) ++
      (if quiet then []
       else instanceLines (topInstances compilation)
            ++ (if Nat.ltb 1 (String.length diagStr) then [plain nl] else [])
            ++ [verdict (getNumErrors e); summary (getNumErrors e) (getNumWarnings e)])
    /\ (getNumErrors e = 0%Z ->
        verdict (getNumErrors e) = fg highlightColor "Build succeeded: " /\
        summary (getNumErrors e) (getNumWarnings e) =
          plain ("0 errors, " +:+ counted (getNumWarnings e) "warning" +:+ nl))
    /\ (getNumErrors e <> 0%Z ->
        verdict (getNumErrors e) = fg errorColor "Build failed: ")
    /\ counted 1 "error" = "1 error" /\ counted 2 "warning" = "2 warnings".
Proof.
  cbv zeta.
  set (e := issuedTo (getAllDiagnostics compilation) (diagEngine d)).
  assert (Hsucc : getNumErrors e = 0%Z ->
            verdict (getNumErrors e) = fg highlightColor "Build succeeded: " /\
            summary (getNumErrors e) (getNumWarnings e) =
              plain ("0 errors, " +:+ counted (getNumWarnings e) "warning" +:+ nl))
    by (intros ->; split; reflexivity).
  assert (Hfail : getNumErrors e <> 0%Z ->
            verdict (getNumErrors e) = fg errorColor "Build failed: ").
  { intros He. unfold verdict.
    destruct (Z.eqb_spec (getNumErrors e) 0); [contradiction|reflexivity]. }
  assert (Hcount : counted 1 "error" = "1 error" /\ counted 2 "warning" = "2 warnings")
    by (split; reflexivity).
  unfold reportCompilation.
  destruct quiet; cbn [negb].
  - rewrite issueAll_exact. fold e. eexists. split; [reflexivity|].
    cbn [with_os with_diagEngine diagEngine os diagClient OS.printE OS.out OS.err].
    rewrite app_nil_r. repeat (split; [reflexivity|]). auto.
  - assert (Hinst :
      match topInstances compilation with
      | [] => d
      | _ :: _ =>
          with_os
            (OS.print (plain nl)
               (os (foldl (fun d inst =>
                             with_os (OS.print (plain (format1 "    " inst nl)) (os d)) d)
                          (with_os (OS.print
                                      (fg warningColor ("Top level design units:" +:+ nl))
                                      (os d)) d)
                          (topInstances compilation))))
            (foldl (fun d inst =>
                      with_os (OS.print (plain (format1 "    " inst nl)) (os d)) d)
                   (with_os (OS.print
                               (fg warningColor ("Top level design units:" +:+ nl))
                               (os d)) d)
                   (topInstances compilation))
      end = with_os (written (instanceLines (topInstances compilation)) (os d)) d).
    { unfold instanceLines. destruct (topInstances compilation) as [|i l] eqn:Ei.
      - rewrite written_nil. destruct d; reflexivity.
      - rewrite (print_loop (fun inst => plain (format1 "    " inst nl))).
        cbn [with_os os]. rewrite !print_written, !written_written. reflexivity. }
    rewrite Hinst. rewrite issueAll_exact.
    cbn [with_os with_diagEngine diagEngine os diagClient].
    fold e.
    eexists. split; [reflexivity|].
    assert (Hsum : forall n w,
              plain (format_int n +:+ " error" +:+ (if (n =? 1)%Z then EmptyString else "s")
                     +:+ ", " +:+ format_int w +:+ " warning"
                     +:+ (if (w =? 1)%Z then EmptyString else "s") +:+ nl)
              = summary n w).
    { intros n w. unfold summary, counted. rewrite ?append_assoc. reflexivity. }
    split; [|split; [|split]]; [| | |auto].
    + destruct (Nat.ltb 1 (String.length (getString (diagClient d) e)));
        destruct (getNumErrors e =? 0)%Z eqn:E0; reflexivity.
    + destruct (Nat.ltb 1 (String.length (getString (diagClient d) e)));
        destruct (getNumErrors e =? 0)%Z eqn:E0; reflexivity.
    + destruct (Nat.ltb 1 (String.length (getString (diagClient d) e)));
        destruct (getNumErrors e =? 0)%Z eqn:E0; rewrite Hsum; unfold verdict;
        rewrite E0; cbn; rewrite <- ?app_assoc; reflexivity.
Qed.

End CompilingFacts.

(** ** Reporting the macros *)

Lemma printTokens_pieces {Node : Type} (toks : list Token) (p : MacroPrinter.t Node) :
  MacroPrinter.pieces (MacroPrinter.printTokens toks p) =
    MacroPrinter.pieces p ++ map (MacroPrinter.OfToken (MacroPrinter.includeTrivia p)) toks.
Proof.
  unfold MacroPrinter.printTokens. revert p.
  induction toks as [|tok toks IH]; intros p; cbn [foldl map].
  - rewrite app_nil_r. reflexivity.
  - rewrite IH. cbn. rewrite <- app_assoc. reflexivity.
Qed.

Lemma drain_returns (ts : list Token) :
  forall fuel, length ts < fuel -> is_Some (drain fuel ts).
Proof.
  induction ts as [|t r IH]; intros fuel Hlen;
    (destruct fuel as [|fuel]; [cbn in Hlen; lia|]); cbn [drain next].
  - eexists. reflexivity.
  - destruct (bool_decide (kind t = TokenKind.EndOfFile)); [eexists; reflexivity|].
    apply IH. cbn in Hlen. lia.
Qed.

Section MacroReportFacts.

Variable TimeScale : Type.
Variable TimeScale_fromString : string -> option TimeScale.
Variable default_ppoptions : PreprocessorOptions.t.
Variable default_loptions : LexerOptions.t.
Variable default_poptions : ParserOptions.t.
Variable default_coptions : CompilationOptions.t TimeScale.
Variable SourceBuffer : Type.
Variable loadSources : SourceLoader.t -> list SourceBuffer * list string.
Variable preprocess :
  Bag TimeScale -> SourceManager.t -> list SourceBuffer -> list Token * Diagnostics.
Variable MacroFormalArgumentList : Type.
Variable getDefinedMacros :
  Bag TimeScale -> SourceManager.t -> list SourceBuffer ->
  list (DefineDirective.t MacroFormalArgumentList).
Variable printed_str : MacroPrinter.t MacroFormalArgumentList -> string.

Abbreviation BAG4 :=
  (createOptionBag TimeScale TimeScale_fromString default_ppoptions default_loptions
     default_poptions default_coptions).
Abbreviation REPORTMACROS :=
  (reportMacros TimeScale TimeScale_fromString default_ppoptions default_loptions
     default_poptions default_coptions SourceBuffer loadSources preprocess
     MacroFormalArgumentList getDefinedMacros printed_str).

Lemma printMacro_pieces (macro : DefineDirective.t MacroFormalArgumentList) :
  MacroPrinter.pieces (printMacro MacroFormalArgumentList macro) =
    macroPieces MacroFormalArgumentList macro /\
  MacroPrinter.includeComments (printMacro MacroFormalArgumentList macro) = false.
Proof.
  unfold printMacro, macroPieces. cbv zeta.
  assert (Hflags : forall toks (p : MacroPrinter.t MacroFormalArgumentList),
            MacroPrinter.includeComments (MacroPrinter.printTokens toks p) =
              MacroPrinter.includeComments p).
  { intros toks. unfold MacroPrinter.printTokens.
    induction toks as [|tok toks IH]; intros p; cbn [foldl]; [reflexivity|].
    rewrite IH. reflexivity. }
  rewrite printTokens_pieces, Hflags.
  destruct (DefineDirective.formalArguments macro) as [args|];
    destruct (DefineDirective.body macro) as [|first rest];
    try destruct (String.eqb (trivia first) EmptyString);
    cbn; split; reflexivity.
Qed.

(** X27: [reportMacros] reads the tokens through the end of file and then
    prints one line on the output stream for each macro the preprocessor has
    defined, in the preprocessor's order.  The line is made of the name
    without its trivia, the formal arguments if there are any, a blank
    exactly when the body is not empty and its first token carries no trivia,
    and the tokens of the body, comments left out.  It prints the load errors
    on the error stream and nothing else: the diagnostics of the preprocessor
    are dropped, errors included, and the diagnostic engine is not used. *)
Theorem reportMacros_lines (fuel : nat) (d : Driver) (buffers : list SourceBuffer)
    (loadErrors : list string) (tokens : list Token) (diagnostics : Diagnostics) :
  loadSources (sourceLoader d) = (buffers, loadErrors) ->
  preprocess (BAG4 d) (sourceManager d) buffers = (tokens, diagnostics) ->
  length tokens < fuel ->
  exists d',
    REPORTMACROS fuel d = Some d' /\
    OS.out (os d') =
      OS.out (os d) ++
      map (fun macro =>
             plain (printed_str (printMacro MacroFormalArgumentList macro) +:+ nl))
          (getDefinedMacros (BAG4 d) (sourceManager d) buffers) /\
    (forall macro,
       MacroPrinter.pieces (printMacro MacroFormalArgumentList macro) =
         macroPieces MacroFormalArgumentList macro /\
       MacroPrinter.includeComments (printMacro MacroFormalArgumentList macro) = false) /\
    OS.err (os d') = OS.err (os d) ++ concat (map errorChunks loadErrors) /\
    diagEngine d' = diagEngine d /\
    anyFailedLoads d' = anyFailedLoads d || negb (bool_decide (loadErrors = [])).
Proof.
  intros Hload Hpp Hlen. unfold reportMacros. rewrite Hload.
  destruct (onLoadErrors_effect loadErrors d) as (A & B & C & D & E & F & G & H).
  cbv zeta in *.
  set (d1 := foldl (fun d message => onLoadError message d) d loadErrors) in *.
  rewrite pushed_onto, rev_involutive, app_nil_r, E.
  change (createOptionBag TimeScale TimeScale_fromString default_ppoptions
            default_loptions default_poptions default_coptions d)
    with (BAG4 d).
  rewrite Hpp.
  destruct (drain_returns tokens fuel Hlen) as [rest ->].
  rewrite (print_loop
             (fun macro =>
                plain (printed_str (printMacro MacroFormalArgumentList macro) +:+ nl))).
  eexists. split; [reflexivity|].
  cbn [with_os os diagEngine anyFailedLoads written OS.out OS.err].
  rewrite H, C, G. cbn [writtenE OS.out OS.err].
  split; [reflexivity|]. split; [exact printMacro_pieces|].
  repeat split.
Qed.

End MacroReportFacts.

(** ** File paths *)

Section PosixPathFacts.

Variable PathT : Type.
Variable str : PathT -> string.
Variable ofString : string -> PathT.
Variable stat : string -> option Posix.stat_t.
Variable readdir : string -> option (list Posix.dirent).

Abbreviation EXISTS := (Posix.exists_ PathT str stat).
Abbreviation ISDIR := (Posix.isDirectory PathT str stat).
Abbreviation ISFILE := (Posix.isFile PathT str stat).
Abbreviation FILESIZE := (Posix.fileSize PathT str stat).
Abbreviation FILES := (Posix.getFilesInDirectory PathT str ofString readdir).

(** X28: on POSIX systems a path that is a directory or a regular file
    exists, and no path is both; a path that exists may be neither.
    [fileSize] returns a size, below [2^64], exactly for the paths that
    exist, and throws for the others with a message that names the path. *)
Theorem posix_path_kinds (p : PathT) :
  (ISDIR p = true -> EXISTS p = true)
  /\ (ISFILE p = true -> EXISTS p = true)
  /\ ISDIR p && ISFILE p = false
  /\ (EXISTS p = true <-> exists size, FILESIZE p = Ok size)
  /\ (forall size, FILESIZE p = Ok size -> (0 <= size < 2 ^ 64)%Z)
  /\ (EXISTS p = false ->
      FILESIZE p =
        Throw ("path::file_size(): cannot stat file " +:+ quote +:+ str p
               +:+ quote +:+ "!")).
Proof.
  unfold Posix.exists_, Posix.isDirectory, Posix.isFile, Posix.fileSize.
  destruct (stat (str p)) as [sb|].
  - split; [reflexivity|]. split; [reflexivity|]. split; [|split; [|split]].
    + unfold Posix.S_ISDIR, Posix.S_ISREG.
      destruct (Z.eqb_spec (Z.land (Posix.st_mode sb) Posix.S_IFMT) Posix.S_IFDIR)
        as [->|]; reflexivity.
    + split; [intros _; eexists; reflexivity|reflexivity].
    + intros size [= <-]. unfold to_size_t. apply Z.mod_pos_bound. lia.
    + discriminate.
  - split; [discriminate|]. split; [discriminate|]. split; [reflexivity|].
    split; [|split].
    + split; [discriminate|intros [size H]; discriminate H].
    + discriminate.
    + reflexivity.
Qed.

Lemma listing_loop (base : string) (entries : list Posix.dirent) (acc : list PathT) :
  foldl (fun result dir =>
           if (Posix.d_type dir =? Posix.DT_REG)%Z
           then result ++ [ofString (base +:+ Posix.d_name dir)]
           else result)
        acc entries
  = acc ++ map (fun dir => ofString (base +:+ Posix.d_name dir))
               (List.filter (fun dir => (Posix.d_type dir =? Posix.DT_REG)%Z) entries).
Proof.
  revert acc. induction entries as [|dir entries IH]; intros acc;
    cbn [foldl List.filter map].
  - rewrite app_nil_r. reflexivity.
  - rewrite IH. destruct (Posix.d_type dir =? Posix.DT_REG)%Z; [|reflexivity].
    cbn [map]. rewrite <- app_assoc. reflexivity.
Qed.

(** X29: on POSIX systems [getFilesInDirectory] lists the entries of the
    directory that are regular files, each as the path of the directory, a
    slash and the name of the entry, in the order in which the directory
    yields them; directories and every other kind of entry are left out, so
    the list is no longer than the directory; and a directory that cannot be
    opened gives the empty list, not an error. *)
Theorem posix_directory_listing (path : PathT) :
  (readdir (str path +:+ "/") = None -> FILES path = [])
  /\ (forall entries,
        readdir (str path +:+ "/") = Some entries ->
        FILES path =
          map (fun dir => ofString ((str path +:+ "/") +:+ Posix.d_name dir))
              (List.filter (fun dir => (Posix.d_type dir =? Posix.DT_REG)%Z) entries)
        /\ length (FILES path) <= length entries
        /\ (Forall (fun dir => Posix.d_type dir <> Posix.DT_REG) entries ->
            FILES path = [])).
Proof.
  unfold Posix.getFilesInDirectory. cbv zeta. split.
  - intros ->. reflexivity.
  - intros entries ->. rewrite listing_loop. cbn [app].
    split; [|split].
    + reflexivity.
    + rewrite length_map. apply List.filter_length_le.
    + intros Hall. induction Hall as [|dir entries Hd _ IH]; [reflexivity|].
      cbn [List.filter]. destruct (Z.eqb_spec (Posix.d_type dir) Posix.DT_REG);
        [contradiction|exact IH].
Qed.

End PosixPathFacts.

Section Win32PathFacts.

Variable PathT : Type.
Variable wstring : Type.
Variable wstr : PathT -> wstring.
Variable GetFileAttributesW : wstring -> Z.

Abbreviation WEXISTS := (Win32.exists_ PathT wstring wstr GetFileAttributesW).
Abbreviation WISDIR := (Win32.isDirectory PathT wstring wstr GetFileAttributesW).
Abbreviation WISFILE := (Win32.isFile PathT wstring wstr GetFileAttributesW).

(** X30: on Windows every path that exists is either a directory or a
    file, never both, and a path that does not exist is neither, although the
    value returned for it has the directory bit set. *)
Theorem win32_path_kinds (p : PathT) :
  WEXISTS p = WISFILE p || WISDIR p
  /\ WISFILE p && WISDIR p = false
  /\ (WEXISTS p = false -> WISDIR p = false /\ WISFILE p = false)
  /\ Z.land Win32.INVALID_FILE_ATTRIBUTES Win32.FILE_ATTRIBUTE_DIRECTORY <> 0%Z.
Proof.
  unfold Win32.exists_, Win32.isDirectory, Win32.isFile. cbv zeta.
  destruct (GetFileAttributesW (wstr p) =? Win32.INVALID_FILE_ATTRIBUTES)%Z;
    cbn [negb andb orb].
  - repeat split. discriminate.
  - destruct (Z.land (GetFileAttributesW (wstr p)) Win32.FILE_ATTRIBUTE_DIRECTORY =? 0)%Z;
      cbn; repeat split; try discriminate.
Qed.

End Win32PathFacts.

(** ** The further properties at concrete inputs *)

Abbreviation session_PO_facts thm :=
  (thm Scenario.fileSupportsColors Scenario.isDirectory Scenario.canonical
       Scenario.TimeScale Scenario.TimeScale_fromString Scenario.defaultWarnings
       Scenario.warningOptionsTable) (only parsing).

Abbreviation session_bag_facts thm :=
  (thm Scenario.fileSupportsColors Scenario.isDirectory Scenario.canonical
       Scenario.TimeScale Scenario.TimeScale_fromString Scenario.defaultWarnings
       Scenario.warningOptionsTable Scenario.default_ppoptions
       Scenario.default_loptions Scenario.default_poptions Scenario.default_coptions)
  (only parsing).

Abbreviation session_bag :=
  (createOptionBag Scenario.TimeScale Scenario.TimeScale_fromString
     Scenario.default_ppoptions Scenario.default_loptions Scenario.default_poptions
     Scenario.default_coptions).

(** X2 on [--timing fast top.v]. *)
Lemma timing_option_checked_witness :
  exists d',
    Scenario.run_processOptions Session.fast_run = (false, d') /\
    OS.err (os d') = errorChunks "invalid value for timing option: 'fast'".
Proof.
  destruct (session_PO_facts timing_option_checked Session.fast_run "fast")
    as (d' & Hrun & Herr & _).
  - left. reflexivity.
  - reflexivity.
  - discriminate.
  - discriminate.
  - discriminate.
  - exists d'. split; [exact Hrun|]. rewrite Herr. reflexivity.
Defined.

(** X3 on [--timescale 1ns top.v]. *)
Lemma time_scale_option_checked_witness :
  exists d',
    Scenario.run_processOptions Session.bad_scale_run = (false, d') /\
    OS.err (os d') = errorChunks "invalid value for time scale option: '1ns'".
Proof.
  destruct (session_PO_facts time_scale_option_checked Session.bad_scale_run "1ns")
    as (d' & Hrun & Herr & _).
  - left. reflexivity.
  - left. reflexivity.
  - left. reflexivity.
  - reflexivity.
  - reflexivity.
  - exists d'. split; [exact Hrun|]. rewrite Herr. reflexivity.
Defined.

(** X6 on [--compat foo --libraries-inherit-macros]. *)
Lemma failed_validation_leaves_diagnostics_witness :
  diagEngine (snd (Scenario.run_processOptions Scenario.foo_run)) =
    diagEngine Scenario.foo_run.
Proof.
  apply (session_PO_facts failed_validation_leaves_diagnostics Scenario.foo_run).
  vm_compute. reflexivity.
Defined.

(** X7 on [-I /work/rtl -I /nowhere --isystem /sys top.v]. *)
Lemma include_directories_registered_witness :
  SourceManager.userDirectories
    (sourceManager (snd (Scenario.run_processOptions Session.include_run)))
    = ["/work/rtl"]
  /\ OS.err (os (snd (Scenario.run_processOptions Session.include_run))) =
       warningChunks "include directory '/nowhere' does not exist"
       ++ warningChunks "include directory '/sys' does not exist".
Proof.
  assert (Hrun : Scenario.run_processOptions Session.include_run =
                 (true, snd (Scenario.run_processOptions Session.include_run)))
    by (vm_compute; reflexivity).
  destruct (session_PO_facts include_directories_registered _ _ Hrun)
    as (Hu & _ & He).
  rewrite Hu, He. split; reflexivity.
Defined.

(** X8 on [--lint-only top.v]. *)
Lemma options_after_validation_witness :
  Options.ignoreUnknownModules
    (options (snd (Scenario.run_processOptions Session.lint_run))) = Some true.
Proof.
  assert (Hrun : Scenario.run_processOptions Session.lint_run =
                 (true, snd (Scenario.run_processOptions Session.lint_run)))
    by (vm_compute; reflexivity).
  rewrite (session_PO_facts options_after_validation _ _ Hrun). reflexivity.
Defined.

(** X9 on [--suppress-warnings rtl/files.f --suppress-warnings gone.v]. *)
Lemma diagnostics_configured_witness :
  DiagnosticEngine.ignorePaths
    (diagEngine (snd (Scenario.run_processOptions Session.include_run)))
    = ["/work/rtl/files.f"].
Proof.
  assert (Hrun : Scenario.run_processOptions Session.include_run =
                 (true, snd (Scenario.run_processOptions Session.include_run)))
    by (vm_compute; reflexivity).
  destruct (session_PO_facts diagnostics_configured _ _ Hrun) as (Hi & _).
  rewrite Hi. reflexivity.
Defined.

(** X10 on [--compat vcs -Wno-duplicate-definition top.v]. *)
Lemma bag_after_vcs_profile_witness :
  CompilationOptions.relaxEnumConversions
    (bag_compilation
       (session_bag (snd (Scenario.run_processOptions Scenario.vcs_run)))) = true.
Proof.
  assert (Hrun : Scenario.run_processOptions Scenario.vcs_run =
                 (true, snd (Scenario.run_processOptions Scenario.vcs_run)))
    by (vm_compute; reflexivity).
  destruct (session_bag_facts bag_after_vcs_profile _ _ Hrun eq_refl) as (_ & _ & H).
  rewrite H. reflexivity.
Defined.

(** X12 on [--libraries-inherit-macros --single-unit top.v]. *)
Lemma bag_inherit_macros_single_unit_witness :
  SourceOptions.singleUnit
    (bag_source
       (session_bag (snd (Scenario.run_processOptions Session.single_unit_run)))) = true.
Proof.
  assert (Hrun : Scenario.run_processOptions Session.single_unit_run =
                 (true, snd (Scenario.run_processOptions Session.single_unit_run)))
    by (vm_compute; reflexivity).
  apply (session_bag_facts bag_inherit_macros_single_unit _ _ Hrun).
  vm_compute. reflexivity.
Defined.

(** X13 on [--timing max --timescale 1ns/1ps top.v]. *)
Lemma bag_timing_and_time_scale_witness :
  exists ts,
    CompilationOptions.defaultTimeScale
      (bag_compilation
         (session_bag (snd (Scenario.run_processOptions Session.timed_run)))) = Some ts.
Proof.
  assert (Hrun : Scenario.run_processOptions Session.timed_run =
                 (true, snd (Scenario.run_processOptions Session.timed_run)))
    by (vm_compute; reflexivity).
  destruct (session_bag_facts bag_timing_and_time_scale _ _ Hrun) as (_ & _ & H & _).
  destruct (H "1ns/1ps" eq_refl) as (ts & _ & Hts).
  exists ts. exact Hts.
Defined.

(** X16 on the command line [--bogus]. *)
Lemma parseCommandLine_verdict_witness :
  exists d' printed,
    Session.run_parseCommandLine 1 "--bogus" Scenario.plain_run = Some (false, d') /\
    OS.err (os d') =
      (OS.err (os Scenario.plain_run) ++ printed) ++ errorLines (cmdLineErrors d').
Proof.
  assert (Hrun : Session.run_parseCommandLine 1 "--bogus" Scenario.plain_run =
                 Some (false,
                       match Session.run_parseCommandLine 1 "--bogus" Scenario.plain_run
                       with Some (_, d') => d' | None => Scenario.plain_run end))
    by (vm_compute; reflexivity).
  destruct (parseCommandLine_verdict Scenario.canonical Scenario.readFile
              Scenario.parent_path Scenario.isDirectory Scenario.tokenize
              Session.default_parseOpts _ _ _ _ _ Hrun) as (_ & _ & H).
  destruct H as (printed & Hp).
  - vm_compute. discriminate.
  - eexists; exists printed. split; [exact Hrun|exact Hp].
Defined.

(** X17 on [top.v -F sub.f] given in [/work], where there is no [sub.f]. *)
Lemma missing_command_file_fails_witness :
  exists d',
    Session.run_parseCommandLine 1 "top.v -F sub.f" Scenario.plain_run
      = Some (false, d') /\
    anyFailedLoads d' = true.
Proof.
  destruct (missing_command_file_fails Scenario.canonical Scenario.readFile
              Scenario.parent_path Scenario.isDirectory Scenario.tokenize
              Session.default_parseOpts 0 "top.v -F sub.f" Scenario.plain_run
              [CommandLine.Positional "top.v"] [] "sub.f" true)
    as (d' & Hrun & Hf & _).
  - reflexivity.
  - reflexivity.
  - reflexivity.
  - left. reflexivity.
  - exists d'. split; assumption.
Defined.

(** X20 on [module m; wire x = 8'hFF; endmodule], obfuscated. *)
Lemma obfuscation_keeps_layout_witness :
  exists l rng' M,
    Scenario.run_tokenLoop 20 true Scenario.module_m Scenario.emptyPrinter
      (Some Scenario.mt19937_default) ∅
      = Some (printAll l Scenario.emptyPrinter, rng', M) /\
    length l = 12.
Proof.
  destruct (obfuscation_keeps_layout Scenario.valueText Scenario.isPossibleVectorDigit
              Scenario.mt19937 Scenario.getUniformIntDist eq_refl true
              Scenario.module_m 20 Scenario.emptyPrinter
              (Some Scenario.mt19937_default) ∅)
    as (l & rng' & M & Hrun & _ & Hlen).
  - cbn. lia.
  - intros _. eexists. reflexivity.
  - exists l, rng', M. split; [exact Hrun|]. rewrite Hlen. reflexivity.
Defined.

(** X21 on the same tokens, not obfuscated. *)
Lemma plain_preprocessing_is_verbatim_witness :
  Scenario.run_tokenLoop 20 false Scenario.module_m Scenario.emptyPrinter None ∅
    = Some (printAll (Scenario.module_m ++ [eofToken]) Scenario.emptyPrinter, None, ∅).
Proof.
  rewrite (plain_preprocessing_is_verbatim Scenario.valueText
             Scenario.isPossibleVectorDigit Scenario.mt19937
             Scenario.getUniformIntDist eq_refl Scenario.module_m 20
             Scenario.emptyPrinter) by (cbn; lia).
  reflexivity.
Defined.

(** X22 on the same tokens: two identifiers outside the digit run, two
    names drawn. *)
Lemma one_name_drawn_per_identifier_witness :
  exists l M,
    Scenario.run_tokenLoop 20 true Scenario.module_m Scenario.emptyPrinter
      (Some Scenario.mt19937_default) ∅
      = Some (printAll l Scenario.emptyPrinter,
              Some (nthGenerator Scenario.mt19937 Scenario.getUniformIntDist
                      Scenario.mt19937_default (size M)), M).
Proof.
  destruct (one_name_drawn_per_identifier Scenario.valueText
              Scenario.isPossibleVectorDigit Scenario.mt19937
              Scenario.getUniformIntDist eq_refl Scenario.module_m 20
              Scenario.mt19937_default Scenario.emptyPrinter)
    as (l & M & Hrun & _).
  - cbn. lia.
  - exists l, M. exact Hrun.
Defined.

(** X23 on [top.v missing.v]: the text of [top.v] is printed although
    [missing.v] could not be loaded. *)
Lemma load_errors_do_not_stop_preprocessing_witness :
  exists d',
    Scenario.run_runPreprocessor 20 7%N false false false false Session.missing_run
      = Some (true, d') /\
    anyFailedLoads d' = true.
Proof.
  destruct (load_errors_do_not_stop_preprocessing
              Scenario.TimeScale Scenario.TimeScale_fromString
              Scenario.default_ppoptions Scenario.default_loptions
              Scenario.default_poptions Scenario.default_coptions
              Scenario.SourceBuffer Scenario.loadSources Scenario.preprocess
              Scenario.valueText Scenario.isPossibleVectorDigit Scenario.str
              Scenario.reportAll Scenario.mt19937 Scenario.mt19937_default
              Scenario.getUniformIntDist 20 7%N false false false false
              Session.missing_run
              [(Scenario.module_m, [])]
              ["'missing.v': no such file or directory"]
              (Scenario.module_m ++ [eofToken]) [])
    as (d' & Hrun & Hf & _).
  - reflexivity.
  - reflexivity.
  - reflexivity.
  - cbn. lia.
  - exists d'. split; [exact Hrun|]. rewrite Hf. reflexivity.
Defined.

(** X24 on [top.v missing.v]: the parse fails although [top.v] is parsed,
    and the diagnostic engine is left alone. *)
Lemma parseAllSources_result_witness :
  exists ok d',
    Session.run_parseAllSources Session.missing_run = (ok, d', ["top.v"]) /\
    ok = false /\
    diagEngine d' = diagEngine Session.missing_run.
Proof.
  destruct (parseAllSources_result
              Scenario.TimeScale Scenario.TimeScale_fromString
              Scenario.default_ppoptions Scenario.default_loptions
              Scenario.default_poptions Scenario.default_coptions
              Session.SyntaxTree Session.loadAndParseSources
              Session.mappingsFromPragmas Session.missing_run
              ["top.v"] ["'missing.v': no such file or directory"] eq_refl)
    as (ok & d' & Hrun & Hok & _ & _ & _ & Hfail & _).
  exists ok, d'. split; [exact Hrun|].
  assert (H : ok = false) by (rewrite Hok; reflexivity).
  split; [exact H|]. exact (Hfail H).
Defined.

(** X26 on the compilation of [top.v]: one top-level design unit, and
    [Build succeeded: 0 errors, 0 warnings]. *)
Lemma reportCompilation_output_witness :
  exists d',
    Session.run_reportCompilation
      (Session.run_createCompilation Scenario.plain_run ["top.v"]) false
      Scenario.plain_run = (true, d') /\
    OS.out (os d') =
      [fg warningColor ("Top level design units:" +:+ nl);
       plain ("    m" +:+ nl); plain nl;
       fg highlightColor "Build succeeded: ";
       plain ("0 errors, 0 warnings" +:+ nl)] /\
    OS.err (os d') = [plain EmptyString].
Proof.
  destruct (reportCompilation_output Scenario.TimeScale Session.SyntaxTree
              Session.getAllDiagnostics Session.topInstances Session.getNumErrors
              Session.getNumWarnings Session.getString
              (Session.run_createCompilation Scenario.plain_run ["top.v"]) false
              Scenario.plain_run)
    as (d' & Hrun & _ & Herr & Hout & _).
  exists d'. split; [exact Hrun|]. rewrite Hout, Herr. split; reflexivity.
Defined.

(** X27 on [top.v]: one line for each of the two macros. *)
Lemma reportMacros_lines_witness :
  exists d',
    Session.run_reportMacros 20 Scenario.plain_run = Some d' /\
    OS.out (os d') = [plain ("WIDTH 8" +:+ nl); plain ("MAX(a,b) ( a" +:+ nl)].
Proof.
  destruct (reportMacros_lines
              Scenario.TimeScale Scenario.TimeScale_fromString
              Scenario.default_ppoptions Scenario.default_loptions
              Scenario.default_poptions Scenario.default_coptions
              Scenario.SourceBuffer Scenario.loadSources Scenario.preprocess
              Session.MacroFormalArgumentList Session.getDefinedMacros
              Session.printed_str 20 Scenario.plain_run
              [(Scenario.module_m, [])] [] (Scenario.module_m ++ [eofToken]) [])
    as (d' & Hrun & Hout & _).
  - reflexivity.
  - reflexivity.
  - cbn. lia.
  - exists d'. split; [exact Hrun|]. rewrite Hout. reflexivity.
Defined.

(** X28 on a directory, a regular file, a socket and a path that does not
    exist. *)
Lemma posix_path_kinds_witness :
  Posix.isDirectory string id Session.stat "/work" = true /\
  Posix.isFile string id Session.stat "/work/top.v" = true /\
  Posix.exists_ string id Session.stat "/run/sock" = true /\
  Posix.isDirectory string id Session.stat "/run/sock"
    || Posix.isFile string id Session.stat "/run/sock" = false /\
  Posix.fileSize string id Session.stat "/work/top.v" = Ok 120%Z /\
  exists what, Posix.fileSize string id Session.stat "/gone" = Throw what.
Proof.
  destruct (posix_path_kinds string id Session.stat "/gone")
    as (_ & _ & _ & _ & _ & Hthrow).
  repeat split; try reflexivity.
  eexists. apply Hthrow. reflexivity.
Defined.

(** X29 on [/work], which holds a directory and a regular file. *)
Lemma posix_directory_listing_witness :
  Posix.getFilesInDirectory string id id Session.readdir "/work" = ["/work/top.v"] /\
  Posix.getFilesInDirectory string id id Session.readdir "/gone" = [].
Proof.
  destruct (posix_directory_listing string id id Session.readdir "/work") as [_ Hl].
  destruct (Hl _ eq_refl) as (Hfiles & _).
  split; [rewrite Hfiles; reflexivity|].
  apply (posix_directory_listing string id id Session.readdir "/gone"). reflexivity.
Defined.
